(** * docql: a shallow embedding of the AST, the builder and the renderers

    The Go sources embedded here are
    - [internal/types]: the AST data model and [Validate];
    - the root package [docql]: identifier validation and the fluent
      [Builder];
    - [pkg/mongodb], [pkg/dynamodb], [pkg/firestore], [pkg/couchdb]: the
      four renderers.

    Go strings are byte strings ([string]); Go [int] is [Z] (no arithmetic
    that could wrap is performed on it); a pointer that may be nil is an
    [option]; a Go [map] is a [gmap], and the order in which [range] visits
    its entries is chosen by a [MapOrder] that every render call receives. *)

From Stdlib Require Import ZArith Ascii String List Permutation.
From stdpp Require Import gmap strings list fin_maps pretty.

#[local] Set Warnings "-register-all".
#[local] Open Scope Z_scope.
#[local] Open Scope string_scope.
#[local] Open Scope list_scope.

(** ** Errors: Go's [(value, error)] pairs *)

Inductive result (A : Type) : Type :=
  | Ok (a : A)
  | Err (msg : string).
Arguments Ok {A} a.
Arguments Err {A} msg.

Definition is_ok {A} (r : result A) : bool :=
  match r with Ok _ => true | Err _ => false end.

Definition is_err {A} (r : result A) : bool := negb (is_ok r).

(** [len] is Go's [len] on slices. *)
Definition len {A} (l : list A) : Z := Z.of_nat (length l).

(** * Package internal/types *)

Module types.

(** ** Identifier records (field.go, and the [Collection] and [Param]
    structs, used throughout as [Collection{Name: ..}], [Param{Name: ..}]) *)

Record Field : Type := mkField { Path : string; Field_Collection : string }.

Record Param : Type := mkParam { Param_Name : string }.

Record Collection : Type := mkCollection { Name : string }.

#[global] Instance Field_eq_dec : EqDecision Field.
Proof. solve_decision. Defined.

#[global] Instance Field_countable : Countable Field.
Proof.
  refine (inj_countable' (fun f => (Path f, Field_Collection f))
                         (fun p => mkField p.1 p.2) _).
  by intros [].
Defined.

#[global] Instance Param_eq_dec : EqDecision Param.
Proof. solve_decision. Defined.

(** ** operator.go: the operator kinds are Go string types *)

Definition FilterOperator := string.
Definition LogicOperator := string.
Definition UpdateOperator := string.
Definition Operation := string.
Definition SortOrder := Z.

Definition EQ : FilterOperator := "$eq".
Definition NE : FilterOperator := "$ne".
Definition GT : FilterOperator := "$gt".
Definition GTE : FilterOperator := "$gte".
Definition LT : FilterOperator := "$lt".
Definition LTE : FilterOperator := "$lte".
Definition IN : FilterOperator := "$in".
Definition NotIn : FilterOperator := "$nin".
Definition Exists : FilterOperator := "$exists".
Definition Type_ : FilterOperator := "$type".
Definition Regex : FilterOperator := "$regex".
Definition Text : FilterOperator := "$text".
Definition Mod : FilterOperator := "$mod".
Definition All : FilterOperator := "$all".
Definition ElemMatch : FilterOperator := "$elemMatch".
Definition Size : FilterOperator := "$size".
Definition GeoWithin : FilterOperator := "$geoWithin".
Definition GeoIntersects : FilterOperator := "$geoIntersects".
Definition Near : FilterOperator := "$near".
Definition NearSphere : FilterOperator := "$nearSphere".

Definition AND : LogicOperator := "$and".
Definition OR : LogicOperator := "$or".
Definition NOR : LogicOperator := "$nor".
Definition NOT : LogicOperator := "$not".

Definition Set_ : UpdateOperator := "$set".
Definition Unset : UpdateOperator := "$unset".
Definition SetOnInsert : UpdateOperator := "$setOnInsert".
Definition Inc : UpdateOperator := "$inc".
Definition Mul : UpdateOperator := "$mul".
Definition Min : UpdateOperator := "$min".
Definition Max : UpdateOperator := "$max".
Definition Rename : UpdateOperator := "$rename".
Definition CurrentDate : UpdateOperator := "$currentDate".
Definition AddToSet : UpdateOperator := "$addToSet".
Definition Pop : UpdateOperator := "$pop".
Definition Pull : UpdateOperator := "$pull".
Definition Push : UpdateOperator := "$push".
Definition PullAll : UpdateOperator := "$pullAll".

Definition Ascending : SortOrder := 1.
Definition Descending : SortOrder := -1.

Definition OpFind : Operation := "FIND".
Definition OpFindOne : Operation := "FIND_ONE".
Definition OpInsert : Operation := "INSERT".
Definition OpInsertMany : Operation := "INSERT_MANY".
Definition OpUpdate : Operation := "UPDATE".
Definition OpUpdateMany : Operation := "UPDATE_MANY".
Definition OpDelete : Operation := "DELETE".
Definition OpDeleteMany : Operation := "DELETE_MANY".
Definition OpAggregate : Operation := "AGGREGATE".
Definition OpCount : Operation := "COUNT".
Definition OpDistinct : Operation := "DISTINCT".

Definition MaxFilterDepth : Z := 10.
Definition MaxBatchSize : Z := 1000.
Definition MaxLimit : Z := 10000.
Definition MaxProjectionFields : Z := 100.
Definition MaxSortFields : Z := 10.
Definition MaxPipelineStages : Z := 50.

(** ** filter.go

    [FilterItem] is a Go interface: a value of it is nil ([NilFilter]) or
    one of the nine struct variants. *)

Record GeoPoint : Type := mkGeoPoint { Lon : Param; Lat : Param }.

Inductive FilterItem : Type :=
  | NilFilter
  | FilterCondition (field : Field) (operator : FilterOperator) (value : Param)
  | FilterGroup (logic : LogicOperator) (conditions : list FilterItem)
  | RangeFilter (field : Field) (min max : option Param)
                (minExclusive maxExclusive : bool)
  | RegexFilter (field : Field) (pattern : Param) (options : option Param)
  | TextSearchFilter (search : Param) (language : option Param)
                     (caseSensitive diacriticSensitive : bool)
  | GeoFilter (field : Field) (operator : FilterOperator) (center : GeoPoint)
              (radius maxDistance minDistance : option Param)
  | ArrayFilter (field : Field) (operator : FilterOperator) (value : Param)
  | ElemMatchFilter (field : Field) (conditions : list FilterItem)
  | ExistsFilter (field : Field) (exists_ : bool).

(** [f == nil] on an interface value. *)
Definition isNil (f : FilterItem) : bool :=
  match f with NilFilter => true | _ => false end.

(** ** The sort and pagination structs, and projection.go *)

Record SortClause : Type := mkSortClause { Sort_Field : Field; Order : SortOrder }.

Record PaginationValue : Type :=
  mkPaginationValue { Static : option Z; Pagination_Param : option Param }.

Record SliceOp : Type := mkSliceOp { Count : Param; SliceOp_Skip : option Param }.

Record ElemMatchProjection : Type :=
  mkElemMatchProjection { ElemMatch_Conditions : list FilterItem }.

Record ProjectionField : Type := mkProjectionField {
  Projection_Field : Field;
  Include : bool;
  Slice : option SliceOp;
  Projection_ElemMatch : option ElemMatchProjection
}.

Record Projection : Type :=
  mkProjection { Projection_Fields : list ProjectionField; Exclude : bool }.

(** ** update.go *)

Record UpdateOperation : Type :=
  mkUpdateOperation { Operator : UpdateOperator; Fields : gmap Field Param }.

Record Document : Type := mkDocument { Document_Fields : gmap Field Param }.

(** ** aggregate.go

    [Expression] and [PipelineStage] are interfaces as well, hence the
    [NilExpression] and [NilStage] values. *)

Inductive Expression : Type :=
  | NilExpression
  | FieldExpression (field : Field)
  | LiteralExpression (value : Param)
  | OperatorExpression (operator : string) (args : list Expression)
  | ConditionalExpression (if_ then_ else_ : Expression).

Record Accumulator : Type :=
  mkAccumulator { Acc_Operator : string; Expr : Expression }.

Inductive PipelineStage : Type :=
  | NilStage
  | MatchStage (filter : FilterItem)
  | ProjectStage (projection : Projection) (computed : gmap string Expression)
  | GroupStage (id : Expression) (accumulators : gmap string Accumulator)
  | SortStage (sorts : list SortClause)
  | LimitStage (limit : PaginationValue)
  | SkipStage (skip : PaginationValue)
  | UnwindStage (path : Field) (includeArrayIndex : option string)
                (preserveNullAndEmptyArrays : bool)
  | LookupStage (from : string) (localField foreignField : Field) (as_ : string)
                (pipeline : list PipelineStage) (let_ : gmap string Expression)
  | AddFieldsStage (fields : gmap string Expression)
  | ReplaceRootStage (newRoot : Expression)
  | CountStage (fieldName : string)
  | FacetStage (facets : gmap string (list PipelineStage))
  | BucketStage (groupBy : Expression) (boundaries : list Param)
                (default : option Param) (output : gmap string Accumulator).

(** ** result.go

    [JValue] is the value handed to [json.Marshal]: Go maps with string
    keys are [JObj], slices are [JArr], and a nil interface or a nil slice
    is [JNull].  [encoding/json] is not part of the repository: the
    serialised text is kept as [Marshal v], the encoding of the document
    [v].  [json.Marshal] is a function of that document (it emits the keys
    of a map in sorted order), so equal documents stand for byte-identical
    texts; no disequality of texts is ever derived from [Marshal]. *)

Inductive JValue : Type :=
  | JNull
  | JBool (b : bool)
  | JInt (z : Z)
  | JStr (s : string)
  | JArr (l : list JValue)
  | JObj (m : gmap string JValue).

Inductive JSONText : Type :=
  | Marshal (v : JValue).

Record QueryResult : Type :=
  mkQueryResult { JSON : JSONText; RequiredParams : list string }.

(** ** ast.go *)

Record DocumentAST : Type := mkDocumentAST {
  Operation_ : Operation;
  Target : Collection;
  FilterClause : FilterItem;
  Projection_ : option Projection;
  SortClauses : list SortClause;
  Skip : option PaginationValue;
  Limit : option PaginationValue;
  Documents : list Document;
  UpdateOps : list UpdateOperation;
  Upsert : bool;
  Pipeline : list PipelineStage;
  DistinctField : option Field
}.

(** Go's [error] return value: [None] is a nil error. *)
Definition error := option string.

Fixpoint validateFilterDepth (f : FilterItem) (depth : Z) : error :=
  if depth >? MaxFilterDepth then
    Some ("filter nesting exceeds maximum depth: " +:+ pretty depth +:+ " > "
          +:+ pretty MaxFilterDepth)
  else
    let fix each (cs : list FilterItem) : error :=
      match cs with
      | [] => None
      | c :: cs' =>
          match validateFilterDepth c (depth + 1) with
          | Some err => Some err
          | None => each cs'
          end
      end in
    match f with
    | FilterGroup _ conditions => each conditions
    | ElemMatchFilter _ conditions => each conditions
    | _ => None
    end.

Definition validateFind (ast : DocumentAST) : error :=
  let limitErr :=
    match Limit ast with
    | Some pv =>
        match Static pv with
        | Some n =>
            if n >? MaxLimit then
              Some ("limit exceeds maximum: " +:+ pretty n +:+ " > "
                    +:+ pretty MaxLimit)
            else None
        | None => None
        end
    | None => None
    end in
  let projErr :=
    match Projection_ ast with
    | Some p =>
        if len (Projection_Fields p) >? MaxProjectionFields then
          Some ("projection fields exceed maximum: "
                +:+ pretty (len (Projection_Fields p)) +:+ " > "
                +:+ pretty MaxProjectionFields)
        else None
    | None => None
    end in
  match limitErr with
  | Some err => Some err
  | None =>
      match projErr with
      | Some err => Some err
      | None =>
          if len (SortClauses ast) >? MaxSortFields then
            Some ("sort fields exceed maximum: "
                  +:+ pretty (len (SortClauses ast)) +:+ " > "
                  +:+ pretty MaxSortFields)
          else if negb (isNil (FilterClause ast)) then
            validateFilterDepth (FilterClause ast) 0
          else None
      end
  end.

Definition validateInsert (ast : DocumentAST) : error :=
  if negb (len (Documents ast) =? 1)%Z then
    Some "INSERT requires exactly one document"
  else None.

Definition validateInsertMany (ast : DocumentAST) : error :=
  if (len (Documents ast) =? 0)%Z then
    Some "INSERT_MANY requires at least one document"
  else if len (Documents ast) >? MaxBatchSize then
    Some ("batch size exceeds maximum: " +:+ pretty (len (Documents ast))
          +:+ " > " +:+ pretty MaxBatchSize)
  else None.

Definition validateUpdate (ast : DocumentAST) : error :=
  if (len (UpdateOps ast) =? 0)%Z then
    Some "UPDATE requires at least one update operation"
  else None.

Definition validateUpdateMany (ast : DocumentAST) : error :=
  if (len (UpdateOps ast) =? 0)%Z then
    Some "UPDATE_MANY requires at least one update operation"
  else if isNil (FilterClause ast) then
    Some "UPDATE_MANY requires a filter for safety"
  else None.

Definition validateDelete (ast : DocumentAST) : error := None.

Definition validateDeleteMany (ast : DocumentAST) : error :=
  if isNil (FilterClause ast) then
    Some "DELETE_MANY requires a filter for safety"
  else None.

Definition validateAggregate (ast : DocumentAST) : error :=
  if (len (Pipeline ast) =? 0)%Z then
    Some "AGGREGATE requires at least one pipeline stage"
  else if len (Pipeline ast) >? MaxPipelineStages then
    Some ("pipeline stages exceed maximum: " +:+ pretty (len (Pipeline ast))
          +:+ " > " +:+ pretty MaxPipelineStages)
  else None.

Definition validateCount (ast : DocumentAST) : error := None.

Definition validateDistinct (ast : DocumentAST) : error :=
  match DistinctField ast with
  | None => Some "DISTINCT requires a field"
  | Some _ => None
  end.

(** A Go [switch] on a string takes the first case whose constant equals
    the scrutinee; [=?] is [String.eqb]. *)
Definition Validate (ast : DocumentAST) : error :=
  if Name (Target ast) =? "" then
    Some "target collection is required"
  else
    let op := Operation_ ast in
    if (op =? OpFind) || (op =? OpFindOne) then validateFind ast
    else if op =? OpInsert then validateInsert ast
    else if op =? OpInsertMany then validateInsertMany ast
    else if op =? OpUpdate then validateUpdate ast
    else if op =? OpUpdateMany then validateUpdateMany ast
    else if op =? OpDelete then validateDelete ast
    else if op =? OpDeleteMany then validateDeleteMany ast
    else if op =? OpAggregate then validateAggregate ast
    else if op =? OpCount then validateCount ast
    else if op =? OpDistinct then validateDistinct ast
    else Some ("unsupported operation: " +:+ op).

(** ** aggregate.go: the name of a stage

    Every stage struct has a method [StageName]; on a nil
    [PipelineStage] the call panics ([None]). *)
Definition StageName (stage : PipelineStage) : option string :=
  match stage with
  | NilStage => None
  | MatchStage _ => Some "$match"
  | ProjectStage _ _ => Some "$project"
  | GroupStage _ _ => Some "$group"
  | SortStage _ => Some "$sort"
  | LimitStage _ => Some "$limit"
  | SkipStage _ => Some "$skip"
  | UnwindStage _ _ _ => Some "$unwind"
  | LookupStage _ _ _ _ _ _ => Some "$lookup"
  | AddFieldsStage _ => Some "$addFields"
  | ReplaceRootStage _ => Some "$replaceRoot"
  | CountStage _ => Some "$count"
  | FacetStage _ => Some "$facet"
  | BucketStage _ _ _ _ => Some "$bucket"
  end.

End types.

(** * The order of [range] over a Go map

    Go leaves the order in which [range] visits the entries of a map
    unspecified, and it may differ from one loop to the next.  A render call
    therefore receives a [MapOrder]: the [n]-th map loop of the call visits
    the entries [l] of its map in the order [range_order n l].  Any order is
    possible as long as every entry is visited once ([fair]). *)

Record MapOrder : Type :=
  mkMapOrder { range_order : forall A : Type, nat -> list A -> list A }.
Arguments range_order _ {A} _ _.

Definition fair (o : MapOrder) : Prop :=
  forall (A : Type) (n : nat) (l : list A), Permutation (range_order o n l) l.

(** Two orders used in the examples: the entries as stored, and reversed. *)
Definition stored : MapOrder := mkMapOrder (fun A _ l => l).
Definition reversed : MapOrder := mkMapOrder (fun A _ l => rev l).

(** * Package ddml, as package docql reads it

    The schema types come from the module github.com/zoobzio/ddml.  Package
    docql reads the name, type, required flag, sub-fields and element type
    of a field, the fields of a collection, and the collections and enums
    of a schema; these are the fields the records below keep.  A field
    type is a Go string type. *)

Module ddml.

Definition FieldType := string.

Inductive Field : Type :=
  | mkField (name : string) (type : FieldType) (required : bool)
            (fields : list Field) (arrayOf : option Field).

Definition Name (f : Field) : string :=
  match f with mkField name _ _ _ _ => name end.
Definition Type_ (f : Field) : FieldType :=
  match f with mkField _ type _ _ _ => type end.
Definition Fields (f : Field) : list Field :=
  match f with mkField _ _ _ fields _ => fields end.
Definition ArrayOf (f : Field) : option Field :=
  match f with mkField _ _ _ _ arrayOf => arrayOf end.

Record Collection : Type := mkCollection { Collection_Fields : list Field }.

Record Enum : Type := mkEnum { Values : list string }.

Record Schema : Type := mkSchema {
  Collections : gmap string Collection;
  Enums : gmap string Enum
}.

End ddml.

(** * Package docql *)

Module docql.

(** ** renderer.go: the [Renderer] interface *)

Record Renderer : Type := mkRenderer {
  Render : MapOrder -> types.DocumentAST -> result types.QueryResult;
  SupportsOperation : types.Operation -> bool;
  SupportsFilter : types.FilterOperator -> bool;
  SupportsUpdate : types.UpdateOperator -> bool;
  SupportsPipelineStage : string -> bool
}.

(** ** instance.go: identifier validation

    [isValidIdentifier] walks the runes of [s].  Every byte of a multi-byte
    or invalid UTF-8 sequence is at least 128, and the rune it decodes to is
    at least 128 as well (or U+FFFD), so it fails the same range tests as
    the byte does: the walk is modelled byte by byte.  [strings.ToLower] is
    reached only after that walk, hence only on ASCII letters, digits and
    underscores, where it maps [A-Z] to [a-z]. *)

Definition code (c : ascii) : N := N_of_ascii c.

Definition isLetter (c : ascii) : bool :=
  ((97 <=? code c) && (code c <=? 122) || (65 <=? code c) && (code c <=? 90))%N.

Definition isDigit (c : ascii) : bool :=
  ((48 <=? code c) && (code c <=? 57))%N.

Definition underscore : ascii := "_"%char.

(** The test on the rune at index 0, and on every later rune. *)
Definition validFirst (c : ascii) : bool :=
  isLetter c || Ascii.eqb c underscore.

Definition validRest (c : ascii) : bool :=
  isLetter c || isDigit c || Ascii.eqb c underscore.

Fixpoint Contains (s substr : string) : bool :=
  String.prefix substr s ||
  match s with
  | EmptyString => false
  | String _ s' => Contains s' substr
  end.

Definition toLowerByte (c : ascii) : ascii :=
  if ((65 <=? code c) && (code c <=? 90))%N then ascii_of_N (code c + 32) else c.

Fixpoint ToLower (s : string) : string :=
  match s with
  | EmptyString => EmptyString
  | String c s' => String (toLowerByte c) (ToLower s')
  end.

Definition quote : string := String (ascii_of_N 34) EmptyString.

Definition suspiciousPatterns : list string :=
  [ ";"; "--"; "/*"; "*/"; "'"; quote; "`"; "\";
    " or "; " and "; "drop "; "delete "; "insert ";
    "update "; "select "; "union "; "exec "; "execute " ].

Fixpoint allRest (s : string) : bool :=
  match s with
  | EmptyString => true
  | String c s' => validRest c && allRest s'
  end.

Definition isValidIdentifier (s : string) : bool :=
  match s with
  | EmptyString => false
  | String c s' =>
      if Contains s " " then false
      else if negb (validFirst c && allRest s') then false
      else negb (existsb (Contains (ToLower s)) suspiciousPatterns)
  end.

Definition TryP (name : string) : result types.Param :=
  if negb (isValidIdentifier name) then
    Err ("invalid parameter name: " +:+ name)
  else Ok (types.mkParam name).

(** ** instance.go: field paths

    [strings.Split(s, ".")]: the parts of [s] between its dots, one more
    than there are dots. *)
Fixpoint Split (s : string) (sep : ascii) : list string :=
  match s with
  | EmptyString => [EmptyString]
  | String c s' =>
      if Ascii.eqb c sep then EmptyString :: Split s' sep
      else
        match Split s' sep with
        | part :: parts => String c part :: parts
        | [] => [String c EmptyString]
        end
  end.

Definition dot : ascii := "."%char.
Definition dollar : ascii := "$"%char.

(** The test on the rune at index 0 of a part of a path. *)
Definition validPathFirst (c : ascii) : bool :=
  isLetter c || Ascii.eqb c underscore || Ascii.eqb c dollar.

(** The body of the loop over the parts: a part is refused when it is
    empty, or when one of its runes fails its test. *)
Definition validPart (part : string) : bool :=
  match part with
  | EmptyString => false
  | String c rest => validPathFirst c && allRest rest
  end.

(** As in [isValidIdentifier], the runes are tested byte by byte, and
    [strings.ToLower] is reached only on ASCII bytes. *)
Definition isValidFieldPath (s : string) : bool :=
  if s =? "" then false
  else if Contains s " " then false
  else if negb (forallb validPart (Split s dot)) then false
  else negb (existsb (Contains (ToLower s)) suspiciousPatterns).

(** ** instance.go: the schema instance

    [collections] and [fields] are Go maps; [fields] maps a collection name
    to the map from the field paths of that collection to their fields.
    The pointers of a schema are taken to be non-nil: [NewFromDDML] and the
    accessors dereference them without a test. *)
Record DOCQL : Type := mkDOCQL {
  schema : ddml.Schema;
  collections : gmap string ddml.Collection;
  fields : gmap string (gmap string ddml.Field);
  enums : gmap string ddml.Enum
}.

Section Instance.

(** The constants [ddml.TypeObject] and [ddml.TypeArray]. *)
Variables TypeObject TypeArray : ddml.FieldType.

(** [d.indexFields(collName, prefix, fields)] writes to the map
    [d.fields[collName]], which [NewFromDDML] has made before the call:
    [index] is that map.  [indexField] is the body of its loop. *)
Fixpoint indexField (prefix : string) (f : ddml.Field)
    (index : gmap string ddml.Field) {struct f} : gmap string ddml.Field :=
  match f with
  | ddml.mkField name type _ subfields arrayOf =>
      let path := if negb (prefix =? "") then prefix +:+ "." +:+ name else name in
      let index := <[path := f]> index in
      let index :=
        if (type =? TypeObject) && (len subfields >? 0) then
          fold_left (fun index g => indexField path g index) subfields index
        else index in
      if type =? TypeArray then
        match arrayOf with
        | Some (ddml.mkField _ elemType _ elemFields _) =>
            if elemType =? TypeObject then
              fold_left (fun index g => indexField path g index) elemFields index
            else index
        | None => index
        end
      else index
  end.

Definition indexFields (prefix : string) (fs : list ddml.Field)
    (index : gmap string ddml.Field) : gmap string ddml.Field :=
  fold_left (fun index f => indexField prefix f index) fs index.

(** [schema] is a pointer: [None] is nil.  The loop ranges over the map
    [schema.Collections]; [o] gives the order of its entries. *)
Definition NewFromDDML (o : MapOrder) (sch : option ddml.Schema) : result DOCQL :=
  match sch with
  | None => Err "schema cannot be nil"
  | Some sch =>
      Ok (fold_left
            (fun d '(name, coll) =>
               mkDOCQL (schema d) (<[name := coll]> (collections d))
                 (<[name := indexFields "" (ddml.Collection_Fields coll) ∅]>
                    (fields d))
                 (enums d))
            (range_order o 0 (map_to_list (ddml.Collections sch)))
            (mkDOCQL sch ∅ ∅ (ddml.Enums sch)))
  end.

End Instance.

Definition TryC (d : DOCQL) (name : string) : result types.Collection :=
  if negb (isValidIdentifier name) then
    Err ("invalid collection name: " +:+ name)
  else
    match collections d !! name with
    | None => Err ("collection '" +:+ name +:+ "' not found in schema")
    | Some _ => Ok (types.mkCollection name)
    end.

Definition TryF (d : DOCQL) (collectionName fieldPath : string)
    : result types.Field :=
  if negb (isValidFieldPath fieldPath) then
    Err ("invalid field path: " +:+ fieldPath)
  else
    match fields d !! collectionName with
    | None => Err ("collection '" +:+ collectionName +:+ "' not found")
    | Some collFields =>
        match collFields !! fieldPath with
        | None =>
            Err ("field '" +:+ fieldPath +:+ "' not found in collection '"
                 +:+ collectionName +:+ "'")
        | Some _ => Ok (types.mkField fieldPath collectionName)
        end
    end.

(** [Collections] and [Fields] collect the keys of a map in the order of
    one [range] loop. *)
Definition Collections (o : MapOrder) (d : DOCQL) : list string :=
  map fst (range_order o 0 (map_to_list (collections d))).

Definition Fields (o : MapOrder) (d : DOCQL) (collectionName : string)
    : result (list string) :=
  match fields d !! collectionName with
  | None => Err ("collection '" +:+ collectionName +:+ "' not found")
  | Some collFields => Ok (map fst (range_order o 0 (map_to_list collFields)))
  end.



(** ** builder.go

    A [*Builder] points at one AST and one error slot; every method mutates
    them in place and returns the receiver.  A method is modelled as the
    function from the receiver's state before the call to its state after
    it, so [b.Filter(a).Filter(c)] is [Filter (Filter b a) c]. *)

Import types.

Record Builder : Type := mkBuilder { ast : DocumentAST; err : error }.

(** The zero-valued AST of a constructor, with [Operation] and [Target]. *)
Definition newAST (op : Operation) (c : Collection) : DocumentAST :=
  mkDocumentAST op c NilFilter None [] None None [] [] false [] None.

(** Assignments to one field of [b.ast]. *)
Definition setFilterClause (a : DocumentAST) (f : FilterItem) : DocumentAST :=
  mkDocumentAST (Operation_ a) (Target a) f (Projection_ a) (SortClauses a)
    (Skip a) (Limit a) (Documents a) (UpdateOps a) (Upsert a) (Pipeline a)
    (DistinctField a).

Definition setProjection (a : DocumentAST) (p : option Projection) : DocumentAST :=
  mkDocumentAST (Operation_ a) (Target a) (FilterClause a) p (SortClauses a)
    (Skip a) (Limit a) (Documents a) (UpdateOps a) (Upsert a) (Pipeline a)
    (DistinctField a).

Definition setSortClauses (a : DocumentAST) (l : list SortClause) : DocumentAST :=
  mkDocumentAST (Operation_ a) (Target a) (FilterClause a) (Projection_ a) l
    (Skip a) (Limit a) (Documents a) (UpdateOps a) (Upsert a) (Pipeline a)
    (DistinctField a).

Definition setSkip (a : DocumentAST) (v : option PaginationValue) : DocumentAST :=
  mkDocumentAST (Operation_ a) (Target a) (FilterClause a) (Projection_ a)
    (SortClauses a) v (Limit a) (Documents a) (UpdateOps a) (Upsert a)
    (Pipeline a) (DistinctField a).

Definition setLimit (a : DocumentAST) (v : option PaginationValue) : DocumentAST :=
  mkDocumentAST (Operation_ a) (Target a) (FilterClause a) (Projection_ a)
    (SortClauses a) (Skip a) v (Documents a) (UpdateOps a) (Upsert a)
    (Pipeline a) (DistinctField a).

Definition setDocuments (a : DocumentAST) (l : list Document) : DocumentAST :=
  mkDocumentAST (Operation_ a) (Target a) (FilterClause a) (Projection_ a)
    (SortClauses a) (Skip a) (Limit a) l (UpdateOps a) (Upsert a) (Pipeline a)
    (DistinctField a).

Definition setUpdateOps (a : DocumentAST) (l : list UpdateOperation) : DocumentAST :=
  mkDocumentAST (Operation_ a) (Target a) (FilterClause a) (Projection_ a)
    (SortClauses a) (Skip a) (Limit a) (Documents a) l (Upsert a) (Pipeline a)
    (DistinctField a).

Definition setUpsert (a : DocumentAST) (u : bool) : DocumentAST :=
  mkDocumentAST (Operation_ a) (Target a) (FilterClause a) (Projection_ a)
    (SortClauses a) (Skip a) (Limit a) (Documents a) (UpdateOps a) u
    (Pipeline a) (DistinctField a).

Definition setPipeline (a : DocumentAST) (l : list PipelineStage) : DocumentAST :=
  mkDocumentAST (Operation_ a) (Target a) (FilterClause a) (Projection_ a)
    (SortClauses a) (Skip a) (Limit a) (Documents a) (UpdateOps a) (Upsert a) l
    (DistinctField a).

Definition setDistinctField (a : DocumentAST) (f : option Field) : DocumentAST :=
  mkDocumentAST (Operation_ a) (Target a) (FilterClause a) (Projection_ a)
    (SortClauses a) (Skip a) (Limit a) (Documents a) (UpdateOps a) (Upsert a)
    (Pipeline a) f.

Definition Find (c : Collection) : Builder := mkBuilder (newAST OpFind c) None.
Definition FindOne (c : Collection) : Builder := mkBuilder (newAST OpFindOne c) None.
Definition Insert (c : Collection) : Builder := mkBuilder (newAST OpInsert c) None.
Definition InsertMany (c : Collection) : Builder :=
  mkBuilder (newAST OpInsertMany c) None.
Definition Update (c : Collection) : Builder := mkBuilder (newAST OpUpdate c) None.
Definition UpdateMany (c : Collection) : Builder :=
  mkBuilder (newAST OpUpdateMany c) None.
Definition Delete (c : Collection) : Builder := mkBuilder (newAST OpDelete c) None.
Definition DeleteMany (c : Collection) : Builder :=
  mkBuilder (newAST OpDeleteMany c) None.
Definition Aggregate (c : Collection) : Builder :=
  mkBuilder (newAST OpAggregate c) None.
Definition Count (c : Collection) : Builder := mkBuilder (newAST OpCount c) None.
Definition Distinct (c : Collection) (field : Field) : Builder :=
  mkBuilder (setDistinctField (newAST OpDistinct c) (Some field)) None.

Definition isReadOperation (b : Builder) : bool :=
  let op := Operation_ (ast b) in
  (op =? OpFind) || (op =? OpFindOne) || (op =? OpAggregate) || (op =? OpCount)
  || (op =? OpDistinct).

Definition isUpdateOperation (b : Builder) : bool :=
  let op := Operation_ (ast b) in
  (op =? OpUpdate) || (op =? OpUpdateMany).

(** The first operation with operator [op], if any, gets [field] set to
    [value] in its map. *)
Fixpoint mergeUpdate (ops : list UpdateOperation) (op : UpdateOperator)
    (field : Field) (value : Param) : option (list UpdateOperation) :=
  match ops with
  | [] => None
  | existing :: rest =>
      if Operator existing =? op then
        Some (mkUpdateOperation (Operator existing)
                (<[field := value]> (Fields existing)) :: rest)
      else
        match mergeUpdate rest op field value with
        | Some rest' => Some (existing :: rest')
        | None => None
        end
  end.

Definition addOrMergeUpdate (b : Builder) (op : UpdateOperator)
    (field : Field) (value : Param) : Builder :=
  match mergeUpdate (UpdateOps (ast b)) op field value with
  | Some ops => mkBuilder (setUpdateOps (ast b) ops) (err b)
  | None =>
      mkBuilder
        (setUpdateOps (ast b)
           (UpdateOps (ast b) ++ [mkUpdateOperation op {[ field := value ]}]))
        (err b)
  end.

Definition Filter (b : Builder) (f : FilterItem) : Builder :=
  match err b with
  | Some _ => b
  | None =>
      if isNil (FilterClause (ast b)) then
        mkBuilder (setFilterClause (ast b) f) (err b)
      else
        mkBuilder
          (setFilterClause (ast b) (FilterGroup AND [FilterClause (ast b); f]))
          (err b)
  end.

Definition Where (b : Builder) (f : FilterItem) : Builder := Filter b f.

Definition Select (b : Builder) (fields : list Field) : Builder :=
  match err b with
  | Some _ => b
  | None =>
      if negb (isReadOperation b) then
        mkBuilder (ast b) (Some "Select() can only be used with read operations")
      else
        let projFields := map (fun f => mkProjectionField f true None None) fields in
        mkBuilder (setProjection (ast b) (Some (mkProjection projFields false)))
          (err b)
  end.

Definition Exclude (b : Builder) (fields : list Field) : Builder :=
  match err b with
  | Some _ => b
  | None =>
      if negb (isReadOperation b) then
        mkBuilder (ast b) (Some "Exclude() can only be used with read operations")
      else
        let projFields := map (fun f => mkProjectionField f false None None) fields in
        mkBuilder (setProjection (ast b) (Some (mkProjection projFields true)))
          (err b)
  end.

Definition Sort (b : Builder) (field : Field) (order : SortOrder) : Builder :=
  match err b with
  | Some _ => b
  | None =>
      if negb (isReadOperation b) then
        mkBuilder (ast b) (Some "Sort() can only be used with read operations")
      else
        mkBuilder
          (setSortClauses (ast b) (SortClauses (ast b) ++ [mkSortClause field order]))
          (err b)
  end.

Definition SortAsc (b : Builder) (field : Field) : Builder := Sort b field Ascending.
Definition SortDesc (b : Builder) (field : Field) : Builder := Sort b field Descending.

Definition Skip (b : Builder) (n : Z) : Builder :=
  match err b with
  | Some _ => b
  | None =>
      if negb (isReadOperation b) then
        mkBuilder (ast b) (Some "Skip() can only be used with read operations")
      else
        mkBuilder (setSkip (ast b) (Some (mkPaginationValue (Some n) None))) (err b)
  end.

Definition SkipParam (b : Builder) (p : Param) : Builder :=
  match err b with
  | Some _ => b
  | None =>
      if negb (isReadOperation b) then
        mkBuilder (ast b) (Some "SkipParam() can only be used with read operations")
      else
        mkBuilder (setSkip (ast b) (Some (mkPaginationValue None (Some p)))) (err b)
  end.

Definition Limit (b : Builder) (n : Z) : Builder :=
  match err b with
  | Some _ => b
  | None =>
      if negb (isReadOperation b) then
        mkBuilder (ast b) (Some "Limit() can only be used with read operations")
      else if n >? MaxLimit then
        mkBuilder (ast b)
          (Some ("limit exceeds maximum: " +:+ pretty n +:+ " > " +:+ pretty MaxLimit))
      else
        mkBuilder (setLimit (ast b) (Some (mkPaginationValue (Some n) None))) (err b)
  end.

Definition LimitParam (b : Builder) (p : Param) : Builder :=
  match err b with
  | Some _ => b
  | None =>
      if negb (isReadOperation b) then
        mkBuilder (ast b) (Some "LimitParam() can only be used with read operations")
      else
        mkBuilder (setLimit (ast b) (Some (mkPaginationValue None (Some p)))) (err b)
  end.

Definition Document_ (b : Builder) (doc : Document) : Builder :=
  match err b with
  | Some _ => b
  | None =>
      if negb (Operation_ (ast b) =? OpInsert)
         && negb (Operation_ (ast b) =? OpInsertMany) then
        mkBuilder (ast b) (Some "Document() can only be used with INSERT operations")
      else
        mkBuilder (setDocuments (ast b) (Documents (ast b) ++ [doc])) (err b)
  end.

Definition Documents_ (b : Builder) (docs : list Document) : Builder :=
  match err b with
  | Some _ => b
  | None =>
      if negb (Operation_ (ast b) =? OpInsertMany) then
        mkBuilder (ast b) (Some "Documents() can only be used with INSERT_MANY")
      else
        mkBuilder (setDocuments (ast b) (Documents (ast b) ++ docs)) (err b)
  end.

(** [Inc], [Mul], [Push], [Pull] and [AddToSet] are [Set] with another
    operator and another name in the error message.  A method whose Go name
    is taken here (a keyword, or a name of package [types]) carries a
    trailing underscore. *)
Definition updateWith (name : string) (op : UpdateOperator) (b : Builder)
    (field : Field) (value : Param) : Builder :=
  match err b with
  | Some _ => b
  | None =>
      if negb (isUpdateOperation b) then
        mkBuilder (ast b)
          (Some (name +:+ "() can only be used with UPDATE operations"))
      else addOrMergeUpdate b op field value
  end.

Definition Set_ (b : Builder) (field : Field) (value : Param) : Builder :=
  match err b with
  | Some _ => b
  | None =>
      if negb (isUpdateOperation b) then
        mkBuilder (ast b) (Some "Set() can only be used with UPDATE operations")
      else addOrMergeUpdate b types.Set_ field value
  end.

Definition Unset_ (b : Builder) (fields : list Field) : Builder :=
  match err b with
  | Some _ => b
  | None =>
      if negb (isUpdateOperation b) then
        mkBuilder (ast b) (Some "Unset() can only be used with UPDATE operations")
      else
        fold_left (fun b' f => addOrMergeUpdate b' Unset f (mkParam "")) fields b
  end.

Definition Inc_ := updateWith "Inc" Inc.
Definition Mul_ := updateWith "Mul" Mul.
Definition Push_ := updateWith "Push" Push.
Definition Pull_ := updateWith "Pull" Pull.
Definition AddToSet_ := updateWith "AddToSet" AddToSet.

Definition Upsert_ (b : Builder) : Builder :=
  match err b with
  | Some _ => b
  | None =>
      if negb (isUpdateOperation b) then
        mkBuilder (ast b) (Some "Upsert() can only be used with UPDATE operations")
      else mkBuilder (setUpsert (ast b) true) (err b)
  end.

(** [Match], [Project], [Group], [Lookup], [Unwind] and [Stage] append one
    stage each, under the same guard. *)
Definition Stage_ (name : string) (b : Builder) (stage : PipelineStage) : Builder :=
  match err b with
  | Some _ => b
  | None =>
      if negb (Operation_ (ast b) =? OpAggregate) then
        mkBuilder (ast b) (Some (name +:+ "() can only be used with AGGREGATE"))
      else mkBuilder (setPipeline (ast b) (Pipeline (ast b) ++ [stage])) (err b)
  end.

Definition Match (b : Builder) (filter : FilterItem) : Builder :=
  Stage_ "Match" b (MatchStage filter).

Definition Project (b : Builder) (proj : Projection) : Builder :=
  Stage_ "Project" b (ProjectStage proj ∅).

Definition Group (b : Builder) (id : Expression)
    (accumulators : gmap string Accumulator) : Builder :=
  Stage_ "Group" b (GroupStage id accumulators).

Definition Lookup (b : Builder) (from : string) (localField foreignField : Field)
    (as_ : string) : Builder :=
  Stage_ "Lookup" b (LookupStage from localField foreignField as_ [] ∅).

Definition Unwind (b : Builder) (path : Field) : Builder :=
  Stage_ "Unwind" b (UnwindStage path None false).

Definition Stage (b : Builder) (stage : PipelineStage) : Builder :=
  Stage_ "Stage" b stage.

Definition Build (b : Builder) : result DocumentAST :=
  match err b with
  | Some e => Err e
  | None =>
      match Validate (ast b) with
      | Some e => Err e
      | None => Ok (ast b)
      end
  end.

(** [Builder.Render]: [Build], then the renderer's [Render]. *)
Definition BuilderRender (o : MapOrder) (b : Builder) (renderer : Renderer)
    : result QueryResult :=
  match Build b with
  | Err e => Err e
  | Ok a => Render renderer o a
  end.

End docql.

(** * The render walk: state and errors

    Every renderer threads the pointer [params] to a string slice through
    its walk and stops at the first error.  [M S A] is such a walk over a
    state [S]. *)

Definition M (S A : Type) : Type := S -> result (A * S).

Definition ret {S A} (a : A) : M S A := fun st => Ok (a, st).

Definition bind {S A B} (m : M S A) (k : A -> M S B) : M S B :=
  fun st =>
    match m st with
    | Ok (a, st') => k a st'
    | Err e => Err e
    end.

Definition fail {S A} (msg : string) : M S A := fun _ => Err msg.

Notation "x <- m ;; k" := (bind m (fun x => k))
  (at level 100, m at next level, right associativity).
Notation "m ;;; k" := (bind m (fun _ => k))
  (at level 100, right associativity).

Section Loops.
Context {S A B : Type}.

Section Fold.
Variable body : B -> A -> M S B.

(** [for _, x := range l { acc = body(acc, x) }], stopping at an error. *)
Fixpoint foldM (l : list A) (acc : B) : M S B :=
  match l with
  | [] => ret acc
  | x :: l' => acc' <- body acc x ;; foldM l' acc'
  end.
End Fold.

Section Map.
Variable body : A -> M S B.

(** [for _, x := range l { out = append(out, body(x)) }]. *)
Fixpoint mapM (l : list A) : M S (list B) :=
  match l with
  | [] => ret []
  | x :: l' => y <- body x ;; ys <- mapM l' ;; ret (y :: ys)
  end.
End Map.
End Loops.

(** The walk state of the MongoDB, Firestore and CouchDB renderers: the
    parameter names collected so far, and the number of map loops run. *)
Record Walk : Type := mkWalk { params : list string; loops : nat }.

(** Appending [name] to the slice behind [params]. *)
Definition emit (name : string) : M Walk unit :=
  fun st => Ok (tt, mkWalk (params st ++ [name]) (loops st)).

(** [for k, v := range m]: the entries of [m] in the order of this loop. *)
Definition rangeMap `{Countable K} {V} (o : MapOrder) (m : gmap K V)
    : M Walk (list (K * V)) :=
  fun st =>
    Ok (range_order o (loops st) (map_to_list m),
        mkWalk (params st) (Datatypes.S (loops st))).

(** [fmt.Sprintf(":%s", name)]. *)
Definition placeholder (name : string) : string := ":" +:+ name.

(** A map literal with distinct constant keys. *)
Definition object (l : list (string * types.JValue)) : types.JValue :=
  types.JObj (list_to_map l).

(** The start of every walk: [var params []string]. *)
Definition start : Walk := mkWalk [] 0.

(** [query[key] = ...] for an optional skip or limit: the static integer
    when there is one, else the parameter's placeholder (and its name joins
    the parameters), else nothing. *)
Definition setPagination (key : string) (v : option types.PaginationValue)
    (query : gmap string types.JValue) : M Walk (gmap string types.JValue) :=
  match v with
  | None => ret query
  | Some pv =>
      match types.Static pv, types.Pagination_Param pv with
      | Some n, _ => ret (<[key := types.JInt n]> query)
      | None, Some p =>
          emit (types.Param_Name p) ;;;
          ret (<[key := types.JStr (placeholder (types.Param_Name p))]> query)
      | None, None => ret query
      end
  end.

(** [fmt]'s [%T] on a filter item. *)
Definition typeName (f : types.FilterItem) : string :=
  match f with
  | types.NilFilter => "<nil>"
  | types.FilterCondition _ _ _ => "types.FilterCondition"
  | types.FilterGroup _ _ => "types.FilterGroup"
  | types.RangeFilter _ _ _ _ _ => "types.RangeFilter"
  | types.RegexFilter _ _ _ => "types.RegexFilter"
  | types.TextSearchFilter _ _ _ _ => "types.TextSearchFilter"
  | types.GeoFilter _ _ _ _ _ _ => "types.GeoFilter"
  | types.ArrayFilter _ _ _ => "types.ArrayFilter"
  | types.ElemMatchFilter _ _ => "types.ElemMatchFilter"
  | types.ExistsFilter _ _ => "types.ExistsFilter"
  end.

(** The paths of the projection fields that are included. *)
Definition includedPaths (p : types.Projection) : list types.JValue :=
  map (fun f => types.JStr (types.Path (types.Projection_Field f)))
      (List.filter types.Include (types.Projection_Fields p)).

(** ["desc"] for [Descending], ["asc"] for any other order. *)
Definition direction (s : types.SortClause) : string :=
  if (types.Order s =? types.Descending)%Z then "desc" else "asc".

(** * Package pkg/mongodb *)

Module mongodb.
Import types.

(** [json.Marshal] has no error for a document made of maps, slices,
    strings, integers, booleans and nil, so [toResult] always returns a
    result; this holds for the [toResult] of every renderer. *)
Definition toResult (query : gmap string JValue) : M Walk QueryResult :=
  fun st => Ok (mkQueryResult (Marshal (JObj query)) (params st), st).

(** In the [ElemMatchFilter] case the entries of every rendered child are
    copied into [conditions]; the keys of one Go map are distinct, so the
    copy is the union that prefers the child's entries, whatever the order
    of that loop. *)
Fixpoint renderFilter (f : FilterItem) : M Walk JValue :=
  match f with
  | FilterCondition field operator value =>
      (if negb (Param_Name value =? "") then emit (Param_Name value) else ret tt) ;;;
      ret (JObj {[ Path field :=
                     JObj {[ operator := JStr (placeholder (Param_Name value)) ]} ]})
  | FilterGroup logic conditions =>
      rendered <- mapM renderFilter conditions ;;
      ret (JObj {[ logic := JArr rendered ]})
  | RangeFilter field min max minExclusive maxExclusive =>
      rangeFilter <-
        match min with
        | Some p =>
            emit (Param_Name p) ;;;
            ret (<[(if minExclusive then "$gt" else "$gte") :=
                     JStr (placeholder (Param_Name p))]> ∅)
        | None => ret ∅
        end ;;
      rangeFilter <-
        match max with
        | Some p =>
            emit (Param_Name p) ;;;
            ret (<[(if maxExclusive then "$lt" else "$lte") :=
                     JStr (placeholder (Param_Name p))]> rangeFilter)
        | None => ret rangeFilter
        end ;;
      ret (JObj {[ Path field := JObj rangeFilter ]})
  | RegexFilter field pattern options =>
      emit (Param_Name pattern) ;;;
      let regexFilter := {[ "$regex" := JStr (placeholder (Param_Name pattern)) ]} in
      regexFilter <-
        match options with
        | Some p =>
            emit (Param_Name p) ;;;
            ret (<["$options" := JStr (placeholder (Param_Name p))]> regexFilter)
        | None => ret regexFilter
        end ;;
      ret (JObj {[ Path field := JObj regexFilter ]})
  | ExistsFilter field exists_ =>
      ret (JObj {[ Path field := JObj {[ "$exists" := JBool exists_ ]} ]})
  | GeoFilter field operator center radius _ _ =>
      emit (Param_Name (Lon center)) ;;;
      emit (Param_Name (Lat center)) ;;;
      let geoQuery :=
        {[ "$geometry" :=
             object [ ("type", JStr "Point");
                      ("coordinates",
                       JArr [ JStr (placeholder (Param_Name (Lon center)));
                              JStr (placeholder (Param_Name (Lat center))) ]) ] ]} in
      geoQuery <-
        match radius with
        | Some p =>
            emit (Param_Name p) ;;;
            ret (<["$maxDistance" := JStr (placeholder (Param_Name p))]> geoQuery)
        | None => ret geoQuery
        end ;;
      ret (JObj {[ Path field := JObj {[ operator := JObj geoQuery ]} ]})
  | ArrayFilter field operator value =>
      emit (Param_Name value) ;;;
      ret (JObj {[ Path field :=
                     JObj {[ operator := JStr (placeholder (Param_Name value)) ]} ]})
  | ElemMatchFilter field conditions =>
      rendered <- mapM renderFilter conditions ;;
      let conditions :=
        fold_left
          (fun (acc : gmap string JValue) r =>
             match r with JObj m => m ∪ acc | _ => acc end)
          rendered ∅ in
      ret (JObj {[ Path field := JObj {[ "$elemMatch" := JObj conditions ]} ]})
  | TextSearchFilter search language caseSensitive diacriticSensitive =>
      emit (Param_Name search) ;;;
      let textQuery := {[ "$search" := JStr (placeholder (Param_Name search)) ]} in
      textQuery <-
        match language with
        | Some p =>
            emit (Param_Name p) ;;;
            ret (<["$language" := JStr (placeholder (Param_Name p))]> textQuery)
        | None => ret textQuery
        end ;;
      let textQuery :=
        if caseSensitive then <["$caseSensitive" := JBool true]> textQuery
        else textQuery in
      let textQuery :=
        if diacriticSensitive then <["$diacriticSensitive" := JBool true]> textQuery
        else textQuery in
      ret (JObj {[ "$text" := JObj textQuery ]})
  | NilFilter => fail "unsupported filter type: <nil>"
  end.

Definition renderProjection (p : Projection) : JValue :=
  JObj (fold_left
          (fun (proj : gmap string JValue) f =>
             <[Path (Projection_Field f) := JInt (if Include f then 1 else 0)]> proj)
          (Projection_Fields p) ∅).

Definition renderDocument (o : MapOrder) (doc : Document) : M Walk JValue :=
  entries <- rangeMap o (Document_Fields doc) ;;
  result <-
    foldM (fun (result : gmap string JValue) '(field, value) =>
             emit (Param_Name value) ;;;
             ret (<[Path field := JStr (placeholder (Param_Name value))]> result))
          entries ∅ ;;
  ret (JObj result).

Definition renderUpdateOps (o : MapOrder) (ops : list UpdateOperation)
    : M Walk JValue :=
  result <-
    foldM (fun (result : gmap string JValue) op =>
             entries <- rangeMap o (Fields op) ;;
             fields <-
               foldM (fun (fields : gmap string JValue) '(field, value) =>
                        if negb (Param_Name value =? "") then
                          emit (Param_Name value) ;;;
                          ret (<[Path field :=
                                   JStr (placeholder (Param_Name value))]> fields)
                        else ret (<[Path field := JStr ""]> fields))
                     entries ∅ ;;
             ret (<[Operator op := JObj fields]> result))
          ops ∅ ;;
  ret (JObj result).

Fixpoint renderExpression (expr : Expression) : M Walk JValue :=
  match expr with
  | NilExpression => ret JNull
  | FieldExpression field => ret (JStr ("$" +:+ Path field))
  | LiteralExpression value =>
      emit (Param_Name value) ;;;
      ret (JStr (placeholder (Param_Name value)))
  | OperatorExpression operator args =>
      args <- mapM renderExpression args ;;
      ret (JObj {[ operator := JArr args ]})
  | ConditionalExpression if_ then_ else_ =>
      i <- renderExpression if_ ;;
      t <- renderExpression then_ ;;
      e <- renderExpression else_ ;;
      ret (JObj {[ "$cond" := object [ ("if", i); ("then", t); ("else", e) ] ]})
  end.

(** [$limit] and [$skip] stages: an interface left unset marshals as null. *)
Definition renderStageValue (v : PaginationValue) : M Walk JValue :=
  match Static v, Pagination_Param v with
  | Some n, _ => ret (JInt n)
  | None, Some p => emit (Param_Name p) ;;; ret (JStr (placeholder (Param_Name p)))
  | None, None => ret JNull
  end.

Definition renderSort (sorts : list SortClause) : JValue :=
  JObj (fold_left
          (fun (sort : gmap string JValue) s =>
             <[Path (Sort_Field s) := JInt (Order s)]> sort)
          sorts ∅).

Definition renderPipelineStage (o : MapOrder) (stage : PipelineStage)
    : M Walk JValue :=
  match stage with
  | MatchStage filter =>
      filter <- renderFilter filter ;;
      ret (JObj {[ "$match" := filter ]})
  | ProjectStage projection _ =>
      ret (JObj {[ "$project" := renderProjection projection ]})
  | GroupStage id accumulators =>
      id <- renderExpression id ;;
      entries <- rangeMap o accumulators ;;
      group <-
        foldM (fun (group : gmap string JValue) '(name, acc) =>
                 e <- renderExpression (Expr acc) ;;
                 ret (<[name := JObj {[ Acc_Operator acc := e ]}]> group))
              entries {[ "_id" := id ]} ;;
      ret (JObj {[ "$group" := JObj group ]})
  | SortStage sorts =>
      ret (JObj {[ "$sort" := renderSort sorts ]})
  | LimitStage limit =>
      limit <- renderStageValue limit ;;
      ret (JObj {[ "$limit" := limit ]})
  | SkipStage skip =>
      skip <- renderStageValue skip ;;
      ret (JObj {[ "$skip" := skip ]})
  | UnwindStage path includeArrayIndex preserveNullAndEmptyArrays =>
      let unwind := {[ "path" := JStr ("$" +:+ Path path) ]} in
      let unwind :=
        match includeArrayIndex with
        | Some s => <["includeArrayIndex" := JStr s]> unwind
        | None => unwind
        end in
      let unwind :=
        if preserveNullAndEmptyArrays
        then <["preserveNullAndEmptyArrays" := JBool true]> unwind
        else unwind in
      ret (JObj {[ "$unwind" := JObj unwind ]})
  | LookupStage from localField foreignField as_ _ _ =>
      ret (JObj {[ "$lookup" :=
                     object [ ("from", JStr from);
                              ("localField", JStr (Path localField));
                              ("foreignField", JStr (Path foreignField));
                              ("as", JStr as_) ] ]})
  | AddFieldsStage fields =>
      entries <- rangeMap o fields ;;
      fields <-
        foldM (fun (fields : gmap string JValue) '(name, expr) =>
                 e <- renderExpression expr ;;
                 ret (<[name := e]> fields))
              entries ∅ ;;
      ret (JObj {[ "$addFields" := JObj fields ]})
  | CountStage fieldName =>
      ret (JObj {[ "$count" := JStr fieldName ]})
  | ReplaceRootStage _ => fail "unsupported pipeline stage: types.ReplaceRootStage"
  | FacetStage _ => fail "unsupported pipeline stage: types.FacetStage"
  | BucketStage _ _ _ _ => fail "unsupported pipeline stage: types.BucketStage"
  | NilStage => fail "unsupported pipeline stage: <nil>"
  end.

(** The two entries every query document starts with. *)
Definition header (ast : DocumentAST) : gmap string JValue :=
  <["operation" := JStr (Operation_ ast)]>
    (<["collection" := JStr (Name (Target ast))]> ∅).

(** [query["filter"]]: the rendered clause, or [orElse] when it is nil. *)
Definition setFilter (ast : DocumentAST) (orElse : option JValue)
    (query : gmap string JValue) : M Walk (gmap string JValue) :=
  if negb (isNil (FilterClause ast)) then
    filter <- renderFilter (FilterClause ast) ;;
    ret (<["filter" := filter]> query)
  else
    match orElse with
    | Some v => ret (<["filter" := v]> query)
    | None => ret query
    end.

Definition renderFind (ast : DocumentAST) : M Walk QueryResult :=
  query <- setFilter ast (Some (JObj ∅)) (header ast) ;;
  let query :=
    match Projection_ ast with
    | Some p => <["projection" := renderProjection p]> query
    | None => query
    end in
  let query :=
    if len (SortClauses ast) >? 0
    then <["sort" := renderSort (SortClauses ast)]> query
    else query in
  query <- setPagination "skip" (Skip ast) query ;;
  query <- setPagination "limit" (Limit ast) query ;;
  toResult query.

Definition renderInsert (o : MapOrder) (ast : DocumentAST) : M Walk QueryResult :=
  query <-
    match Documents ast with
    | doc :: _ =>
        doc <- renderDocument o doc ;;
        ret (<["document" := doc]> (header ast))
    | [] => ret (header ast)
    end ;;
  toResult query.

Definition renderInsertMany (o : MapOrder) (ast : DocumentAST)
    : M Walk QueryResult :=
  docs <- mapM (renderDocument o) (Documents ast) ;;
  toResult (<["documents" := JArr docs]> (header ast)).

Definition renderUpdate (o : MapOrder) (ast : DocumentAST) : M Walk QueryResult :=
  query <- setFilter ast (Some (JObj ∅)) (header ast) ;;
  update <- renderUpdateOps o (UpdateOps ast) ;;
  let query := <["update" := update]> query in
  let query := if Upsert ast then <["upsert" := JBool true]> query else query in
  toResult query.

Definition renderUpdateMany (o : MapOrder) (ast : DocumentAST)
    : M Walk QueryResult :=
  renderUpdate o ast.

Definition renderDelete (ast : DocumentAST) : M Walk QueryResult :=
  query <- setFilter ast (Some (JObj ∅)) (header ast) ;;
  toResult query.

Definition renderDeleteMany (ast : DocumentAST) : M Walk QueryResult :=
  renderDelete ast.

Definition renderAggregate (o : MapOrder) (ast : DocumentAST)
    : M Walk QueryResult :=
  pipeline <- mapM (renderPipelineStage o) (Pipeline ast) ;;
  toResult (<["pipeline" := JArr pipeline]> (header ast)).

Definition renderCount (ast : DocumentAST) : M Walk QueryResult :=
  query <- setFilter ast (Some (JObj ∅)) (header ast) ;;
  toResult query.

(** [Render] calls it after [Validate] has made sure that [DistinctField]
    is not nil; on a nil pointer the Go function panics. *)
Definition renderDistinct (ast : DocumentAST) : M Walk QueryResult :=
  match DistinctField ast with
  | None => fail "nil pointer dereference"
  | Some field =>
      query <- setFilter ast None (<["field" := JStr (Path field)]> (header ast)) ;;
      toResult query
  end.

(** The result of a walk from the empty parameter list. *)
Definition run {A} (m : M Walk A) : result A :=
  match m start with
  | Ok (a, _) => Ok a
  | Err e => Err e
  end.

Definition Render (o : MapOrder) (ast : DocumentAST) : result QueryResult :=
  match Validate ast with
  | Some e => Err ("invalid AST: " +:+ e)
  | None =>
      let op := Operation_ ast in
      if (op =? OpFind) || (op =? OpFindOne) then run (renderFind ast)
      else if op =? OpInsert then run (renderInsert o ast)
      else if op =? OpInsertMany then run (renderInsertMany o ast)
      else if op =? OpUpdate then run (renderUpdate o ast)
      else if op =? OpUpdateMany then run (renderUpdateMany o ast)
      else if op =? OpDelete then run (renderDelete ast)
      else if op =? OpDeleteMany then run (renderDeleteMany ast)
      else if op =? OpAggregate then run (renderAggregate o ast)
      else if op =? OpCount then run (renderCount ast)
      else if op =? OpDistinct then run (renderDistinct ast)
      else Err ("unsupported operation: " +:+ op)
  end.

Definition SupportsOperation (op : Operation) : bool := true.
Definition SupportsFilter (op : FilterOperator) : bool := true.
Definition SupportsUpdate (op : UpdateOperator) : bool := true.
Definition SupportsPipelineStage (stage : string) : bool := true.

Definition New : docql.Renderer :=
  docql.mkRenderer Render SupportsOperation SupportsFilter SupportsUpdate
    SupportsPipelineStage.

End mongodb.

(** * Package pkg/firestore *)

Module firestore.
Import types.

Definition toResult (query : gmap string JValue) : M Walk QueryResult :=
  fun st => Ok (mkQueryResult (Marshal (JObj query)) (params st), st).

Definition mapOperator (op : FilterOperator) : result string :=
  if op =? EQ then Ok "=="
  else if op =? NE then Ok "!="
  else if op =? GT then Ok ">"
  else if op =? GTE then Ok ">="
  else if op =? LT then Ok "<"
  else if op =? LTE then Ok "<="
  else if op =? IN then Ok "in"
  else if op =? NotIn then Ok "not-in"
  else if op =? All then Ok "array-contains"
  else Err ("firestore does not support filter operator: " +:+ op).

Definition where_ (field : Field) (op : string) (p : Param) : JValue :=
  object [ ("field", JStr (Path field)); ("operator", JStr op);
           ("value", JStr (placeholder (Param_Name p))) ].

(** The clauses appended to [wheres], in order. *)
Fixpoint buildWheres (f : FilterItem) : M Walk (list JValue) :=
  match f with
  | FilterCondition field operator value =>
      match mapOperator operator with
      | Err e => fail e
      | Ok op =>
          emit (Param_Name value) ;;;
          ret [where_ field op value]
      end
  | FilterGroup logic conditions =>
      if negb (logic =? AND) then
        fail "firestore only supports AND logic in compound queries"
      else
        childWheres <- mapM buildWheres conditions ;;
        ret (concat childWheres)
  | RangeFilter field min max minExclusive maxExclusive =>
      lower <-
        match min with
        | Some p =>
            emit (Param_Name p) ;;;
            ret [where_ field (if minExclusive then ">" else ">=") p]
        | None => ret []
        end ;;
      upper <-
        match max with
        | Some p =>
            emit (Param_Name p) ;;;
            ret [where_ field (if maxExclusive then "<" else "<=") p]
        | None => ret []
        end ;;
      ret (lower ++ upper)%list
  | _ => fail ("firestore does not support filter type: " +:+ typeName f)
  end.

(** [wheres] starts as a nil slice and stays nil until a clause is
    appended; a nil slice marshals as null. *)
Definition slice (l : list JValue) : JValue :=
  match l with
  | [] => JNull
  | _ => JArr l
  end.

Definition header (ast : DocumentAST) : gmap string JValue :=
  <["operation" := JStr (Operation_ ast)]>
    (<["collection" := JStr (Name (Target ast))]> ∅).

Definition renderQuery (ast : DocumentAST) : M Walk QueryResult :=
  query <-
    (if negb (isNil (FilterClause ast)) then
       wheres <- buildWheres (FilterClause ast) ;;
       ret (<["where" := slice wheres]> (header ast))
     else ret (header ast)) ;;
  let query :=
    if len (SortClauses ast) >? 0 then
      <["orderBy" :=
          JArr (map (fun s => object [ ("field", JStr (Path (Sort_Field s)));
                                       ("direction", JStr (direction s)) ])
                    (SortClauses ast))]> query
    else query in
  query <- setPagination "limit" (Limit ast) query ;;
  query <- setPagination "offset" (Skip ast) query ;;
  let query :=
    match Projection_ ast with
    | Some p =>
        if len (includedPaths p) >? 0
        then <["select" := JArr (includedPaths p)]> query
        else query
    | None => query
    end in
  toResult query.

Definition renderAdd (o : MapOrder) (ast : DocumentAST) : M Walk QueryResult :=
  query <-
    match Documents ast with
    | doc :: _ =>
        entries <- rangeMap o (Document_Fields doc) ;;
        data <-
          foldM (fun (data : gmap string JValue) '(field, value) =>
                   emit (Param_Name value) ;;;
                   ret (<[Path field := JStr (placeholder (Param_Name value))]> data))
                entries ∅ ;;
        ret (<["data" := JObj data]> (header ast))
    | [] => ret (header ast)
    end ;;
  toResult query.

Definition renderUpdate (o : MapOrder) (ast : DocumentAST) : M Walk QueryResult :=
  data <-
    foldM (fun (data : gmap string JValue) op =>
             if negb (Operator op =? Set_) && negb (Operator op =? Unset) then
               fail ("firestore does not support update operator: " +:+ Operator op)
             else
               entries <- rangeMap o (Fields op) ;;
               foldM (fun (data : gmap string JValue) '(field, value) =>
                        if Operator op =? Unset then
                          ret (<[Path field := JStr "FieldValue.delete()"]> data)
                        else
                          emit (Param_Name value) ;;;
                          ret (<[Path field :=
                                   JStr (placeholder (Param_Name value))]> data))
                     entries data)
          (UpdateOps ast) ∅ ;;
  toResult (<["data" := JObj data]> (header ast)).

Definition renderDelete (ast : DocumentAST) : M Walk QueryResult :=
  toResult (header ast).

Definition SupportsOperation (op : Operation) : bool :=
  (op =? OpFind) || (op =? OpFindOne) || (op =? OpInsert) || (op =? OpUpdate)
  || (op =? OpDelete).

Definition SupportsFilter (op : FilterOperator) : bool :=
  (op =? EQ) || (op =? NE) || (op =? GT) || (op =? GTE) || (op =? LT)
  || (op =? LTE) || (op =? IN) || (op =? NotIn) || (op =? All).

Definition SupportsUpdate (op : UpdateOperator) : bool :=
  (op =? Set_) || (op =? Unset).

Definition SupportsPipelineStage (stage : string) : bool := false.

Definition run {A} (m : M Walk A) : result A :=
  match m start with
  | Ok (a, _) => Ok a
  | Err e => Err e
  end.

Definition Render (o : MapOrder) (ast : DocumentAST) : result QueryResult :=
  match Validate ast with
  | Some e => Err ("invalid AST: " +:+ e)
  | None =>
      let op := Operation_ ast in
      if negb (SupportsOperation op) then
        Err ("firestore does not support operation: " +:+ op)
      else if (op =? OpFind) || (op =? OpFindOne) then run (renderQuery ast)
      else if op =? OpInsert then run (renderAdd o ast)
      else if op =? OpUpdate then run (renderUpdate o ast)
      else if op =? OpDelete then run (renderDelete ast)
      else Err ("unsupported operation: " +:+ op)
  end.

Definition New : docql.Renderer :=
  docql.mkRenderer Render SupportsOperation SupportsFilter SupportsUpdate
    SupportsPipelineStage.

End firestore.

(** * Package pkg/couchdb *)

Module couchdb.
Import types.

Definition toResult (query : gmap string JValue) : M Walk QueryResult :=
  fun st => Ok (mkQueryResult (Marshal (JObj query)) (params st), st).

(** The empty string stands for an operator CouchDB does not have. *)
Definition mapOperator (op : FilterOperator) : string :=
  if op =? EQ then "$eq"
  else if op =? NE then "$ne"
  else if op =? GT then "$gt"
  else if op =? GTE then "$gte"
  else if op =? LT then "$lt"
  else if op =? LTE then "$lte"
  else if op =? IN then "$in"
  else if op =? NotIn then "$nin"
  else if op =? Regex then "$regex"
  else if op =? Exists then "$exists"
  else "".

Definition mapLogic (op : LogicOperator) : string :=
  if op =? AND then "$and"
  else if op =? OR then "$or"
  else if op =? NOR then "$nor"
  else "$and".

Fixpoint buildSelector (f : FilterItem) : M Walk JValue :=
  match f with
  | FilterCondition field operator value =>
      emit (Param_Name value) ;;;
      let op := mapOperator operator in
      if op =? "" then
        fail ("CouchDB does not support filter operator: " +:+ operator)
      else
        ret (JObj {[ Path field :=
                       JObj {[ op := JStr (placeholder (Param_Name value)) ]} ]})
  | FilterGroup logic conditions =>
      rendered <- mapM buildSelector conditions ;;
      let logic := mapLogic logic in
      ret (JObj {[ logic := JArr rendered ]})
  | RangeFilter field min max minExclusive maxExclusive =>
      rangeSelector <-
        match min with
        | Some p =>
            emit (Param_Name p) ;;;
            ret (<[(if minExclusive then "$gt" else "$gte") :=
                     JStr (placeholder (Param_Name p))]> ∅)
        | None => ret ∅
        end ;;
      rangeSelector <-
        match max with
        | Some p =>
            emit (Param_Name p) ;;;
            ret (<[(if maxExclusive then "$lt" else "$lte") :=
                     JStr (placeholder (Param_Name p))]> rangeSelector)
        | None => ret rangeSelector
        end ;;
      ret (JObj {[ Path field := JObj rangeSelector ]})
  | RegexFilter field pattern _ =>
      emit (Param_Name pattern) ;;;
      ret (JObj {[ Path field :=
                     JObj {[ "$regex" := JStr (placeholder (Param_Name pattern)) ]} ]})
  | ExistsFilter field exists_ =>
      ret (JObj {[ Path field := JObj {[ "$exists" := JBool exists_ ]} ]})
  | _ => fail ("CouchDB does not support filter type: " +:+ typeName f)
  end.

(** [query["selector"]]: the rendered clause, or [orElse] when it is nil. *)
Definition setSelector (ast : DocumentAST) (orElse : option JValue)
    (query : gmap string JValue) : M Walk (gmap string JValue) :=
  if negb (isNil (FilterClause ast)) then
    selector <- buildSelector (FilterClause ast) ;;
    ret (<["selector" := selector]> query)
  else
    match orElse with
    | Some v => ret (<["selector" := v]> query)
    | None => ret query
    end.

Definition renderFind (ast : DocumentAST) : M Walk QueryResult :=
  query <- setSelector ast (Some (JObj ∅)) ∅ ;;
  let query :=
    match Projection_ ast with
    | Some p =>
        if len (includedPaths p) >? 0
        then <["fields" := JArr (includedPaths p)]> query
        else query
    | None => query
    end in
  let query :=
    if len (SortClauses ast) >? 0 then
      <["sort" :=
          JArr (map (fun s => JObj {[ Path (Sort_Field s) := JStr (direction s) ]})
                    (SortClauses ast))]> query
    else query in
  query <- setPagination "limit" (Limit ast) query ;;
  query <- setPagination "skip" (Skip ast) query ;;
  toResult query.

Definition renderInsert (o : MapOrder) (ast : DocumentAST) : M Walk QueryResult :=
  let query := {[ "operation" := JStr "insert" ]} in
  query <-
    match Documents ast with
    | d :: _ =>
        entries <- rangeMap o (Document_Fields d) ;;
        doc <-
          foldM (fun (doc : gmap string JValue) '(field, value) =>
                   emit (Param_Name value) ;;;
                   ret (<[Path field := JStr (placeholder (Param_Name value))]> doc))
                entries ∅ ;;
        ret (<["doc" := JObj doc]> query)
    | [] => ret query
    end ;;
  toResult query.

Definition renderUpdate (o : MapOrder) (ast : DocumentAST) : M Walk QueryResult :=
  query <- setSelector ast None {[ "operation" := JStr "update" ]} ;;
  updates <-
    foldM (fun (updates : gmap string JValue) op =>
             if negb (Operator op =? Set_) then
               fail "CouchDB only supports $set updates"
             else
               entries <- rangeMap o (Fields op) ;;
               foldM (fun (updates : gmap string JValue) '(field, value) =>
                        emit (Param_Name value) ;;;
                        ret (<[Path field :=
                                 JStr (placeholder (Param_Name value))]> updates))
                     entries updates)
          (UpdateOps ast) ∅ ;;
  toResult (<["updates" := JObj updates]> query).

Definition renderDelete (ast : DocumentAST) : M Walk QueryResult :=
  query <- setSelector ast None {[ "operation" := JStr "delete" ]} ;;
  toResult query.

Definition SupportsOperation (op : Operation) : bool :=
  (op =? OpFind) || (op =? OpFindOne) || (op =? OpInsert) || (op =? OpUpdate)
  || (op =? OpDelete).

Definition SupportsFilter (op : FilterOperator) : bool :=
  (op =? EQ) || (op =? NE) || (op =? GT) || (op =? GTE) || (op =? LT)
  || (op =? LTE) || (op =? IN) || (op =? NotIn) || (op =? Regex) || (op =? Exists).

Definition SupportsUpdate (op : UpdateOperator) : bool := op =? Set_.

Definition SupportsPipelineStage (stage : string) : bool := false.

Definition run {A} (m : M Walk A) : result A :=
  match m start with
  | Ok (a, _) => Ok a
  | Err e => Err e
  end.

Definition Render (o : MapOrder) (ast : DocumentAST) : result QueryResult :=
  match Validate ast with
  | Some e => Err ("invalid AST: " +:+ e)
  | None =>
      let op := Operation_ ast in
      if negb (SupportsOperation op) then
        Err ("CouchDB does not support operation: " +:+ op)
      else if (op =? OpFind) || (op =? OpFindOne) then run (renderFind ast)
      else if op =? OpInsert then run (renderInsert o ast)
      else if op =? OpUpdate then run (renderUpdate o ast)
      else if op =? OpDelete then run (renderDelete ast)
      else Err ("unsupported operation: " +:+ op)
  end.

Definition New : docql.Renderer :=
  docql.mkRenderer Render SupportsOperation SupportsFilter SupportsUpdate
    SupportsPipelineStage.

End couchdb.

(** * Package pkg/dynamodb *)

Module dynamodb.
Import types.

Record Renderer : Type := mkRenderer { PartitionKey : string; SortKey : string }.

Definition New : Renderer := mkRenderer "pk" "".

Definition WithPartitionKey (r : Renderer) (pk : string) : Renderer :=
  mkRenderer pk (SortKey r).

Definition WithSortKey (r : Renderer) (sk : string) : Renderer :=
  mkRenderer (PartitionKey r) sk.

(** The variables that the closures [getName] and [getValue] share with the
    function that declares them, next to the walk state. *)
Record Scope : Type := mkScope {
  walk : Walk;
  attrNames : gmap string string;
  attrValues : gmap string string;
  nameCounter : Z;
  valueCounter : Z
}.

Definition lift {A} (m : M Walk A) : M Scope A :=
  fun st =>
    match m (walk st) with
    | Ok (a, w) =>
        Ok (a, mkScope w (attrNames st) (attrValues st) (nameCounter st)
                 (valueCounter st))
    | Err e => Err e
    end.

Definition getName (field : string) : M Scope string :=
  fun st =>
    let key := "#n" +:+ pretty (nameCounter st) in
    Ok (key, mkScope (walk st) (<[key := field]> (attrNames st)) (attrValues st)
               (nameCounter st + 1) (valueCounter st)).

Definition getValue (param : string) : M Scope string :=
  fun st =>
    let key := ":v" +:+ pretty (valueCounter st) in
    Ok (key,
        mkScope (mkWalk (params (walk st) ++ [param]) (loops (walk st)))
          (attrNames st) (<[key := placeholder param]> (attrValues st))
          (nameCounter st) (valueCounter st + 1)).

(** The empty string stands for an operator DynamoDB does not have. *)
Definition mapOperator (op : FilterOperator) : string :=
  if op =? EQ then "="
  else if op =? NE then "<>"
  else if op =? GT then ">"
  else if op =? GTE then ">="
  else if op =? LT then "<"
  else if op =? LTE then "<="
  else "".

(** [result = exprs[0]], then [result + " " + logic + " " + exprs[i]]. *)
Definition joinWith (logic : string) (exprs : list string) : string :=
  match exprs with
  | [] => ""
  | first :: rest =>
      fold_left (fun result e => result +:+ " " +:+ logic +:+ " " +:+ e) rest first
  end.

Fixpoint buildFilterExpression (f : FilterItem) : M Scope string :=
  match f with
  | FilterCondition field operator value =>
      nameKey <- getName (Path field) ;;
      valueKey <- getValue (Param_Name value) ;;
      let op := mapOperator operator in
      if op =? "" then
        fail ("DynamoDB does not support filter operator: " +:+ operator)
      else ret (nameKey +:+ " " +:+ op +:+ " " +:+ valueKey)
  | FilterGroup logic conditions =>
      if (len conditions =? 0)%Z then ret ""
      else
        rendered <- mapM buildFilterExpression conditions ;;
        let exprs := map (fun expr => "(" +:+ expr +:+ ")") rendered in
        let logic := if logic =? OR then "OR" else "AND" in
        ret (joinWith logic exprs)
  | ExistsFilter field exists_ =>
      nameKey <- getName (Path field) ;;
      if exists_ then ret ("attribute_exists(" +:+ nameKey +:+ ")")
      else ret ("attribute_not_exists(" +:+ nameKey +:+ ")")
  | _ => fail ("DynamoDB does not support filter type: " +:+ typeName f)
  end.

(** [attrNames] and [attrValues] are stored in [query] as soon as they are
    not empty, and a Go map is shared, not copied: [json.Marshal] sees the
    entries they hold at the end of the walk.  [hasNames] and [hasValues]
    record whether they were stored. *)
Definition toResult (hasNames hasValues : bool) (query : gmap string JValue)
    : M Scope QueryResult :=
  fun st =>
    let query :=
      if hasNames
      then <["ExpressionAttributeNames" := JObj (JStr <$> attrNames st)]> query
      else query in
    let query :=
      if hasValues
      then <["ExpressionAttributeValues" := JObj (JStr <$> attrValues st)]> query
      else query in
    Ok (mkQueryResult (Marshal (JObj query)) (params (walk st)), st).

Definition nonEmpty (m : Scope -> gmap string string) : M Scope bool :=
  fun st => Ok (Z.of_nat (size (m st)) >? 0, st).

(** The loop over [Projection.Fields]; [i] is the index of the field. *)
Fixpoint projectionExpression (i : Z) (fields : list ProjectionField)
    (projExpr : string) : M Scope string :=
  match fields with
  | [] => ret projExpr
  | f :: fields' =>
      projExpr <-
        (if Include f then
           let projExpr := if i >? 0 then projExpr +:+ ", " else projExpr in
           name <- getName (Path (Projection_Field f)) ;;
           ret (projExpr +:+ name)
         else ret projExpr) ;;
      projectionExpression (i + 1) fields' projExpr
  end.

Definition renderQuery (ast : DocumentAST) : M Scope QueryResult :=
  let query := {[ "TableName" := JStr (Name (Target ast)) ]} in
  query <-
    (if negb (isNil (FilterClause ast)) then
       expr <- buildFilterExpression (FilterClause ast) ;;
       ret (<["FilterExpression" := JStr expr]> query)
     else ret query) ;;
  hasNames <- nonEmpty attrNames ;;
  hasValues <- nonEmpty attrValues ;;
  query <- lift (setPagination "Limit" (Limit ast) query) ;;
  projExpr <-
    match Projection_ ast with
    | Some p => projectionExpression 0 (Projection_Fields p) ""
    | None => ret ""
    end ;;
  let query :=
    if negb (projExpr =? "") then <["ProjectionExpression" := JStr projExpr]> query
    else query in
  toResult hasNames hasValues query.

Definition renderPutItem (o : MapOrder) (ast : DocumentAST) : M Scope QueryResult :=
  let query := {[ "TableName" := JStr (Name (Target ast)) ]} in
  query <-
    match Documents ast with
    | doc :: _ =>
        entries <- lift (rangeMap o (Document_Fields doc)) ;;
        item <-
          foldM (fun (item : gmap string JValue) '(field, value) =>
                   lift (emit (Param_Name value)) ;;;
                   ret (<[Path field := JStr (placeholder (Param_Name value))]> item))
                entries ∅ ;;
        ret (<["Item" := JObj item]> query)
    | [] => ret query
    end ;;
  toResult false false query.

(** The loops that put [", "] before every expression but the first. *)
Definition commaJoin (exprs : list string) : string := String.concat ", " exprs.

Definition renderUpdateItem (o : MapOrder) (ast : DocumentAST)
    : M Scope QueryResult :=
  let query := {[ "TableName" := JStr (Name (Target ast)) ]} in
  exprs <-
    foldM (fun '(setExprs, removeExprs) op =>
             if (Operator op =? Set_) || (Operator op =? Inc) then
               entries <- lift (rangeMap o (Fields op)) ;;
               setExprs <-
                 foldM (fun (setExprs : list string) '(field, value) =>
                          nameKey <- getName (Path field) ;;
                          valueKey <- getValue (Param_Name value) ;;
                          if Operator op =? Inc then
                            ret (setExprs ++ [nameKey +:+ " = " +:+ nameKey +:+ " + "
                                              +:+ valueKey])%list
                          else
                            ret (setExprs ++ [nameKey +:+ " = " +:+ valueKey])%list)
                       entries setExprs ;;
               ret (setExprs, removeExprs)
             else if Operator op =? Unset then
               entries <- lift (rangeMap o (Fields op)) ;;
               removeExprs <-
                 foldM (fun (removeExprs : list string) '(field, _) =>
                          nameKey <- getName (Path field) ;;
                          ret (removeExprs ++ [nameKey])%list)
                       entries removeExprs ;;
               ret (setExprs, removeExprs)
             else
               fail ("DynamoDB does not support update operator: " +:+ Operator op))
          (UpdateOps ast) ([], []) ;;
  let '(setExprs, removeExprs) := exprs in
  let updateExpr :=
    if len setExprs >? 0 then "SET " +:+ commaJoin setExprs else "" in
  let updateExpr :=
    if len removeExprs >? 0 then
      (if negb (updateExpr =? "") then updateExpr +:+ " " else updateExpr)
      +:+ "REMOVE " +:+ commaJoin removeExprs
    else updateExpr in
  let query := <["UpdateExpression" := JStr updateExpr]> query in
  hasNames <- nonEmpty attrNames ;;
  hasValues <- nonEmpty attrValues ;;
  toResult hasNames hasValues query.

Definition renderDeleteItem (ast : DocumentAST) : M Scope QueryResult :=
  toResult false false {[ "TableName" := JStr (Name (Target ast)) ]}.

Definition SupportsOperation (op : Operation) : bool :=
  (op =? OpFind) || (op =? OpFindOne) || (op =? OpInsert) || (op =? OpUpdate)
  || (op =? OpDelete).

Definition SupportsFilter (op : FilterOperator) : bool :=
  (op =? EQ) || (op =? NE) || (op =? GT) || (op =? GTE) || (op =? LT)
  || (op =? LTE) || (op =? Exists).

Definition SupportsUpdate (op : UpdateOperator) : bool :=
  (op =? Set_) || (op =? Unset) || (op =? Inc).

Definition SupportsPipelineStage (stage : string) : bool := false.

(** The scope at the start of a render function. *)
Definition fresh : Scope := mkScope start ∅ ∅ 0 0.

Definition run {A} (m : M Scope A) : result A :=
  match m fresh with
  | Ok (a, _) => Ok a
  | Err e => Err e
  end.

Definition Render (r : Renderer) (o : MapOrder) (ast : DocumentAST)
    : result QueryResult :=
  match Validate ast with
  | Some e => Err ("invalid AST: " +:+ e)
  | None =>
      let op := Operation_ ast in
      if negb (SupportsOperation op) then
        Err ("DynamoDB does not support operation: " +:+ op)
      else if (op =? OpFind) || (op =? OpFindOne) then run (renderQuery ast)
      else if op =? OpInsert then run (renderPutItem o ast)
      else if op =? OpUpdate then run (renderUpdateItem o ast)
      else if op =? OpDelete then run (renderDeleteItem ast)
      else Err ("unsupported operation: " +:+ op)
  end.

(** A [*Renderer] as a [docql.Renderer]. *)
Definition renderer (r : Renderer) : docql.Renderer :=
  docql.mkRenderer (Render r) SupportsOperation SupportsFilter SupportsUpdate
    SupportsPipelineStage.

End dynamodb.

(** * Vocabulary of the properties *)

Import types.

(** The renderers the repository provides: one per package, the DynamoDB
    one with any key names. *)
Inductive provided : docql.Renderer -> Prop :=
  | provided_mongodb : provided mongodb.New
  | provided_dynamodb (r : dynamodb.Renderer) : provided (dynamodb.renderer r)
  | provided_firestore : provided firestore.New
  | provided_couchdb : provided couchdb.New.

(** ASCII white space: tab, line feed, vertical tab, form feed, carriage
    return and space. *)
Definition isSpace (c : ascii) : bool :=
  existsb (N.eqb (docql.code c)) [9; 10; 11; 12; 13; 32]%N.

(** The quote characters: single, double and back quote. *)
Definition isQuote (c : ascii) : bool :=
  existsb (N.eqb (docql.code c)) [39; 34; 96]%N.

Definition semicolon : ascii := ";"%char.

(** The bytes of a string. *)
Definition bytes (s : string) : list ascii := list_ascii_of_string s.

(** The logic operators that package [types] declares. *)
Definition recognizedLogic : list LogicOperator := [AND; OR; NOR; NOT].

(** A map with at most one entry: every [range] over it visits the same
    sequence. *)
Definition single `{Countable K} {V} (m : gmap K V) : Prop := (size m <= 1)%nat.

Definition singleStage (s : PipelineStage) : Prop :=
  match s with
  | GroupStage _ accumulators => single accumulators
  | AddFieldsStage fields => single fields
  | _ => True
  end.

(** No map that a renderer ranges over holds two entries. *)
Definition singleEntryMaps (a : DocumentAST) : Prop :=
  Forall (fun d => single (Document_Fields d)) (Documents a) /\
  Forall (fun u => single (Fields u)) (UpdateOps a) /\
  Forall singleStage (Pipeline a).

(** What a walk does to the parameter list, whatever the state it starts
    from: it fails with one error, or it appends some arrangement of one
    list of names and ends with a value and a state that satisfy [P]. *)
Definition outcome : Type := result (list string).

Definition yields {S A : Type} (ps : S -> list string) (P : A -> S -> Prop)
    (m : M S A) (r : outcome) : Prop :=
  match r with
  | Ok canon =>
      forall st, exists a st' ns,
        m st = Ok (a, st') /\ ps st' = ps st ++ ns /\ Permutation ns canon /\ P a st'
  | Err e => forall st, m st = Err e
  end.

Definition any {A S : Type} (a : A) (st : S) : Prop := True.

(** The result carries the parameters of the state it was made in. *)
Definition carries {S : Type} (ps : S -> list string) (q : QueryResult) (st : S)
    : Prop :=
  RequiredParams q = ps st.

(** One walk after another: the first error, or both lists of names. *)
Definition andThen (r1 r2 : outcome) : outcome :=
  match r1, r2 with
  | Err e, _ => Err e
  | Ok _, Err e => Err e
  | Ok l1, Ok l2 => Ok (l1 ++ l2)
  end.

Fixpoint inTurn (rs : list outcome) : outcome :=
  match rs with
  | [] => Ok []
  | r :: rs' => andThen r (inTurn rs')
  end.

(** A render result against an outcome: the same error, or the names of
    the outcome in some arrangement. *)
Definition conforms (res : result QueryResult) (r : outcome) : Prop :=
  match r, res with
  | Ok canon, Ok q => Permutation (RequiredParams q) canon
  | Err e, Err e' => e' = e
  | _, _ => False
  end.

(** Two render results that differ at most in the order of the names. *)
Definition sameUpToOrder (r1 r2 : result QueryResult) : Prop :=
  match r1, r2 with
  | Ok q1, Ok q2 => Permutation (RequiredParams q1) (RequiredParams q2)
  | Err e1, Err e2 => e1 = e2
  | _, _ => False
  end.

(** The parameter list of a DynamoDB scope. *)
Definition scopeParams (st : dynamodb.Scope) : list string :=
  params (dynamodb.walk st).

(** The names that rendering an expression appends, in order. *)
Fixpoint exprNames (e : Expression) : list string :=
  match e with
  | NilExpression => []
  | FieldExpression _ => []
  | LiteralExpression value => [Param_Name value]
  | OperatorExpression _ args => flat_map exprNames args
  | ConditionalExpression i t e => exprNames i ++ exprNames t ++ exprNames e
  end.

(** Example values. *)
Definition users : Collection := mkCollection "users".
Definition fStatus : Field := mkField "status" "users".
Definition fEmail : Field := mkField "email" "users".
Definition fName : Field := mkField "name" "users".
Definition fAge : Field := mkField "age" "users".
Definition statusIs : FilterItem := FilterCondition fStatus EQ (mkParam "status").
Definition ageOver : FilterItem := FilterCondition fAge GT (mkParam "minAge").
Definition emailIs : FilterItem := FilterCondition fEmail EQ (mkParam "email").

(** [UpdateMany(users).Filter(statusIs)], and the same with one [Set]. *)
Definition updateManyFiltered : docql.Builder :=
  docql.Filter (docql.UpdateMany users) statusIs.
Definition updateManySet : docql.Builder :=
  docql.Set_ updateManyFiltered fStatus (mkParam "newStatus").

(** [Find(users).Filter(statusIs)]. *)
Definition findFiltered : docql.Builder := docql.Filter (docql.Find users) statusIs.

(** [Update(users).Set(age, newAge)]. *)
Definition updateAge : docql.Builder :=
  docql.Set_ (docql.Update users) fAge (mkParam "newAge").

(** A document with one field, and one with two. *)
Definition oneField : Document := mkDocument {[ fEmail := mkParam "email" ]}.
Definition twoFields : Document :=
  mkDocument (<[fEmail := mkParam "email"]> {[ fName := mkParam "name" ]}).

(** [Insert(c).Document(oneField)] for the collection without a name, which
    a failed [TryC] returns, and for [users]. *)
Definition insertUnnamed : docql.Builder :=
  docql.Document_ (docql.Insert (mkCollection "")) oneField.
Definition insertOne : docql.Builder :=
  docql.Document_ (docql.Insert users) oneField.
Definition insertTwo : docql.Builder :=
  docql.Document_ (docql.Insert users) twoFields.

(** A group with a logic value that package [types] does not declare. *)
Definition xorGroup : FilterItem := FilterGroup "$xor" [].

(** ** Rendering under two orders *)

(** No path is bound to two parameter names: keys of a field map with the
    same path carry the same parameter name, as they do when the paths of
    the keys are pairwise distinct. *)
Definition onePerPath (m : gmap Field Param) : Prop :=
  forall f1 f2 p1 p2,
    m !! f1 = Some p1 -> m !! f2 = Some p2 ->
    Path f1 = Path f2 -> Param_Name p1 = Param_Name p2.

(** Every entry of a field map carries the same parameter name, as in a map
    with at most one entry. *)
Definition oneName (m : gmap Field Param) : Prop :=
  forall f1 f2 p1 p2,
    m !! f1 = Some p1 -> m !! f2 = Some p2 -> Param_Name p1 = Param_Name p2.

(** Every accumulator of a group stage, and every field of an add-fields
    stage, carries the same parameter names. *)
Definition oneNameStage (s : PipelineStage) : Prop :=
  match s with
  | GroupStage _ accumulators =>
      forall n1 n2 a1 a2,
        accumulators !! n1 = Some a1 -> accumulators !! n2 = Some a2 ->
        exprNames (Expr a1) = exprNames (Expr a2)
  | AddFieldsStage fields =>
      forall n1 n2 e1 e2,
        fields !! n1 = Some e1 -> fields !! n2 = Some e2 ->
        exprNames e1 = exprNames e2
  | _ => True
  end.

(** The field maps of the documents and of the update operations bind no
    path twice. *)
Definition pathsAgree (a : DocumentAST) : Prop :=
  Forall (fun d => onePerPath (Document_Fields d)) (Documents a) /\
  Forall (fun u => onePerPath (Fields u)) (UpdateOps a).

(** Every map that a renderer ranges over carries one parameter name. *)
Definition namesAgree (a : DocumentAST) : Prop :=
  Forall (fun d => oneName (Document_Fields d)) (Documents a) /\
  Forall (fun u => oneName (Fields u)) (UpdateOps a) /\
  Forall oneNameStage (Pipeline a).

(** When the JSON text of a renderer does not depend on the order of the
    map loops.  MongoDB, Firestore and CouchDB copy the entries of a field
    map into a JSON object, so it is enough that no path is bound twice.
    DynamoDB does the same with a document, but it numbers the placeholders
    of an update expression in the order in which the entries are visited:
    there the field map of every update operation has at most one entry. *)
Inductive orderFreeJSON : docql.Renderer -> DocumentAST -> Prop :=
  | orderFree_mongodb (a : DocumentAST) :
      pathsAgree a -> orderFreeJSON mongodb.New a
  | orderFree_firestore (a : DocumentAST) :
      pathsAgree a -> orderFreeJSON firestore.New a
  | orderFree_couchdb (a : DocumentAST) :
      pathsAgree a -> orderFreeJSON couchdb.New a
  | orderFree_dynamodb (d : dynamodb.Renderer) (a : DocumentAST) :
      Forall (fun doc => onePerPath (Document_Fields doc)) (Documents a) ->
      Forall (fun u => single (Fields u)) (UpdateOps a) ->
      orderFreeJSON (dynamodb.renderer d) a.

(** Two render results with the same JSON text, or the same error. *)
Definition sameJSON (r1 r2 : result QueryResult) : Prop :=
  match r1, r2 with
  | Ok q1, Ok q2 => JSON q1 = JSON q2
  | Err e1, Err e2 => e1 = e2
  | _, _ => False
  end.

(** Two render results with the same names in the same order, or the same
    error. *)
Definition sameParams (r1 r2 : result QueryResult) : Prop :=
  match r1, r2 with
  | Ok q1, Ok q2 => RequiredParams q1 = RequiredParams q2
  | Err e1, Err e2 => e1 = e2
  | _, _ => False
  end.

(** Two walks side by side: from states related by [RS] both fail with one
    error, or both end with values related by [RA] and states related by
    [RS]. *)
Definition alike {S A : Type} (RS : S -> S -> Prop) (RA : A -> A -> Prop)
    (m1 m2 : M S A) : Prop :=
  forall st1 st2, RS st1 st2 ->
    match m1 st1, m2 st2 with
    | Ok (a1, st1'), Ok (a2, st2') => RA a1 a2 /\ RS st1' st2'
    | Err e1, Err e2 => e1 = e2
    | _, _ => False
    end.

(** What is compared of two walks: the values when [J] holds, the
    parameter lists when [P] holds. *)
Definition sameIf {A : Type} (J : Prop) (a1 a2 : A) : Prop := J -> a1 = a2.

Definition walksAlike (P : Prop) (st1 st2 : Walk) : Prop :=
  P -> params st1 = params st2.

Definition scopesAlike (J P : Prop) (st1 st2 : dynamodb.Scope) : Prop :=
  (J -> dynamodb.attrNames st1 = dynamodb.attrNames st2 /\
        dynamodb.attrValues st1 = dynamodb.attrValues st2 /\
        dynamodb.nameCounter st1 = dynamodb.nameCounter st2 /\
        dynamodb.valueCounter st1 = dynamodb.valueCounter st2) /\
  (P -> scopeParams st1 = scopeParams st2).

Definition resultsAlike (J P : Prop) (q1 q2 : QueryResult) : Prop :=
  (J -> JSON q1 = JSON q2) /\ (P -> RequiredParams q1 = RequiredParams q2).

Definition rendersAlike (J P : Prop) (r1 r2 : result QueryResult) : Prop :=
  match r1, r2 with
  | Ok q1, Ok q2 => resultsAlike J P q1 q2
  | Err e1, Err e2 => e1 = e2
  | _, _ => False
  end.

(** Two lists that hold the entries of one map. *)
Definition entriesOf {E : Type} (entries l1 l2 : list E) : Prop :=
  Permutation l1 entries /\ Permutation l2 entries.

(** The walk state after [names] were appended. *)
Definition more (st : Walk) (names : list string) : Walk :=
  mkWalk (params st ++ names) (loops st).

Definition moreScope (st : dynamodb.Scope) (names : list string) : dynamodb.Scope :=
  dynamodb.mkScope (more (dynamodb.walk st) names) (dynamodb.attrNames st)
    (dynamodb.attrValues st) (dynamodb.nameCounter st) (dynamodb.valueCounter st).

(** The value that the MongoDB renderer makes of an expression. *)
Fixpoint exprValue (e : Expression) : JValue :=
  match e with
  | NilExpression => JNull
  | FieldExpression field => JStr ("$" +:+ Path field)
  | LiteralExpression value => JStr (placeholder (Param_Name value))
  | OperatorExpression operator args =>
      JObj {[ operator := JArr (map exprValue args) ]}
  | ConditionalExpression i t e =>
      JObj {[ "$cond" := object [ ("if", exprValue i); ("then", exprValue t);
                                  ("else", exprValue e) ] ]}
  end.

(** More example values: a field [name] of another collection, an update
    that sets two fields, and one that sets both to one parameter. *)
Definition fOrderName : Field := mkField "name" "orders".
Definition twoNames : Document :=
  mkDocument (<[fName := mkParam "name"]> {[ fOrderName := mkParam "orderName" ]}).
Definition insertTwoNames : docql.Builder :=
  docql.Document_ (docql.Insert users) twoNames.
Definition updateTwo : docql.Builder :=
  docql.Set_ (docql.Set_ (docql.Update users) fEmail (mkParam "email"))
    fName (mkParam "name").
Definition updateTwoAlike : docql.Builder :=
  docql.Set_ (docql.Set_ (docql.Update users) fEmail (mkParam "now"))
    fName (mkParam "now").

(** The document that DynamoDB makes of [updateTwo] when the field of path
    [first] is visited before the one of path [second], and the document
    that MongoDB makes of [insertTwoNames] when the field bound to the
    parameter [last] is visited last. *)
Definition updateTwoJSON (first second : string) : JValue :=
  object [ ("TableName", JStr "users");
           ("UpdateExpression", JStr "SET #n0 = :v0, #n1 = :v1");
           ("ExpressionAttributeNames",
            object [ ("#n0", JStr first); ("#n1", JStr second) ]);
           ("ExpressionAttributeValues",
            object [ (":v0", JStr (placeholder first));
                     (":v1", JStr (placeholder second)) ]) ].
Definition insertTwoNamesJSON (last : string) : JValue :=
  object [ ("operation", JStr "INSERT");
           ("collection", JStr "users");
           ("document", object [ ("name", JStr (placeholder last)) ]) ].

(** The path under which [indexFields] stores a field below [prefix]. *)
Definition pathOf (prefix : string) (f : ddml.Field) : string :=
  if negb (prefix =? "") then prefix +:+ "." +:+ ddml.Name f else ddml.Name f.

(** A schema with the collection [users]: a required [email], and an
    object [address] with the sub-field [city]. *)
Definition objectType : ddml.FieldType := "object".
Definition arrayType : ddml.FieldType := "array".
Definition cityField : ddml.Field := ddml.mkField "city" "string" false [] None.
Definition addressField : ddml.Field :=
  ddml.mkField "address" objectType false [cityField] None.
Definition emailField : ddml.Field := ddml.mkField "email" "string" true [] None.
Definition usersCollection : ddml.Collection :=
  ddml.mkCollection [emailField; addressField].
Definition usersSchema : ddml.Schema :=
  ddml.mkSchema {[ "users" := usersCollection ]} ∅.

(** The instance of that schema. *)
Definition usersInstance : docql.DOCQL :=
  docql.mkDOCQL usersSchema (ddml.Collections usersSchema)
    ((fun coll => docql.indexFields objectType arrayType ""
                    (ddml.Collection_Fields coll) ∅)
       <$> ddml.Collections usersSchema)
    (ddml.Enums usersSchema).

(** The nesting of a filter: the number of groups and element matches
    around its innermost item. *)
Fixpoint height (f : FilterItem) : Z :=
  match f with
  | FilterGroup _ conditions =>
      fold_right (fun c h => Z.max (1 + height c) h) 0 conditions
  | ElemMatchFilter _ conditions =>
      fold_right (fun c h => Z.max (1 + height c) h) 0 conditions
  | _ => 0
  end.

(** One call of a builder method, with its arguments. *)
Inductive Call : Type :=
  | CallFilter (f : FilterItem)
  | CallWhere (f : FilterItem)
  | CallSelect (fields : list Field)
  | CallExclude (fields : list Field)
  | CallSort (field : Field) (order : SortOrder)
  | CallSortAsc (field : Field)
  | CallSortDesc (field : Field)
  | CallSkip (n : Z)
  | CallSkipParam (p : Param)
  | CallLimit (n : Z)
  | CallLimitParam (p : Param)
  | CallDocument (doc : Document)
  | CallDocuments (docs : list Document)
  | CallSet (field : Field) (value : Param)
  | CallUnset (fields : list Field)
  | CallInc (field : Field) (value : Param)
  | CallMul (field : Field) (value : Param)
  | CallPush (field : Field) (value : Param)
  | CallPull (field : Field) (value : Param)
  | CallAddToSet (field : Field) (value : Param)
  | CallUpsert
  | CallMatch (filter : FilterItem)
  | CallProject (proj : Projection)
  | CallGroup (id : Expression) (accumulators : gmap string Accumulator)
  | CallLookup (from : string) (localField foreignField : Field) (as_ : string)
  | CallUnwind (path : Field)
  | CallStage (stage : PipelineStage).

(** The builder after one call, and after a chain of calls. *)
Definition call (b : docql.Builder) (c : Call) : docql.Builder :=
  match c with
  | CallFilter f => docql.Filter b f
  | CallWhere f => docql.Where b f
  | CallSelect fields => docql.Select b fields
  | CallExclude fields => docql.Exclude b fields
  | CallSort field order => docql.Sort b field order
  | CallSortAsc field => docql.SortAsc b field
  | CallSortDesc field => docql.SortDesc b field
  | CallSkip n => docql.Skip b n
  | CallSkipParam p => docql.SkipParam b p
  | CallLimit n => docql.Limit b n
  | CallLimitParam p => docql.LimitParam b p
  | CallDocument doc => docql.Document_ b doc
  | CallDocuments docs => docql.Documents_ b docs
  | CallSet field value => docql.Set_ b field value
  | CallUnset fields => docql.Unset_ b fields
  | CallInc field value => docql.Inc_ b field value
  | CallMul field value => docql.Mul_ b field value
  | CallPush field value => docql.Push_ b field value
  | CallPull field value => docql.Pull_ b field value
  | CallAddToSet field value => docql.AddToSet_ b field value
  | CallUpsert => docql.Upsert_ b
  | CallMatch filter => docql.Match b filter
  | CallProject proj => docql.Project b proj
  | CallGroup id accumulators => docql.Group b id accumulators
  | CallLookup from localField foreignField as_ =>
      docql.Lookup b from localField foreignField as_
  | CallUnwind path => docql.Unwind b path
  | CallStage stage => docql.Stage b stage
  end.

Definition chain (b : docql.Builder) (cs : list Call) : docql.Builder :=
  fold_left call cs b.

(** The calls that set a projection, a sort order, a skip or a limit. *)
Definition shapesResult (c : Call) : bool :=
  match c with
  | CallSelect _ | CallExclude _ | CallSort _ _ | CallSortAsc _ | CallSortDesc _
  | CallSkip _ | CallSkipParam _ | CallLimit _ | CallLimitParam _ => true
  | _ => false
  end.

(** The operations on which the guard of a call lets it through; [Limit]
    also wants its number within [MaxLimit]. *)
Definition accepts (op : Operation) (c : Call) : bool :=
  match c with
  | CallFilter _ | CallWhere _ => true
  | CallSelect _ | CallExclude _ | CallSort _ _ | CallSortAsc _ | CallSortDesc _
  | CallSkip _ | CallSkipParam _ | CallLimitParam _ =>
      existsb (String.eqb op) [OpFind; OpFindOne; OpAggregate; OpCount; OpDistinct]
  | CallLimit n =>
      existsb (String.eqb op) [OpFind; OpFindOne; OpAggregate; OpCount; OpDistinct]
      && (n <=? MaxLimit)%Z
  | CallDocument _ => existsb (String.eqb op) [OpInsert; OpInsertMany]
  | CallDocuments _ => op =? OpInsertMany
  | CallSet _ _ | CallUnset _ | CallInc _ _ | CallMul _ _ | CallPush _ _
  | CallPull _ _ | CallAddToSet _ _ | CallUpsert =>
      existsb (String.eqb op) [OpUpdate; OpUpdateMany]
  | CallMatch _ | CallProject _ | CallGroup _ _ | CallLookup _ _ _ _
  | CallUnwind _ | CallStage _ => op =? OpAggregate
  end.

(** Two ASTs that differ at most in projection, sort order, skip and
    limit. *)
Definition sameButShape (a a' : DocumentAST) : Prop :=
  Operation_ a = Operation_ a' /\ Target a = Target a' /\
  FilterClause a = FilterClause a' /\ Documents a = Documents a' /\
  UpdateOps a = UpdateOps a' /\ Upsert a = Upsert a' /\
  Pipeline a = Pipeline a' /\ DistinctField a = DistinctField a'.

(** The AST of [Find(c).Filter(f)]. *)
Definition findWhere (c : Collection) (f : FilterItem) : DocumentAST :=
  docql.ast (docql.Filter (docql.Find c) f).

(** The parameter names of a render result, and those a walk has collected
    when it ends. *)
Definition namesOf (r : result QueryResult) : result (list string) :=
  match r with
  | Ok q => Ok (RequiredParams q)
  | Err e => Err e
  end.

Definition walked {S A : Type} (ps : S -> list string) (r : result (A * S))
    : result (list string) :=
  match r with
  | Ok (_, st) => Ok (ps st)
  | Err e => Err e
  end.




(** A filter that holds a nil item, at any depth. *)
Fixpoint hasNil (f : FilterItem) : bool :=
  match f with
  | NilFilter => true
  | FilterGroup _ conditions => existsb hasNil conditions
  | ElemMatchFilter _ conditions => existsb hasNil conditions
  | _ => false
  end.






(** * Properties *)

(** ** Validation before rendering *)

(** C5: when [Validate] rejects an AST, [Render] of every provided renderer
    returns an error (the validation error, prefixed) and no [QueryResult]. *)
Theorem render_revalidates (r : docql.Renderer) (o : MapOrder) (a : DocumentAST)
    (e : string) :
  provided r -> Validate a = Some e ->
  docql.Render r o a = Err ("invalid AST: " +:+ e).
Proof.
  intros Hr Hv.
  destruct Hr; cbn [docql.Render mongodb.New dynamodb.renderer firestore.New
                    couchdb.New];
    [ unfold mongodb.Render | unfold dynamodb.Render | unfold firestore.Render
    | unfold couchdb.Render ];
    now rewrite Hv.
Qed.

Lemma render_revalidates_witness :
  provided firestore.New /\
  Validate (docql.newAST OpFind (mkCollection "")) = Some "target collection is required" /\
  docql.Render firestore.New stored (docql.newAST OpFind (mkCollection ""))
  = Err "invalid AST: target collection is required".
Proof.
  split; [ constructor | split; [ reflexivity | ] ].
  apply (render_revalidates firestore.New stored
           (docql.newAST OpFind (mkCollection "")) "target collection is required");
    [ constructor | reflexivity ].
Defined.

(** ** The builder *)

Lemma eqb_false_of_ne (x y : string) : x <> y -> (x =? y) = false.
Proof. intros H. now apply String.eqb_neq. Qed.

(** C3, as stated, fails: an [UpdateMany] builder with a filter and no
    update operation does not build. *)
Lemma many_with_filter_counterexample :
  Operation_ (docql.ast updateManyFiltered) = OpUpdateMany /\
  isNil (FilterClause (docql.ast updateManyFiltered)) = false /\
  docql.Build updateManyFiltered
  = Err "UPDATE_MANY requires at least one update operation".
Proof. repeat split. Qed.

(** C3, amended: an [UpdateMany] or [DeleteMany] builder never builds
    without a filter; with a filter it builds exactly when no construction
    error is recorded, the target name is not empty and, for [UpdateMany],
    there is an update operation. *)
Theorem many_requires_filter (b : docql.Builder) :
  Operation_ (docql.ast b) = OpUpdateMany \/ Operation_ (docql.ast b) = OpDeleteMany ->
  (isNil (FilterClause (docql.ast b)) = true -> is_err (docql.Build b) = true) /\
  (isNil (FilterClause (docql.ast b)) = false ->
   (docql.Build b = Ok (docql.ast b) <->
    docql.err b = None /\ Name (Target (docql.ast b)) <> "" /\
    (Operation_ (docql.ast b) = OpUpdateMany -> UpdateOps (docql.ast b) <> []))).
Proof.
  destruct b as [a e]. cbn [docql.ast docql.err]. intros Hop.
  unfold docql.Build, Validate. cbn [docql.ast docql.err].
  destruct e as [e|].
  { split; [ reflexivity | ]. intros _. split; [ discriminate | ].
    now intros [? _]. }
  destruct (String.eqb_spec (Name (Target a)) "") as [Hn | Hn].
  { split; [ reflexivity | ]. intros _. split; [ discriminate | ].
    now intros (_ & ? & _). }
  destruct Hop as [Hop | Hop]; rewrite Hop; cbn -[len];
    unfold validateUpdateMany, validateDeleteMany, len.
  - destruct (UpdateOps a) as [|u ops]; cbn.
    + split; [ reflexivity | ]. intros _. split; [ discriminate | ].
      intros (_ & _ & H). now destruct (H eq_refl).
    + destruct (isNil (FilterClause a)).
      * split; [ reflexivity | discriminate ].
      * split; [ discriminate | ]. intros _. split; [ | reflexivity ].
        intros _. repeat split; [ assumption | discriminate ].
  - destruct (isNil (FilterClause a)).
    + split; [ reflexivity | discriminate ].
    + split; [ discriminate | ]. intros _. split; [ | reflexivity ].
      intros _. repeat split; [ assumption | discriminate ].
Qed.

Lemma many_requires_filter_witness :
  (Operation_ (docql.ast updateManySet) = OpUpdateMany \/
   Operation_ (docql.ast updateManySet) = OpDeleteMany) /\
  isNil (FilterClause (docql.ast updateManySet)) = false /\
  docql.Build updateManySet = Ok (docql.ast updateManySet).
Proof.
  split; [ left; reflexivity | split; [ reflexivity | ] ].
  apply (many_requires_filter updateManySet); [ left; reflexivity | reflexivity | ].
  repeat split; discriminate.
Defined.

(** C6, as stated, fails: on a builder that already has a filter, two more
    [Filter] calls nest the earlier clause one level deeper. *)
Lemma filter_twice_counterexample :
  docql.err findFiltered = None /\
  FilterClause (docql.ast (docql.Filter (docql.Filter findFiltered ageOver) emailIs))
  = FilterGroup AND [FilterGroup AND [statusIs; ageOver]; emailIs] /\
  FilterClause (docql.ast (docql.Filter (docql.Filter findFiltered ageOver) emailIs))
  <> FilterGroup AND [ageOver; emailIs].
Proof. repeat split. discriminate. Qed.

(** C6, amended: on a builder with no recorded error and no filter clause
    yet, [Filter a] (with [a] not nil) then [Filter f] leave the AND group
    of exactly [a] and [f]; when a clause is already there it is wrapped
    with [a] first, and the result is nested one level deeper. *)
Theorem filter_twice (b : docql.Builder) (a f : FilterItem) :
  docql.err b = None ->
  (isNil (FilterClause (docql.ast b)) = true -> isNil a = false ->
   FilterClause (docql.ast (docql.Filter (docql.Filter b a) f))
   = FilterGroup AND [a; f]) /\
  (isNil (FilterClause (docql.ast b)) = false ->
   FilterClause (docql.ast (docql.Filter (docql.Filter b a) f))
   = FilterGroup AND [FilterGroup AND [FilterClause (docql.ast b); a]; f]).
Proof.
  destruct b as [x e]. cbn [docql.err docql.ast]. intros ->.
  unfold docql.Filter; cbn [docql.err docql.ast]. split.
  - intros Hnil Ha. rewrite Hnil. cbn. now rewrite Ha.
  - intros Hnil. rewrite Hnil. reflexivity.
Qed.

Lemma filter_twice_witness :
  docql.err (docql.Find users) = None /\
  isNil (FilterClause (docql.ast (docql.Find users))) = true /\
  isNil statusIs = false /\
  FilterClause (docql.ast (docql.Filter (docql.Filter (docql.Find users) statusIs) ageOver))
  = FilterGroup AND [statusIs; ageOver].
Proof.
  repeat (split; [ reflexivity | ]).
  apply (filter_twice (docql.Find users) statusIs ageOver); reflexivity.
Defined.

(** [mergeUpdate] finds nothing where no operation has the operator. *)
Lemma mergeUpdate_absent (ops : list UpdateOperation) (op : UpdateOperator)
    (field : Field) (value : Param) :
  Forall (fun u => Operator u <> op) ops ->
  docql.mergeUpdate ops op field value = None.
Proof.
  induction 1 as [|u ops Hu _ IH]; cbn; [ reflexivity | ].
  now rewrite (eqb_false_of_ne _ _ Hu), IH.
Qed.

(** [mergeUpdate] passes over the operations that have another operator. *)
Lemma mergeUpdate_skip (ops : list UpdateOperation) (u : UpdateOperation)
    (field : Field) (value : Param) :
  Forall (fun x => Operator x <> Operator u) ops ->
  docql.mergeUpdate (ops ++ [u]) (Operator u) field value
  = Some (ops ++ [mkUpdateOperation (Operator u) (<[field := value]> (Fields u))]).
Proof.
  induction 1 as [|x ops Hx _ IH]; cbn.
  - now rewrite String.eqb_refl.
  - now rewrite (eqb_false_of_ne _ _ Hx), IH.
Qed.

Lemma count_set_app (ops : list UpdateOperation) (m : gmap Field Param) :
  Forall (fun u => Operator u <> Set_) ops ->
  length (List.filter (fun u => Operator u =? Set_)
            (ops ++ [mkUpdateOperation Set_ m])) = 1%nat.
Proof.
  induction 1 as [|x ops Hx _ IH]; cbn; [ reflexivity | ].
  now rewrite (eqb_false_of_ne _ _ Hx).
Qed.

(** C7, as stated, fails: after an earlier [Set] on a third field the one
    [$set] operation carries three entries. *)
Lemma set_twice_counterexample :
  docql.isUpdateOperation updateAge = true /\
  docql.err updateAge = None /\
  fEmail <> fName /\
  UpdateOps (docql.ast (docql.Set_ (docql.Set_ updateAge fEmail (mkParam "p1"))
                          fName (mkParam "p2")))
  = [mkUpdateOperation Set_
       (<[fName := mkParam "p2"]>
          (<[fEmail := mkParam "p1"]> {[ fAge := mkParam "newAge" ]}))] /\
  size (<[fName := mkParam "p2"]>
          (<[fEmail := mkParam "p1"]>
             ({[ fAge := mkParam "newAge" ]} : gmap Field Param))) = 3%nat.
Proof.
  repeat (split; [ first [ reflexivity | discriminate ] | ]).
  vm_compute. reflexivity.
Qed.

(** [mergeUpdate] changes the first operation that has the operator. *)
Lemma mergeUpdate_first (pre post : list UpdateOperation) (u : UpdateOperation)
    (field : Field) (value : Param) :
  Forall (fun x => Operator x <> Operator u) pre ->
  docql.mergeUpdate (pre ++ u :: post) (Operator u) field value
  = Some (pre ++ mkUpdateOperation (Operator u) (<[field := value]> (Fields u))
                 :: post).
Proof.
  induction 1 as [|x pre Hx _ IH]; cbn.
  - now rewrite String.eqb_refl.
  - now rewrite (eqb_false_of_ne _ _ Hx), IH.
Qed.

Lemma Set_first (b : docql.Builder) (pre post : list UpdateOperation)
    (m : gmap Field Param) (field : Field) (value : Param) :
  docql.isUpdateOperation b = true -> docql.err b = None ->
  UpdateOps (docql.ast b) = pre ++ mkUpdateOperation Set_ m :: post ->
  Forall (fun x => Operator x <> Set_) pre ->
  docql.Set_ b field value
  = docql.mkBuilder
      (docql.setUpdateOps (docql.ast b)
         (pre ++ mkUpdateOperation Set_ (<[field := value]> m) :: post))
      None.
Proof.
  intros Hop He Hops Hpre. unfold docql.Set_. rewrite He, Hop. cbn [negb].
  unfold docql.addOrMergeUpdate. rewrite Hops, He.
  pose proof (mergeUpdate_first pre post (mkUpdateOperation Set_ m) field value Hpre)
    as Hm.
  cbn [Operator Fields] in Hm. now rewrite Hm.
Qed.

(** C7, amended: on an [Update] or [UpdateMany] builder with no recorded
    error, [Set fieldA p1] then [Set fieldB p2] with distinct fields leave
    one [$set] operation that carries both entries.  Where there was no
    [$set] operation yet it is appended, it is the only one and the two
    entries are all it carries; where there was one, the first such
    operation gets the two entries next to those it has. *)
Theorem set_twice_merges (b : docql.Builder) (fieldA fieldB : Field) (p1 p2 : Param) :
  docql.isUpdateOperation b = true -> docql.err b = None -> fieldA <> fieldB ->
  (Forall (fun u => Operator u <> Set_) (UpdateOps (docql.ast b)) ->
   UpdateOps (docql.ast (docql.Set_ (docql.Set_ b fieldA p1) fieldB p2))
   = UpdateOps (docql.ast b)
     ++ [mkUpdateOperation Set_ (<[fieldB := p2]> {[ fieldA := p1 ]})] /\
   size (<[fieldB := p2]> ({[ fieldA := p1 ]} : gmap Field Param)) = 2%nat /\
   length (List.filter (fun u => Operator u =? Set_)
             (UpdateOps (docql.ast (docql.Set_ (docql.Set_ b fieldA p1) fieldB p2))))
   = 1%nat) /\
  (forall (pre post : list UpdateOperation) (m : gmap Field Param),
     UpdateOps (docql.ast b) = pre ++ mkUpdateOperation Set_ m :: post ->
     Forall (fun u => Operator u <> Set_) pre ->
     UpdateOps (docql.ast (docql.Set_ (docql.Set_ b fieldA p1) fieldB p2))
     = pre ++ mkUpdateOperation Set_ (<[fieldB := p2]> (<[fieldA := p1]> m)) :: post).
Proof.
  intros Hop He Hne. split.
  - destruct b as [a e]. cbn [docql.err docql.ast] in *. subst e. intros Hno.
    assert (Hops :
      UpdateOps (docql.ast (docql.Set_ (docql.Set_ (docql.mkBuilder a None) fieldA p1)
                              fieldB p2))
      = UpdateOps a ++ [mkUpdateOperation Set_ (<[fieldB := p2]> {[ fieldA := p1 ]})]).
    { unfold docql.Set_ at 2. cbn [docql.err]. rewrite Hop. cbn [negb].
      unfold docql.addOrMergeUpdate. cbn [docql.ast docql.err].
      rewrite (mergeUpdate_absent _ _ _ _ Hno).
      unfold docql.Set_. cbn [docql.err].
      unfold docql.isUpdateOperation in *.
      cbn [docql.ast docql.setUpdateOps Operation_] in *.
      rewrite Hop. cbn [negb].
      unfold docql.addOrMergeUpdate.
      cbn [docql.ast docql.err docql.setUpdateOps UpdateOps].
      now rewrite (mergeUpdate_skip _ (mkUpdateOperation Set_ {[ fieldA := p1 ]})
                     _ _ Hno). }
    rewrite Hops. split; [ reflexivity | split ].
    + rewrite map_size_insert_None by now apply lookup_singleton_ne.
      now rewrite map_size_singleton.
    + now apply count_set_app.
  - intros pre post m Hops Hpre.
    rewrite (Set_first b pre post m fieldA p1 Hop He Hops Hpre).
    erewrite Set_first; [ reflexivity | | reflexivity | reflexivity | exact Hpre ].
    unfold docql.isUpdateOperation in *. now destruct b as [[] ?].
Qed.

Lemma set_twice_merges_witness :
  docql.isUpdateOperation (docql.Update users) = true /\
  docql.err (docql.Update users) = None /\
  fEmail <> fName /\
  Forall (fun u => Operator u <> Set_) (UpdateOps (docql.ast (docql.Update users))) /\
  UpdateOps (docql.ast (docql.Set_ (docql.Set_ (docql.Update users) fEmail (mkParam "p1"))
                          fName (mkParam "p2")))
  = [mkUpdateOperation Set_ (<[fName := mkParam "p2"]> {[ fEmail := mkParam "p1" ]})].
Proof.
  split; [ reflexivity | split; [ reflexivity | split; [ discriminate | ] ] ].
  split; [ constructor | ].
  apply (set_twice_merges (docql.Update users) fEmail fName (mkParam "p1")
           (mkParam "p2"));
    [ reflexivity | reflexivity | discriminate | constructor ].
Defined.

Lemma isReadOperation_find (b : docql.Builder) :
  Operation_ (docql.ast b) = OpFind -> docql.isReadOperation b = true.
Proof. unfold docql.isReadOperation. now intros ->. Qed.

(** [Limit(MaxLimit)] against the same builder with its limit cleared. *)
Lemma build_limit_max (b : docql.Builder) :
  Operation_ (docql.ast b) = OpFind ->
  is_ok (docql.Build (docql.Limit b MaxLimit))
  = is_ok (docql.Build (docql.mkBuilder (docql.setLimit (docql.ast b) None)
                          (docql.err b))).
Proof.
  destruct b as [a e]. cbn [docql.ast docql.err]. intros Hop.
  unfold docql.Limit. cbn [docql.ast docql.err].
  destruct e as [e|]; [ reflexivity | ].
  rewrite isReadOperation_find by exact Hop.
  change (MaxLimit >? MaxLimit) with false. cbn [negb].
  unfold docql.Build. cbn [docql.ast docql.err].
  unfold Validate.
  cbn [docql.setLimit Target Operation_ Name].
  destruct (Name (Target a) =? ""); [ reflexivity | ].
  rewrite Hop.
  change ((OpFind =? OpFind) || (OpFind =? OpFindOne)) with true. cbn iota.
  unfold validateFind.
  cbn [docql.setLimit types.Limit Projection_ SortClauses FilterClause Static].
  change (MaxLimit >? MaxLimit) with false. cbn iota.
  match goal with
  | |- is_ok (match ?x with Some _ => _ | None => _ end) = _ => now destruct x
  end.
Qed.

(** C8: on a [Find] builder with a named target, [Limit(MaxLimit+1)] makes
    [Build] fail; [Limit(MaxLimit)] leaves [Build] as successful as it is
    with no limit at all, and right after [Find] it succeeds. *)
Theorem limit_enforcement (b : docql.Builder) :
  Operation_ (docql.ast b) = OpFind -> Name (Target (docql.ast b)) <> "" ->
  MaxLimit = 10000 /\
  is_err (docql.Build (docql.Limit b (MaxLimit + 1))) = true /\
  is_ok (docql.Build (docql.Limit b MaxLimit))
  = is_ok (docql.Build (docql.mkBuilder (docql.setLimit (docql.ast b) None)
                          (docql.err b))) /\
  (b = docql.Find (Target (docql.ast b)) ->
   docql.Build (docql.Limit b MaxLimit)
   = Ok (docql.setLimit (docql.ast b)
           (Some (mkPaginationValue (Some MaxLimit) None)))).
Proof.
  intros Hop Hname. split; [ reflexivity | split; [ | split ] ].
  - destruct b as [a e]. cbn [docql.ast docql.err] in *.
    unfold docql.Limit. cbn [docql.ast docql.err].
    destruct e as [e|]; [ reflexivity | ].
    rewrite isReadOperation_find by exact Hop. reflexivity.
  - now apply build_limit_max.
  - intros Hb. rewrite Hb. cbn [docql.Find docql.ast docql.newAST Target].
    unfold docql.Limit, docql.Build, Validate. cbn.
    now rewrite (eqb_false_of_ne _ _ Hname).
Qed.

Lemma limit_enforcement_witness :
  Operation_ (docql.ast (docql.Find users)) = OpFind /\
  Name (Target (docql.ast (docql.Find users))) <> "" /\
  is_err (docql.Build (docql.Limit (docql.Find users) 10001)) = true /\
  is_ok (docql.Build (docql.Limit (docql.Find users) 10000)) = true.
Proof.
  split; [ reflexivity | split; [ discriminate | ] ].
  destruct (limit_enforcement (docql.Find users)) as (_ & Hfail & _ & Hok);
    [ reflexivity | discriminate | ].
  split; [ exact Hfail | ].
  exact (f_equal is_ok (Hok eq_refl)).
Defined.

(** [Render] of an [Insert] AST does not look at the filter clause. *)
Lemma mongodb_insert_ignores_filter (o : MapOrder) (a : DocumentAST) (g : FilterItem) :
  Operation_ a = OpInsert ->
  mongodb.Render o (docql.setFilterClause a g) = mongodb.Render o a.
Proof.
  intros Hop. unfold mongodb.Render, Validate.
  cbn [docql.setFilterClause Target Operation_ Name].
  rewrite Hop. reflexivity.
Qed.

(** The document of a rendered [Insert] has no ["filter"] entry. *)
Lemma mongodb_insert_no_filter_key (o : MapOrder) (a : DocumentAST) (q : QueryResult) :
  Operation_ a = OpInsert -> mongodb.Render o a = Ok q ->
  exists m : gmap string JValue, JSON q = Marshal (JObj m) /\ m !! "filter" = None.
Proof.
  intros Hop. unfold mongodb.Render.
  destruct (Validate a); [ discriminate | ].
  rewrite Hop.
  change ((OpInsert =? OpFind) || (OpInsert =? OpFindOne)) with false.
  change (OpInsert =? OpInsert) with true. cbn iota.
  unfold mongodb.run, mongodb.renderInsert, bind.
  destruct (Documents a) as [|doc docs].
  - cbn. intros [= <-]. eexists. split; [ reflexivity | ].
    unfold mongodb.header. now rewrite !lookup_insert_ne.
  - destruct (mongodb.renderDocument o doc start) as [[v st]|e]; [ | discriminate ].
    cbn. intros [= <-]. eexists. split; [ reflexivity | ].
    unfold mongodb.header. now rewrite !lookup_insert_ne.
Qed.

(** C10, as stated, fails: with the unnamed collection as target an
    [Insert] builder with one document does not build, filter or not. *)
Lemma insert_filter_counterexample :
  Operation_ (docql.ast insertUnnamed) = OpInsert /\
  length (Documents (docql.ast insertUnnamed)) = 1%nat /\
  docql.err (docql.Filter insertUnnamed statusIs) = None /\
  docql.Build (docql.Filter insertUnnamed statusIs)
  = Err "target collection is required".
Proof. repeat split. Qed.

(** C10, amended: [Filter] has no operation guard.  On an [Insert] builder
    with exactly one document it records no error; [Build] then succeeds
    when no error was recorded before and the target name is not empty; and
    the MongoDB renderer renders the AST as it renders it without any
    filter clause, the document having no ["filter"] entry. *)
Theorem insert_filter_unguarded (b : docql.Builder) (f : FilterItem) :
  Operation_ (docql.ast b) = OpInsert -> length (Documents (docql.ast b)) = 1%nat ->
  docql.err (docql.Filter b f) = docql.err b /\
  (docql.err b = None -> Name (Target (docql.ast b)) <> "" ->
   docql.Build (docql.Filter b f) = Ok (docql.ast (docql.Filter b f))) /\
  (forall o : MapOrder,
     mongodb.Render o (docql.ast (docql.Filter b f))
     = mongodb.Render o (docql.setFilterClause (docql.ast b) NilFilter)) /\
  (forall (o : MapOrder) (q : QueryResult),
     mongodb.Render o (docql.ast (docql.Filter b f)) = Ok q ->
     exists m : gmap string JValue,
       JSON q = Marshal (JObj m) /\ m !! "filter" = None).
Proof.
  destruct b as [a e]. cbn [docql.ast docql.err]. intros Hop Hdocs.
  assert (Hast : exists g, docql.ast (docql.Filter (docql.mkBuilder a e) f)
                           = docql.setFilterClause a g).
  { unfold docql.Filter. cbn [docql.ast docql.err].
    destruct e; [ | destruct (isNil (FilterClause a)) ]; cbn [docql.ast]; eauto.
    exists (FilterClause a). now destruct a. }
  destruct Hast as [g Hg].
  split; [ | split; [ | split ] ].
  - unfold docql.Filter. cbn [docql.err docql.ast].
    destruct e; [ reflexivity | ]. now destruct (isNil (FilterClause a)).
  - intros -> Hname. unfold docql.Build.
    assert (He : docql.err (docql.Filter (docql.mkBuilder a None) f) = None).
    { unfold docql.Filter. cbn [docql.err docql.ast].
      now destruct (isNil (FilterClause a)). }
    rewrite He, Hg. unfold Validate.
    cbn [docql.setFilterClause Target Operation_ Name].
    rewrite (eqb_false_of_ne _ _ Hname), Hop.
    change ((OpInsert =? OpFind) || (OpInsert =? OpFindOne)) with false.
    change (OpInsert =? OpInsert) with true. cbn iota.
    unfold validateInsert, len. cbn [docql.setFilterClause Documents].
    now rewrite Hdocs.
  - intros o. rewrite Hg.
    now rewrite !mongodb_insert_ignores_filter by exact Hop.
  - intros o q. rewrite Hg. apply mongodb_insert_no_filter_key. exact Hop.
Qed.

Lemma insert_filter_unguarded_witness :
  Operation_ (docql.ast insertOne) = OpInsert /\
  length (Documents (docql.ast insertOne)) = 1%nat /\
  docql.err insertOne = None /\
  Name (Target (docql.ast insertOne)) <> "" /\
  docql.Build (docql.Filter insertOne statusIs)
  = Ok (docql.ast (docql.Filter insertOne statusIs)).
Proof.
  repeat (split; [ first [ reflexivity | discriminate ] | ]).
  apply (insert_filter_unguarded insertOne statusIs);
    first [ reflexivity | discriminate ].
Defined.

(** ** The Firestore renderer and logic groups *)

(** C1, as stated, fails: a group whose logic value is not declared makes
    the Firestore renderer return an error. *)
Lemma firestore_unrecognized_logic_counterexample :
  ~ In "$xor" recognizedLogic /\
  firestore.Render stored (docql.ast (docql.Filter (docql.Find users) xorGroup))
  = Err "firestore only supports AND logic in compound queries".
Proof.
  split; [ | reflexivity ].
  cbn. intros [H | [H | [H | [H | []]]]]; discriminate.
Qed.

(** C1, amended: for every logic value other than AND, declared or not,
    the Firestore renderer rejects the group: [buildWheres] returns the
    AND-only error, and so does [Render] of every [Find] or [FindOne] AST
    with such a group as its filter clause that passes validation. *)
Theorem firestore_rejects_non_and (logic : LogicOperator) (conditions : list FilterItem) :
  logic <> AND ->
  (forall st : Walk,
     firestore.buildWheres (FilterGroup logic conditions) st
     = Err "firestore only supports AND logic in compound queries") /\
  (forall (o : MapOrder) (a : DocumentAST),
     Operation_ a = OpFind \/ Operation_ a = OpFindOne ->
     FilterClause a = FilterGroup logic conditions ->
     is_err (firestore.Render o a) = true /\
     (Validate a = None ->
      firestore.Render o a
      = Err "firestore only supports AND logic in compound queries")).
Proof.
  intros Hne.
  assert (Hw : forall st : Walk,
             firestore.buildWheres (FilterGroup logic conditions) st
             = Err "firestore only supports AND logic in compound queries").
  { intros st. cbn [firestore.buildWheres].
    now rewrite (eqb_false_of_ne _ _ Hne). }
  split; [ exact Hw | ].
  intros o a Hop Hf.
  assert (Hr : Validate a = None ->
               firestore.Render o a
               = Err "firestore only supports AND logic in compound queries").
  { intros Hv. unfold firestore.Render. rewrite Hv.
    destruct Hop as [-> | ->]; cbn -[firestore.renderQuery];
      unfold firestore.run, firestore.renderQuery, bind;
      rewrite Hf; cbn [isNil negb]; now rewrite Hw. }
  split; [ | exact Hr ].
  destruct (Validate a) eqn:Hv.
  - unfold firestore.Render. now rewrite Hv.
  - now rewrite Hr.
Qed.

Lemma firestore_rejects_non_and_witness :
  OR <> AND /\
  firestore.buildWheres (FilterGroup OR [statusIs; ageOver]) start
  = Err "firestore only supports AND logic in compound queries".
Proof.
  split; [ discriminate | ].
  apply (firestore_rejects_non_and OR [statusIs; ageOver]). discriminate.
Defined.

(** ** Identifier validation *)

Lemma validRest_of_first (c : ascii) :
  docql.validFirst c = true -> docql.validRest c = true.
Proof.
  unfold docql.validFirst, docql.validRest.
  destruct (docql.isLetter c), (docql.isDigit c), (Ascii.eqb c docql.underscore);
    cbn; congruence.
Qed.

Lemma allRest_bytes (s : string) (c : ascii) :
  docql.allRest s = true -> In c (bytes s) -> docql.validRest c = true.
Proof.
  induction s as [|a s IH]; cbn; [ tauto | ].
  intros H [-> | Hin].
  - now apply andb_true_iff in H.
  - apply IH; [ | exact Hin ]. now apply andb_true_iff in H.
Qed.

(** A name with a byte that is no letter, digit or underscore is refused. *)
Lemma invalid_byte_refused (s : string) (c : ascii) :
  In c (bytes s) -> docql.validRest c = false -> docql.isValidIdentifier s = false.
Proof.
  destruct s as [|a s]; [ reflexivity | ].
  intros Hin Hc. unfold docql.isValidIdentifier.
  destruct (docql.Contains (String a s) " "); [ reflexivity | ].
  destruct (docql.validFirst a && docql.allRest s) eqn:Hv; [ | reflexivity ].
  apply andb_true_iff in Hv as [Ha Hs].
  destruct Hin as [-> | Hin].
  - apply validRest_of_first in Ha. congruence.
  - pose proof (allRest_bytes s c Hs Hin). congruence.
Qed.

(** The first byte of a fragment that occurs in [s] is a byte of [s]. *)
Lemma Contains_first_byte (s p : string) (c : ascii) :
  docql.Contains s (String c p) = true -> In c (bytes s).
Proof.
  induction s as [|a s IH]; cbn; [ discriminate | ].
  destruct (ascii_dec c a) as [-> | _]; [ now left | ].
  cbn. intros H. right. now apply IH.
Qed.

(** A name whose lower-cased form holds a denylisted fragment is refused. *)
Lemma denylisted_refused (s pattern : string) :
  In pattern docql.suspiciousPatterns ->
  docql.Contains (docql.ToLower s) pattern = true ->
  docql.isValidIdentifier s = false.
Proof.
  intros Hin Hc. destruct s as [|a s]; [ reflexivity | ].
  unfold docql.isValidIdentifier.
  destruct (docql.Contains (String a s) " "); [ reflexivity | ].
  destruct (negb (docql.validFirst a && docql.allRest s)); [ reflexivity | ].
  apply negb_false_iff, existsb_exists. now exists pattern.
Qed.

(** C4, as stated, fails: the name [exec] holds the fragment [exec] and
    [TryP] accepts it.  The denylist has the fragment with a space after
    it. *)
Lemma exec_counterexample :
  docql.Contains (docql.ToLower "exec") "exec" = true /\
  ~ In "exec" docql.suspiciousPatterns /\
  In "exec " docql.suspiciousPatterns /\
  docql.TryP "exec" = Ok (mkParam "exec").
Proof.
  split; [ reflexivity | split; [ | split; [ | reflexivity ] ] ].
  - cbn. intuition discriminate.
  - cbn. do 16 right. now left.
Qed.

(** C4, amended: [TryP] fails for every name whose lower-cased form holds a
    fragment of the denylist as the code has it (the keyword fragments end
    in a space, as in [exec ] and [execute ]), and for every name that
    holds white space, a semicolon, [--], [/*] or a quote character. *)
Theorem suspicious_names_refused (s : string) :
  (exists pattern : string,
     In pattern docql.suspiciousPatterns /\
     docql.Contains (docql.ToLower s) pattern = true) \/
  (exists c : ascii,
     In c (bytes s) /\ (isSpace c = true \/ c = semicolon \/ isQuote c = true)) \/
  docql.Contains s "--" = true \/ docql.Contains s "/*" = true ->
  docql.TryP s = Err ("invalid parameter name: " +:+ s).
Proof.
  intros H.
  assert (Hs : docql.isValidIdentifier s = false).
  { destruct H as [(pattern & Hin & Hc) | [(c & Hin & Hc) | [Hc | Hc]]].
    - now apply (denylisted_refused s pattern).
    - apply (invalid_byte_refused s c Hin).
      destruct Hc as [Hc | [-> | Hc]]; [ | reflexivity | ].
      + unfold isSpace in Hc. apply existsb_exists in Hc as (n & Hn & Heq).
        apply N.eqb_eq in Heq.
        assert (c = ascii_of_N n) as ->
          by (subst n; unfold docql.code; now rewrite ascii_N_embedding).
        cbn in Hn. destruct Hn as [<- | [<- | [<- | [<- | [<- | [<- | []]]]]]];
          reflexivity.
      + unfold isQuote in Hc. apply existsb_exists in Hc as (n & Hn & Heq).
        apply N.eqb_eq in Heq.
        assert (c = ascii_of_N n) as ->
          by (subst n; unfold docql.code; now rewrite ascii_N_embedding).
        cbn in Hn. destruct Hn as [<- | [<- | [<- | []]]]; reflexivity.
    - apply (invalid_byte_refused s "-"%char); [ | reflexivity ].
      now apply (Contains_first_byte s "-").
    - apply (invalid_byte_refused s "/"%char); [ | reflexivity ].
      now apply (Contains_first_byte s "*"). }
  unfold docql.TryP. now rewrite Hs.
Qed.

Lemma suspicious_names_refused_witness :
  In "drop " docql.suspiciousPatterns /\
  docql.Contains (docql.ToLower "DROP table") "drop " = true /\
  docql.TryP "DROP table" = Err "invalid parameter name: DROP table".
Proof.
  split; [ cbn; do 10 right; now left | split; [ reflexivity | ] ].
  apply (suspicious_names_refused "DROP table").
  left. exists "drop ". split; [ cbn; do 10 right; now left | reflexivity ].
Defined.

(** ** Logic groups in the DynamoDB and CouchDB renderers *)

(** A loop fails only where its body does. *)
Lemma mapM_ok {S A B : Type} (body : A -> M S B) (l : list A) :
  (forall x st, In x l -> is_ok (body x st) = true) ->
  forall st, is_ok (mapM body l st) = true.
Proof.
  induction l as [|x l IH]; intros Hb st; cbn [mapM]; [ reflexivity | ].
  unfold bind.
  pose proof (Hb x st (or_introl eq_refl)) as Hx.
  destruct (body x st) as [[y st1]|e]; [ | discriminate ].
  assert (Hl : is_ok (mapM body l st1) = true)
    by (apply IH; intros; apply Hb; now right).
  destruct (mapM body l st1) as [[ys st2]|e]; [ reflexivity | discriminate ].
Qed.

Lemma couchdb_group (logic : LogicOperator) (conditions : list FilterItem) (st : Walk) :
  couchdb.buildSelector (FilterGroup logic conditions) st
  = match mapM couchdb.buildSelector conditions st with
    | Ok (rendered, st') =>
        Ok (JObj {[ couchdb.mapLogic logic := JArr rendered ]}, st')
    | Err e => Err e
    end.
Proof. reflexivity. Qed.

Lemma dynamodb_group (logic : LogicOperator) (conditions : list FilterItem)
    (st : dynamodb.Scope) :
  dynamodb.buildFilterExpression (FilterGroup logic conditions) st
  = match conditions with
    | [] => Ok ("", st)
    | _ =>
        match mapM dynamodb.buildFilterExpression conditions st with
        | Ok (rendered, st') =>
            Ok (dynamodb.joinWith (if logic =? OR then "OR" else "AND")
                  (map (fun expr => "(" +:+ expr +:+ ")") rendered), st')
        | Err e => Err e
        end
    end.
Proof. destruct conditions; reflexivity. Qed.

(** C9: in the DynamoDB and CouchDB renderers the logic value of a group
    never causes an error.  Whether the group renders does not depend on
    its logic value, and it renders whenever its children do; DynamoDB
    renders every value other than OR as it renders AND, joining the
    children with [AND]; CouchDB renders every value other than AND, OR and
    NOR under the key [$and]. *)
Theorem logic_kind_never_fails (logic : LogicOperator) (conditions : list FilterItem) :
  (forall (logic' : LogicOperator) (st : dynamodb.Scope),
     is_ok (dynamodb.buildFilterExpression (FilterGroup logic conditions) st)
     = is_ok (dynamodb.buildFilterExpression (FilterGroup logic' conditions) st)) /\
  (forall (logic' : LogicOperator) (st : Walk),
     is_ok (couchdb.buildSelector (FilterGroup logic conditions) st)
     = is_ok (couchdb.buildSelector (FilterGroup logic' conditions) st)) /\
  ((forall c st, In c conditions ->
      is_ok (dynamodb.buildFilterExpression c st) = true) ->
   forall st, is_ok (dynamodb.buildFilterExpression (FilterGroup logic conditions) st)
              = true) /\
  ((forall c st, In c conditions -> is_ok (couchdb.buildSelector c st) = true) ->
   forall st, is_ok (couchdb.buildSelector (FilterGroup logic conditions) st) = true) /\
  (logic <> OR ->
   forall st,
     dynamodb.buildFilterExpression (FilterGroup logic conditions) st
     = dynamodb.buildFilterExpression (FilterGroup AND conditions) st /\
     forall rendered st',
       conditions <> [] ->
       mapM dynamodb.buildFilterExpression conditions st = Ok (rendered, st') ->
       dynamodb.buildFilterExpression (FilterGroup logic conditions) st
       = Ok (dynamodb.joinWith "AND"
               (map (fun expr => "(" +:+ expr +:+ ")") rendered), st')) /\
  (logic <> AND -> logic <> OR -> logic <> NOR ->
   couchdb.mapLogic logic = "$and" /\
   forall st rendered st',
     mapM couchdb.buildSelector conditions st = Ok (rendered, st') ->
     couchdb.buildSelector (FilterGroup logic conditions) st
     = Ok (JObj {[ "$and" := JArr rendered ]}, st')).
Proof.
  split; [ | split; [ | split; [ | split; [ | split ] ] ] ].
  - intros logic' st. rewrite !dynamodb_group.
    destruct conditions; [ reflexivity | ].
    now destruct (mapM dynamodb.buildFilterExpression _ st) as [[? ?]|?].
  - intros logic' st. rewrite !couchdb_group.
    now destruct (mapM couchdb.buildSelector conditions st) as [[? ?]|?].
  - intros Hc st. rewrite dynamodb_group.
    destruct conditions as [|c cs]; [ reflexivity | ].
    pose proof (mapM_ok dynamodb.buildFilterExpression (c :: cs) Hc st) as Hm.
    now destruct (mapM dynamodb.buildFilterExpression (c :: cs) st) as [[? ?]|?].
  - intros Hc st. rewrite couchdb_group.
    pose proof (mapM_ok couchdb.buildSelector conditions Hc st) as Hm.
    now destruct (mapM couchdb.buildSelector conditions st) as [[? ?]|?].
  - intros Hor st. split.
    + rewrite !dynamodb_group. now rewrite (eqb_false_of_ne _ _ Hor).
    + intros rendered st' Hne Hm. rewrite dynamodb_group.
      destruct conditions; [ congruence | ].
      now rewrite Hm, (eqb_false_of_ne _ _ Hor).
  - intros Hand Hor Hnor.
    assert (Hl : couchdb.mapLogic logic = "$and").
    { unfold couchdb.mapLogic.
      now rewrite (eqb_false_of_ne _ _ Hand), (eqb_false_of_ne _ _ Hor),
        (eqb_false_of_ne _ _ Hnor). }
    split; [ exact Hl | ].
    intros st rendered st' Hm. now rewrite couchdb_group, Hm, Hl.
Qed.

Lemma logic_kind_never_fails_witness :
  NOT <> AND /\ NOT <> OR /\ NOT <> NOR /\
  couchdb.mapLogic NOT = "$and" /\
  option_map fst
    (match dynamodb.buildFilterExpression (FilterGroup NOR [statusIs; ageOver])
             dynamodb.fresh with
     | Ok r => Some r
     | Err _ => None
     end)
  = Some "(#n0 = :v0) AND (#n1 > :v1)".
Proof.
  repeat (split; [ discriminate | ]).
  destruct (logic_kind_never_fails NOT [statusIs; ageOver])
    as (_ & _ & _ & _ & _ & Hc).
  destruct (logic_kind_never_fails NOR [statusIs; ageOver])
    as (_ & _ & _ & _ & Hd & _).
  split; [ now apply Hc | ].
  destruct (Hd ltac:(discriminate) dynamodb.fresh) as [-> _]. reflexivity.
Defined.

(** ** Rendering twice *)

Lemma stored_fair : fair stored.
Proof. intros A n l. apply Permutation_refl. Qed.

Lemma reversed_fair : fair reversed.
Proof. intros A n l. apply Permutation_sym, Permutation_rev. Qed.

(** C2, as stated, fails, in both halves.  A validated [Insert] of a
    two-field document has its parameters in the order in which the map of
    the document is visited, and two render calls may visit it in two
    orders.  The JSON text differs as well: DynamoDB numbers the
    placeholders of a validated [Update] that sets two fields in visiting
    order, and MongoDB writes a path that two fields of a document share
    with the parameter of the field it visits last. *)
Lemma render_twice_counterexample :
  fair stored /\ fair reversed /\
  docql.Build insertTwo = Ok (docql.ast insertTwo) /\
  option_map RequiredParams
    (match docql.Render mongodb.New stored (docql.ast insertTwo) with
     | Ok q => Some q
     | Err _ => None
     end) = Some ["email"; "name"] /\
  option_map RequiredParams
    (match docql.Render mongodb.New reversed (docql.ast insertTwo) with
     | Ok q => Some q
     | Err _ => None
     end) = Some ["name"; "email"] /\
  docql.Build updateTwo = Ok (docql.ast updateTwo) /\
  docql.Render (dynamodb.renderer dynamodb.New) stored (docql.ast updateTwo)
  = Ok (mkQueryResult (Marshal (updateTwoJSON "email" "name")) ["email"; "name"]) /\
  docql.Render (dynamodb.renderer dynamodb.New) reversed (docql.ast updateTwo)
  = Ok (mkQueryResult (Marshal (updateTwoJSON "name" "email")) ["name"; "email"]) /\
  updateTwoJSON "email" "name" <> updateTwoJSON "name" "email" /\
  docql.Build insertTwoNames = Ok (docql.ast insertTwoNames) /\
  docql.Render mongodb.New stored (docql.ast insertTwoNames)
  = Ok (mkQueryResult (Marshal (insertTwoNamesJSON "name")) ["orderName"; "name"]) /\
  docql.Render mongodb.New reversed (docql.ast insertTwoNames)
  = Ok (mkQueryResult (Marshal (insertTwoNamesJSON "orderName"))
          ["name"; "orderName"]) /\
  insertTwoNamesJSON "name" <> insertTwoNamesJSON "orderName".
Proof.
  split; [ exact stored_fair | split; [ exact reversed_fair | ] ].
  split; [ reflexivity | ].
  split; [ vm_compute; reflexivity | ]. split; [ vm_compute; reflexivity | ].
  split; [ reflexivity | ].
  split; [ vm_compute; reflexivity | ]. split; [ vm_compute; reflexivity | ].
  split.
  { intros H.
    apply (f_equal (fun v => match v with
                             | JObj m =>
                                 match m !! "ExpressionAttributeNames" with
                                 | Some (JObj names) => names !! "#n0"
                                 | _ => None
                                 end
                             | _ => None
                             end)) in H.
    vm_compute in H. discriminate. }
  split; [ reflexivity | ].
  split; [ vm_compute; reflexivity | ]. split; [ vm_compute; reflexivity | ].
  intros H.
  apply (f_equal (fun v => match v with
                           | JObj m =>
                               match m !! "document" with
                               | Some (JObj doc) => doc !! "name"
                               | _ => None
                               end
                           | _ => None
                           end)) in H.
  vm_compute in H. discriminate.
Qed.

(** A fair order leaves a list of at most one entry as it is. *)
Lemma range_single (o : MapOrder) (A : Type) (n : nat) (l : list A) :
  fair o -> (length l <= 1)%nat -> range_order o n l = l.
Proof.
  intros Ho Hl. pose proof (Ho A n l) as Hp. apply Permutation_sym in Hp.
  destruct l as [|x [|y l]].
  - now apply Permutation_nil in Hp.
  - now apply Permutation_length_1_inv in Hp.
  - cbn in Hl. lia.
Qed.

Lemma rangeMap_single `{Countable K} {V} (o : MapOrder) (m : gmap K V) (st : Walk) :
  fair o -> single m -> rangeMap o m st = rangeMap stored m st.
Proof.
  intros Ho Hm. unfold rangeMap. cbn [range_order stored].
  rewrite (range_single o _ _ _ Ho); [ reflexivity | ].
  now rewrite length_map_to_list.
Qed.

(** Loops agree when their bodies agree on the elements of the list. *)
Lemma foldM_ext {S A B : Type} (f g : B -> A -> M S B) (l : list A) :
  (forall acc x st, In x l -> f acc x st = g acc x st) ->
  forall acc st, foldM f l acc st = foldM g l acc st.
Proof.
  induction l as [|x l IH]; intros Hfg acc st; cbn [foldM]; [ reflexivity | ].
  unfold bind. rewrite (Hfg acc x st (or_introl eq_refl)).
  destruct (g acc x st) as [[acc' st']|e]; [ | reflexivity ].
  apply IH. intros. apply Hfg. now right.
Qed.

(** Two walks agree when they start alike and go on alike. *)
Lemma bind_ext {S A B : Type} (m m' : M S A) (k k' : A -> M S B) (st : S) :
  m st = m' st -> (forall a st', k a st' = k' a st') ->
  bind m k st = bind m' k' st.
Proof.
  intros Hm Hk. unfold bind. rewrite Hm.
  destruct (m' st) as [[a st']|e]; [ apply Hk | reflexivity ].
Qed.

Lemma mapM_ext {S A B : Type} (f g : A -> M S B) (l : list A) :
  (forall x st, In x l -> f x st = g x st) ->
  forall st, mapM f l st = mapM g l st.
Proof.
  induction l as [|x l IH]; intros Hfg st; cbn [mapM]; [ reflexivity | ].
  unfold bind. rewrite (Hfg x st (or_introl eq_refl)).
  destruct (g x st) as [[y st']|e]; [ | reflexivity ].
  rewrite IH; [ reflexivity | ]. intros. apply Hfg. now right.
Qed.

Section SingleEntries.
Variable o : MapOrder.
Hypothesis o_fair : fair o.

Lemma mongodb_renderDocument_single (doc : Document) (st : Walk) :
  single (Document_Fields doc) ->
  mongodb.renderDocument o doc st = mongodb.renderDocument stored doc st.
Proof.
  intros Hd. unfold mongodb.renderDocument, bind.
  now rewrite (rangeMap_single o _ st o_fair Hd).
Qed.

Lemma mongodb_renderUpdateOps_single (ops : list UpdateOperation) (st : Walk) :
  Forall (fun u => single (Fields u)) ops ->
  mongodb.renderUpdateOps o ops st = mongodb.renderUpdateOps stored ops st.
Proof.
  intros Hops. unfold mongodb.renderUpdateOps, bind at 1 3.
  rewrite (foldM_ext _
             (fun (result : gmap string JValue) op =>
                entries <- rangeMap stored (Fields op) ;;
                fields <-
                  foldM (fun (fields : gmap string JValue) '(field, value) =>
                           if negb (Param_Name value =? "") then
                             emit (Param_Name value) ;;;
                             ret (<[Path field :=
                                      JStr (placeholder (Param_Name value))]> fields)
                           else ret (<[Path field := JStr ""]> fields))
                        entries ∅ ;;
                ret (<[Operator op := JObj fields]> result)));
    [ reflexivity | ].
  intros acc u st' Hin. unfold bind.
  rewrite (rangeMap_single o _ st' o_fair); [ reflexivity | ].
  exact (proj1 (List.Forall_forall _ _) Hops u Hin).
Qed.

Lemma mongodb_renderPipelineStage_single (stage : PipelineStage) (st : Walk) :
  singleStage stage ->
  mongodb.renderPipelineStage o stage st
  = mongodb.renderPipelineStage stored stage st.
Proof.
  intros Hs. destruct stage; try reflexivity; cbn [singleStage] in Hs;
    cbn [mongodb.renderPipelineStage]; unfold bind.
  - destruct (mongodb.renderExpression id st) as [[v st1]|e]; [ | reflexivity ].
    now rewrite (rangeMap_single o _ st1 o_fair Hs).
  - now rewrite (rangeMap_single o _ st o_fair Hs).
Qed.

Lemma mongodb_Render_single (a : DocumentAST) :
  singleEntryMaps a -> mongodb.Render o a = mongodb.Render stored a.
Proof.
  intros (Hdocs & Hops & Hstages). unfold mongodb.Render.
  destruct (Validate a); [ reflexivity | ].
  repeat match goal with
         | |- (if ?c then _ else _) = (if ?c then _ else _) =>
             destruct c; [ | ]
         end; try reflexivity; unfold mongodb.run; f_equal.
  - unfold mongodb.renderInsert, bind.
    destruct (Documents a) as [|doc docs]; [ reflexivity | ].
    apply Forall_cons_iff in Hdocs as [Hdoc _].
    now rewrite (mongodb_renderDocument_single doc start Hdoc).
  - unfold mongodb.renderInsertMany, bind.
    rewrite (mapM_ext (mongodb.renderDocument o) (mongodb.renderDocument stored));
      [ reflexivity | ].
    intros doc st Hin. apply mongodb_renderDocument_single.
    exact (proj1 (List.Forall_forall _ _) Hdocs doc Hin).
  - unfold mongodb.renderUpdate, bind.
    destruct (mongodb.setFilter a (Some (JObj ∅)) (mongodb.header a) start)
      as [[q st]|e]; [ | reflexivity ].
    now rewrite (mongodb_renderUpdateOps_single _ st Hops).
  - unfold mongodb.renderUpdateMany, mongodb.renderUpdate, bind.
    destruct (mongodb.setFilter a (Some (JObj ∅)) (mongodb.header a) start)
      as [[q st]|e]; [ | reflexivity ].
    now rewrite (mongodb_renderUpdateOps_single _ st Hops).
  - unfold mongodb.renderAggregate, bind.
    rewrite (mapM_ext (mongodb.renderPipelineStage o)
               (mongodb.renderPipelineStage stored)); [ reflexivity | ].
    intros stage st Hin. apply mongodb_renderPipelineStage_single.
    exact (proj1 (List.Forall_forall _ _) Hstages stage Hin).
Qed.
(** The results of two walks agree once the walks do. *)
Ltac same_walk :=
  match goal with
  | |- match ?x with Ok _ => _ | Err _ => _ end
       = match ?y with Ok _ => _ | Err _ => _ end =>
      let H := fresh "Hwalk" in
      assert (H : x = y); [ | now rewrite H ]
  end.

Lemma firestore_Render_single (a : DocumentAST) :
  singleEntryMaps a -> firestore.Render o a = firestore.Render stored a.
Proof.
  intros (Hdocs & Hops & _). unfold firestore.Render.
  destruct (Validate a); [ reflexivity | ].
  repeat match goal with
         | |- (if ?c then _ else _) = (if ?c then _ else _) =>
             destruct c; [ | ]
         end; try reflexivity; unfold firestore.run; same_walk.
  - unfold firestore.renderAdd.
    apply bind_ext; [ | reflexivity ].
    destruct (Documents a) as [|doc docs]; [ reflexivity | ].
    apply Forall_cons_iff in Hdocs as [Hdoc _].
    apply bind_ext; [ now apply rangeMap_single | reflexivity ].
  - unfold firestore.renderUpdate.
    apply bind_ext; [ | reflexivity ].
    apply foldM_ext. intros acc u st Hin.
    pose proof (proj1 (List.Forall_forall _ _) Hops u Hin) as Hu.
    destruct (negb (Operator u =? Set_) && negb (Operator u =? Unset));
      [ reflexivity | ].
    apply bind_ext; [ now apply rangeMap_single | reflexivity ].
Qed.

Lemma couchdb_Render_single (a : DocumentAST) :
  singleEntryMaps a -> couchdb.Render o a = couchdb.Render stored a.
Proof.
  intros (Hdocs & Hops & _). unfold couchdb.Render.
  destruct (Validate a); [ reflexivity | ].
  repeat match goal with
         | |- (if ?c then _ else _) = (if ?c then _ else _) =>
             destruct c; [ | ]
         end; try reflexivity; unfold couchdb.run; same_walk.
  - unfold couchdb.renderInsert. cbv zeta.
    apply bind_ext; [ | reflexivity ].
    destruct (Documents a) as [|doc docs]; [ reflexivity | ].
    apply Forall_cons_iff in Hdocs as [Hdoc _].
    apply bind_ext; [ now apply rangeMap_single | reflexivity ].
  - unfold couchdb.renderUpdate.
    apply bind_ext; [ reflexivity | intros query st0 ].
    apply bind_ext; [ | reflexivity ].
    apply foldM_ext. intros acc u st Hin.
    pose proof (proj1 (List.Forall_forall _ _) Hops u Hin) as Hu.
    destruct (negb (Operator u =? Set_)); [ reflexivity | ].
    apply bind_ext; [ now apply rangeMap_single | reflexivity ].
Qed.

Lemma lift_rangeMap_single `{Countable K} {V} (m : gmap K V) (st : dynamodb.Scope) :
  single m ->
  dynamodb.lift (rangeMap o m) st = dynamodb.lift (rangeMap stored m) st.
Proof.
  intros Hm. unfold dynamodb.lift.
  now rewrite (rangeMap_single o _ _ o_fair Hm).
Qed.

Lemma dynamodb_Render_single (r : dynamodb.Renderer) (a : DocumentAST) :
  singleEntryMaps a -> dynamodb.Render r o a = dynamodb.Render r stored a.
Proof.
  intros (Hdocs & Hops & _). unfold dynamodb.Render.
  destruct (Validate a); [ reflexivity | ].
  repeat match goal with
         | |- (if ?c then _ else _) = (if ?c then _ else _) =>
             destruct c; [ | ]
         end; try reflexivity; unfold dynamodb.run; same_walk.
  - unfold dynamodb.renderPutItem. cbv zeta.
    apply bind_ext; [ | reflexivity ].
    destruct (Documents a) as [|doc docs]; [ reflexivity | ].
    apply Forall_cons_iff in Hdocs as [Hdoc _].
    apply bind_ext; [ now apply lift_rangeMap_single | reflexivity ].
  - unfold dynamodb.renderUpdateItem. cbv zeta.
    apply bind_ext; [ | reflexivity ].
    apply foldM_ext. intros [setExprs removeExprs] u st Hin.
    pose proof (proj1 (List.Forall_forall _ _) Hops u Hin) as Hu.
    destruct ((Operator u =? Set_) || (Operator u =? Inc)).
    + apply bind_ext; [ now apply lift_rangeMap_single | reflexivity ].
    + destruct (Operator u =? Unset); [ | reflexivity ].
      apply bind_ext; [ now apply lift_rangeMap_single | reflexivity ].
Qed.
End SingleEntries.

(** ** What a walk yields *)

Section Yields.
Context {S : Type} (ps : S -> list string).

Lemma yields_ret {A} (a : A) : yields ps any (ret a) (Ok []).
Proof. intros st. exists a, st, []. now rewrite app_nil_r. Qed.

Lemma yields_fail {A} (P : A -> S -> Prop) (e : string) :
  yields ps P (fail e) (Err e).
Proof. intros st. reflexivity. Qed.

Lemma yields_perm {A} (P : A -> S -> Prop) (m : M S A) (l l' : list string) :
  Permutation l l' -> yields ps P m (Ok l) -> yields ps P m (Ok l').
Proof.
  intros Hp Hm st. destruct (Hm st) as (a & st' & ns & H1 & H2 & H3 & H4).
  exists a, st', ns. repeat split; auto. now transitivity l.
Qed.

Lemma yields_bind {A B} (P : A -> S -> Prop) (Q : B -> S -> Prop) (m : M S A)
    (k : A -> M S B) (r1 r2 : outcome) :
  yields ps P m r1 -> (forall a, (exists st, P a st) -> yields ps Q (k a) r2) ->
  yields ps Q (bind m k) (andThen r1 r2).
Proof.
  intros Hm Hk. destruct r1 as [l1|e1]; [ | intros st; unfold bind; now rewrite Hm ].
  destruct r2 as [l2|e2]; cbn [andThen yields] in *; intros st; unfold bind;
    destruct (Hm st) as (a & st1 & ns1 & -> & Hps1 & Hp1 & Ha).
  - destruct (Hk a (ex_intro _ st1 Ha) st1) as (b & st2 & ns2 & -> & Hps2 & Hp2 & Hb).
    exists b, st2, (ns1 ++ ns2).
    repeat split; [ | now apply Permutation_app | exact Hb ].
    now rewrite Hps2, Hps1, app_assoc.
  - apply (Hk a (ex_intro _ st1 Ha)).
Qed.

Lemma yields_bind_ok {A B} (P : A -> S -> Prop) (Q : B -> S -> Prop) (m : M S A)
    (k : A -> M S B) (l1 l2 : list string) :
  yields ps P m (Ok l1) ->
  (forall a, (exists st, P a st) -> yields ps Q (k a) (Ok l2)) ->
  yields ps Q (bind m k) (Ok (l1 ++ l2)).
Proof. intros Hm Hk. exact (yields_bind P Q m k (Ok l1) (Ok l2) Hm Hk). Qed.

Lemma yields_mapM {A B} (f : A -> M S B) (l : list A) (rs : list outcome) :
  Forall2 (fun x r => yields ps any (f x) r) l rs ->
  yields ps any (mapM f l) (inTurn rs).
Proof.
  induction 1 as [|x r l rs Hx _ IH]; cbn [mapM inTurn].
  - apply yields_ret.
  - apply (yields_bind any); [ exact Hx | intros y _ ].
    replace (inTurn rs) with (andThen (inTurn rs) (Ok []))
      by (destruct (inTurn rs); cbn; now rewrite ?app_nil_r).
    apply (yields_bind any); [ exact IH | intros ys _ ].
    apply yields_ret.
Qed.

Lemma yields_foldM {A B} (f : B -> A -> M S B) (g : A -> outcome) (l : list A) :
  (forall acc x, In x l -> yields ps any (f acc x) (g x)) ->
  forall acc, yields ps any (foldM f l acc) (inTurn (map g l)).
Proof.
  induction l as [|x l IH]; intros Hf acc; cbn [foldM map inTurn].
  - apply yields_ret.
  - apply (yields_bind any); [ apply Hf; now left | intros acc' _ ].
    apply IH. intros; apply Hf; now right.
Qed.
End Yields.

Lemma inTurn_ok {A} (g : A -> list string) (l : list A) :
  inTurn (map (fun x => Ok (g x)) l) = Ok (flat_map g l).
Proof. induction l as [|x l IH]; cbn; [ reflexivity | now rewrite IH ]. Qed.

Lemma inTurn_all_ok (ls : list (list string)) : inTurn (map Ok ls) = Ok (concat ls).
Proof. induction ls as [|l ls IH]; cbn; [ reflexivity | now rewrite IH ]. Qed.

Lemma Forall_exists_Forall2 {A B} (R : A -> B -> Prop) (l : list A) :
  Forall (fun x => exists y, R x y) l -> exists l', Forall2 R l l'.
Proof.
  induction 1 as [|x l [y Hy] _ [l' IH]]; [ now exists [] | ].
  exists (y :: l'). now constructor.
Qed.

Lemma In_exists_Forall2 {A B} (R : A -> B -> Prop) (l : list A) :
  (forall x, In x l -> exists y, R x y) -> exists l', Forall2 R l l'.
Proof.
  intros H. apply Forall_exists_Forall2, List.Forall_forall. exact H.
Qed.

Lemma yields_mapM_ok {S A B} (ps : S -> list string) (f : A -> M S B)
    (l : list A) (ls : list (list string)) :
  Forall2 (fun x names => yields ps any (f x) (Ok names)) l ls ->
  yields ps any (mapM f l) (Ok (concat ls)).
Proof.
  intros H. rewrite <- inTurn_all_ok. apply yields_mapM.
  induction H; constructor; assumption.
Qed.

(** A loop over the entries of a map, visited in a fair order. *)
Lemma yields_entries {S B E} (ps : S -> list string) (rng : M S (list E))
    (entries : list E) (body : B -> E -> M S B) (g : E -> list string) (acc : B) :
  yields ps (fun l _ => Permutation l entries) rng (Ok []) ->
  (forall acc x, yields ps any (body acc x) (Ok (g x))) ->
  yields ps any (l <- rng ;; foldM body l acc) (Ok (flat_map g entries)).
Proof.
  intros Hr Hb.
  apply (yields_bind ps (fun l _ => Permutation l entries) any _ _ (Ok []) (Ok _) Hr).
  intros l [_ Hl]. apply (yields_perm ps any _ (flat_map g l)).
  - now apply Permutation_flat_map.
  - rewrite <- inTurn_ok. apply yields_foldM. intros; apply Hb.
Qed.

Lemma yields_emit (n : string) : yields params any (emit n) (Ok [n]).
Proof.
  intros st. exists tt, (mkWalk (params st ++ [n]) (loops st)), [n].
  now repeat split.
Qed.

Lemma yields_rangeMap `{Countable K} {V} (o : MapOrder) (m : gmap K V) :
  fair o ->
  yields params (fun l _ => Permutation l (map_to_list m)) (rangeMap o m) (Ok []).
Proof.
  intros Ho st. eexists _, _, [].
  repeat split; [ cbn; now rewrite app_nil_r | auto | apply Ho ].
Qed.

(** The result of a walk that ends in [toResult], from a state without
    parameters. *)
Lemma conforms_run {S} (ps : S -> list string) (m : M S QueryResult) (r : outcome)
    (st : S) :
  ps st = [] -> yields ps (carries ps) m r ->
  conforms (match m st with Ok (q, _) => Ok q | Err e => Err e end) r.
Proof.
  intros Hst Hm. destruct r as [canon|e]; cbn in *.
  - destruct (Hm st) as (q & st' & ns & -> & Hps & Hp & Hq).
    unfold carries in Hq. now rewrite Hq, Hps, Hst.
  - now rewrite Hm.
Qed.

Lemma conforms_same (r1 r2 : result QueryResult) (r : outcome) :
  conforms r1 r -> conforms r2 r -> sameUpToOrder r1 r2.
Proof.
  destruct r as [canon|e], r1 as [q1|e1], r2 as [q2|e2]; cbn; try tauto.
  - intros H1 H2. now rewrite H1, H2.
  - congruence.
Qed.

Lemma sameUpToOrder_refl (r : result QueryResult) : sameUpToOrder r r.
Proof. destruct r; cbn; reflexivity. Qed.

Lemma FilterItem_nested_ind (P : FilterItem -> Prop) :
  P NilFilter ->
  (forall field operator value, P (FilterCondition field operator value)) ->
  (forall logic conditions, Forall P conditions -> P (FilterGroup logic conditions)) ->
  (forall field min max minExclusive maxExclusive,
     P (RangeFilter field min max minExclusive maxExclusive)) ->
  (forall field pattern options, P (RegexFilter field pattern options)) ->
  (forall search language caseSensitive diacriticSensitive,
     P (TextSearchFilter search language caseSensitive diacriticSensitive)) ->
  (forall field operator center radius maxDistance minDistance,
     P (GeoFilter field operator center radius maxDistance minDistance)) ->
  (forall field operator value, P (ArrayFilter field operator value)) ->
  (forall field conditions, Forall P conditions -> P (ElemMatchFilter field conditions)) ->
  (forall field exists_, P (ExistsFilter field exists_)) ->
  forall f, P f.
Proof.
  intros Hnil Hcond Hgroup Hrange Hregex Htext Hgeo Harray Helem Hexists.
  fix IH 1.
  intros [ | | logic cs | | | | | | field cs | ];
    [ exact Hnil | apply Hcond | apply Hgroup | apply Hrange | apply Hregex
    | apply Htext | apply Hgeo | apply Harray | apply Helem | apply Hexists ].
  - induction cs as [|c cs IHcs]; constructor; [ apply IH | exact IHcs ].
  - induction cs as [|c cs IHcs]; constructor; [ apply IH | exact IHcs ].
Qed.

Lemma Expression_nested_ind (P : Expression -> Prop) :
  P NilExpression ->
  (forall field, P (FieldExpression field)) ->
  (forall value, P (LiteralExpression value)) ->
  (forall operator args, Forall P args -> P (OperatorExpression operator args)) ->
  (forall i t e, P i -> P t -> P e -> P (ConditionalExpression i t e)) ->
  forall e, P e.
Proof.
  intros Hnil Hfield Hlit Hop Hcond.
  fix IH 1.
  intros [ | | | operator args | i t e ];
    [ exact Hnil | apply Hfield | apply Hlit | apply Hop | apply Hcond; apply IH ].
  induction args as [|a args IHargs]; constructor; [ apply IH | exact IHargs ].
Qed.

(** A walk of known shape: its outcome is found by following it. *)
Ltac follow :=
  repeat first
    [ apply yields_ret
    | apply yields_fail
    | apply yields_emit
    | match goal with
      | |- yields _ _ (bind _ _) (Ok _) =>
          eapply (yields_bind_ok _ any any); [ | intros ? _ ]
      | |- yields _ _ (bind _ _) _ =>
          eapply (yields_bind _ any any); [ | intros ? _ ]
      end ].

Lemma Forall2_yields_orders {A B S} (ps : S -> list string)
    (f : MapOrder -> A -> M S B) (l : list A) (rs : list outcome) (o : MapOrder) :
  fair o ->
  Forall2 (fun x r => forall o, fair o -> yields ps any (f o x) r) l rs ->
  Forall2 (fun x r => yields ps any (f o x) r) l rs.
Proof. intros Ho H. induction H; constructor; auto. Qed.

Lemma yields_entries_then {S B C E} (ps : S -> list string) (Q : C -> S -> Prop)
    (rng : M S (list E)) (entries : list E) (body : B -> E -> M S B)
    (g : E -> list string) (acc : B) (k : B -> M S C) (r : outcome) :
  yields ps (fun l _ => Permutation l entries) rng (Ok []) ->
  (forall acc x, yields ps any (body acc x) (Ok (g x))) ->
  (forall b, yields ps Q (k b) r) ->
  yields ps Q (l <- rng ;; b <- foldM body l acc ;; k b)
    (andThen (Ok (flat_map g entries)) r).
Proof.
  intros Hr Hb Hk.
  assert (Hloop : forall l, Permutation l entries ->
            yields ps any (foldM body l acc) (Ok (flat_map g entries))).
  { intros l Hl. apply (yields_perm ps any _ (flat_map g l)).
    - now apply Permutation_flat_map.
    - rewrite <- inTurn_ok. apply yields_foldM. intros; apply Hb. }
  destruct r as [names|e].
  - apply (yields_bind ps (fun l _ => Permutation l entries) Q _ _ (Ok [])
             (Ok (flat_map g entries ++ names)) Hr).
    intros l [_ Hl].
    apply (yields_bind_ok ps any Q); [ now apply Hloop | intros; apply Hk ].
  - apply (yields_bind ps (fun l _ => Permutation l entries) Q _ _ (Ok []) (Err e) Hr).
    intros l [_ Hl].
    apply (yields_bind ps any Q _ _ (Ok (flat_map g entries)) (Err e));
      [ now apply Hloop | intros; apply Hk ].
Qed.

(** *** MongoDB *)

Lemma mongodb_toResult_yields (query : gmap string JValue) :
  yields params (carries params) (mongodb.toResult query) (Ok []).
Proof.
  intros st. eexists _, st, []. unfold mongodb.toResult, carries.
  repeat split; [ now rewrite app_nil_r | constructor ].
Qed.

Lemma mongodb_renderFilter_yields (f : FilterItem) :
  exists r, yields params any (mongodb.renderFilter f) r.
Proof.
  induction f as [ | field operator value | logic cs IH
                 | field [mn|] [mx|] minExclusive maxExclusive
                 | field pattern [opts|]
                 | search [lang|] caseSensitive diacriticSensitive
                 | field operator center [radius|] maxDistance minDistance
                 | field operator value | field cs IH | field exists_ ]
    using FilterItem_nested_ind; cbn [mongodb.renderFilter];
    try (eexists; follow; fail).
  - destruct (negb (Param_Name value =? "")); eexists; follow.
  - apply Forall_exists_Forall2 in IH as [rs Hrs].
    eexists. eapply (yields_bind _ any any); [ apply yields_mapM, Hrs | intros ? _ ].
    follow.
  - apply Forall_exists_Forall2 in IH as [rs Hrs].
    eexists. eapply (yields_bind _ any any); [ apply yields_mapM, Hrs | intros ? _ ].
    follow.
Qed.

Lemma mongodb_renderExpression_yields (e : Expression) :
  yields params any (mongodb.renderExpression e) (Ok (exprNames e)).
Proof.
  induction e as [ | field | value | operator args IH | i t e Hi Ht He ]
    using Expression_nested_ind; cbn [mongodb.renderExpression exprNames].
  - apply yields_ret.
  - apply yields_ret.
  - eapply yields_perm; [ | follow ]. reflexivity.
  - eapply yields_perm;
      [ | eapply (yields_bind_ok _ any any); [ | intros ? _; apply yields_ret ] ].
    + rewrite app_nil_r. reflexivity.
    + rewrite <- inTurn_ok. apply yields_mapM.
      induction IH; constructor; assumption.
  - eapply yields_perm;
      [ | eapply (yields_bind_ok _ any any); [ exact Hi | intros ? _ ];
          eapply (yields_bind_ok _ any any); [ exact Ht | intros ? _ ];
          eapply (yields_bind_ok _ any any); [ exact He | intros ? _ ];
          apply yields_ret ].
    now rewrite app_nil_r.
Qed.

Lemma mongodb_setFilter_yields (a : DocumentAST) :
  exists r, forall orElse query,
    yields params any (mongodb.setFilter a orElse query) r.
Proof.
  unfold mongodb.setFilter. destruct (isNil (FilterClause a)); cbn [negb].
  - exists (Ok []). intros [v|] query; apply yields_ret.
  - destruct (mongodb_renderFilter_yields (FilterClause a)) as [r Hr].
    eexists. intros orElse query.
    eapply (yields_bind _ any any); [ exact Hr | intros ? _ ]. follow.
Qed.

Lemma mongodb_renderDocument_yields (o : MapOrder) (doc : Document) :
  fair o ->
  yields params any (mongodb.renderDocument o doc)
    (Ok (flat_map (fun e : Field * Param => [Param_Name (snd e)] ++ [])
           (map_to_list (Document_Fields doc)) ++ [])).
Proof.
  intros Ho. unfold mongodb.renderDocument.
  apply (yields_entries_then params any _ _ _ _ _ _ (Ok [])).
  - now apply yields_rangeMap.
  - intros acc [field value]. cbn [snd]. follow.
  - intros b. apply yields_ret.
Qed.

Lemma mongodb_renderUpdateOps_yields (ops : list UpdateOperation) :
  exists r, forall o, fair o -> yields params any (mongodb.renderUpdateOps o ops) r.
Proof.
  eexists. intros o Ho. unfold mongodb.renderUpdateOps.
  eapply (yields_bind _ any any); [ | intros ? _; apply yields_ret ].
  apply (yields_foldM params _
           (fun op =>
              Ok (flat_map
                    (fun e : Field * Param =>
                       if negb (Param_Name (snd e) =? "")
                       then [Param_Name (snd e)] ++ [] else [])
                    (map_to_list (Fields op)) ++ []))).
  intros acc op _.
  apply (yields_entries_then params any _ _ _ _ _ _ (Ok [])).
  - now apply yields_rangeMap.
  - intros fields [field value]. cbn [snd].
    destruct (negb (Param_Name value =? "")); follow.
  - intros b. apply yields_ret.
Qed.

Lemma mongodb_renderStageValue_yields (v : PaginationValue) :
  exists r, yields params any (mongodb.renderStageValue v) r.
Proof.
  unfold mongodb.renderStageValue.
  destruct (Static v), (Pagination_Param v); eexists; follow.
Qed.

Lemma mongodb_renderPipelineStage_yields (stage : PipelineStage) :
  exists r, forall o, fair o ->
    yields params any (mongodb.renderPipelineStage o stage) r.
Proof.
  destruct stage as [ | f | p c | id accs | sorts | limit | skip | path idx keep
                    | from lf ff as_ pl lt | fields | root | fieldName | facets
                    | gb bs df out ];
    cbn [mongodb.renderPipelineStage];
    try (eexists; intros o Ho; follow; fail).
  - destruct (mongodb_renderFilter_yields f) as [r Hr].
    eexists. intros o Ho.
    eapply (yields_bind _ any any); [ exact Hr | intros ? _ ]. follow.
  - eexists. intros o Ho.
    eapply (yields_bind _ any any);
      [ apply mongodb_renderExpression_yields | intros ? _ ].
    apply (yields_entries_then params any _ (map_to_list accs) _
             (fun e : string * Accumulator => exprNames (Expr (snd e)) ++ [])
             _ _ (Ok [])).
    + now apply yields_rangeMap.
    + intros acc [n x]. cbn [snd].
      eapply (yields_bind_ok _ any any);
        [ apply mongodb_renderExpression_yields | intros ? _; apply yields_ret ].
    + intros b. apply yields_ret.
  - destruct (mongodb_renderStageValue_yields limit) as [r Hr].
    eexists. intros o Ho.
    eapply (yields_bind _ any any); [ exact Hr | intros ? _ ]. follow.
  - destruct (mongodb_renderStageValue_yields skip) as [r Hr].
    eexists. intros o Ho.
    eapply (yields_bind _ any any); [ exact Hr | intros ? _ ]. follow.
  - eexists. intros o Ho.
    apply (yields_entries_then params any _ (map_to_list fields) _
             (fun e : string * Expression => exprNames (snd e) ++ [])
             _ _ (Ok [])).
    + now apply yields_rangeMap.
    + intros acc [n x]. cbn [snd].
      eapply (yields_bind_ok _ any any);
        [ apply mongodb_renderExpression_yields | intros ? _; apply yields_ret ].
    + intros b. apply yields_ret.
Qed.

Lemma mongodb_renderInsert_yields (a : DocumentAST) :
  exists r, forall o, fair o ->
    yields params (carries params) (mongodb.renderInsert o a) r.
Proof.
  unfold mongodb.renderInsert. destruct (Documents a) as [|doc docs].
  - eexists. intros o Ho.
    eapply (yields_bind _ any); [ apply yields_ret | intros ? _ ].
    apply mongodb_toResult_yields.
  - eexists. intros o Ho.
    eapply (yields_bind _ any); [ | intros ? _; apply mongodb_toResult_yields ].
    eapply (yields_bind _ any any);
      [ now apply mongodb_renderDocument_yields | intros ? _; apply yields_ret ].
Qed.

Lemma mongodb_renderInsertMany_yields (a : DocumentAST) :
  exists r, forall o, fair o ->
    yields params (carries params) (mongodb.renderInsertMany o a) r.
Proof.
  unfold mongodb.renderInsertMany. eexists. intros o Ho.
  eapply (yields_bind _ any); [ | intros ? _; apply mongodb_toResult_yields ].
  apply (yields_mapM_ok params _ _
           (map (fun doc =>
                   flat_map (fun e : Field * Param => [Param_Name (snd e)] ++ [])
                     (map_to_list (Document_Fields doc)) ++ [])
                (Documents a))).
  induction (Documents a) as [|doc docs IH]; constructor; [ | exact IH ].
  now apply mongodb_renderDocument_yields.
Qed.

Lemma mongodb_renderUpdate_yields (a : DocumentAST) :
  exists r, forall o, fair o ->
    yields params (carries params) (mongodb.renderUpdate o a) r.
Proof.
  destruct (mongodb_setFilter_yields a) as [rf Hf].
  destruct (mongodb_renderUpdateOps_yields (UpdateOps a)) as [ru Hu].
  unfold mongodb.renderUpdate. eexists. intros o Ho.
  eapply (yields_bind _ any); [ apply Hf | intros ? _ ].
  eapply (yields_bind _ any); [ now apply Hu | intros ? _ ].
  apply mongodb_toResult_yields.
Qed.

Lemma mongodb_renderAggregate_yields (a : DocumentAST) :
  exists r, forall o, fair o ->
    yields params (carries params) (mongodb.renderAggregate o a) r.
Proof.
  destruct (In_exists_Forall2
              (fun stage r => forall o, fair o ->
                 yields params any (mongodb.renderPipelineStage o stage) r)
              (Pipeline a)) as [rs Hrs].
  { intros stage _. apply mongodb_renderPipelineStage_yields. }
  unfold mongodb.renderAggregate. eexists. intros o Ho.
  eapply (yields_bind _ any); [ | intros ? _; apply mongodb_toResult_yields ].
  apply yields_mapM.
  exact (Forall2_yields_orders params mongodb.renderPipelineStage _ _ o Ho Hrs).
Qed.

Lemma conforms_exists (res : result QueryResult) : exists r, conforms res r.
Proof.
  destruct res as [q|e]; [ exists (Ok (RequiredParams q)) | exists (Err e) ];
    cbn; reflexivity.
Qed.

Lemma mongodb_Render_conforms (a : DocumentAST) :
  exists r, forall o, fair o -> conforms (mongodb.Render o a) r.
Proof.
  unfold mongodb.Render.
  destruct (Validate a) as [e|]; [ exists (Err ("invalid AST: " +:+ e)); now cbn | ].
  destruct (mongodb_renderInsert_yields a) as [r1 H1].
  destruct (mongodb_renderInsertMany_yields a) as [r2 H2].
  destruct (mongodb_renderUpdate_yields a) as [r3 H3].
  destruct (mongodb_renderAggregate_yields a) as [r4 H4].
  repeat match goal with
         | |- exists r, forall o, fair o -> conforms (if ?c then _ else _) r =>
             destruct c
         end;
    try (match goal with
         | |- exists r, forall o, fair o -> conforms ?res r =>
             destruct (conforms_exists res) as [r Hr]; exists r; intros; exact Hr
         end).
  - exists r1. intros o Ho. apply (conforms_run params); [ reflexivity | now apply H1 ].
  - exists r2. intros o Ho. apply (conforms_run params); [ reflexivity | now apply H2 ].
  - exists r3. intros o Ho. apply (conforms_run params); [ reflexivity | now apply H3 ].
  - exists r3. intros o Ho. apply (conforms_run params); [ reflexivity | now apply H3 ].
  - exists r4. intros o Ho. apply (conforms_run params); [ reflexivity | now apply H4 ].
Qed.

(** *** Firestore *)

Lemma firestore_toResult_yields (query : gmap string JValue) :
  yields params (carries params) (firestore.toResult query) (Ok []).
Proof.
  intros st. eexists _, st, []. unfold firestore.toResult, carries.
  repeat split; [ now rewrite app_nil_r | constructor ].
Qed.

Lemma firestore_renderAdd_yields (a : DocumentAST) :
  exists r, forall o, fair o ->
    yields params (carries params) (firestore.renderAdd o a) r.
Proof.
  unfold firestore.renderAdd. destruct (Documents a) as [|doc docs].
  - eexists. intros o Ho.
    eapply (yields_bind _ any); [ apply yields_ret | intros ? _ ].
    apply firestore_toResult_yields.
  - eexists. intros o Ho.
    eapply (yields_bind _ any); [ | intros ? _; apply firestore_toResult_yields ].
    apply (yields_entries_then params any _ (map_to_list (Document_Fields doc)) _
             (fun e : Field * Param => [Param_Name (snd e)] ++ []) _ _ (Ok [])).
    + now apply yields_rangeMap.
    + intros acc [field value]. cbn [snd]. follow.
    + intros b. apply yields_ret.
Qed.

Lemma firestore_renderUpdate_yields (a : DocumentAST) :
  exists r, forall o, fair o ->
    yields params (carries params) (firestore.renderUpdate o a) r.
Proof.
  unfold firestore.renderUpdate. eexists. intros o Ho.
  eapply (yields_bind _ any); [ | intros ? _; apply firestore_toResult_yields ].
  apply (yields_foldM params _
           (fun op =>
              if negb (Operator op =? Set_) && negb (Operator op =? Unset) then
                Err ("firestore does not support update operator: " +:+ Operator op)
              else
                Ok (flat_map
                      (fun e : Field * Param =>
                         if Operator op =? Unset then []
                         else [Param_Name (snd e)] ++ [])
                      (map_to_list (Fields op))))).
  intros acc op _.
  destruct (negb (Operator op =? Set_) && negb (Operator op =? Unset));
    [ apply yields_fail | ].
  apply yields_entries.
  - now apply yields_rangeMap.
  - intros data [field value]. cbn [snd].
    destruct (Operator op =? Unset); follow.
Qed.

Lemma firestore_Render_conforms (a : DocumentAST) :
  exists r, forall o, fair o -> conforms (firestore.Render o a) r.
Proof.
  unfold firestore.Render.
  destruct (Validate a) as [e|]; [ exists (Err ("invalid AST: " +:+ e)); now cbn | ].
  destruct (firestore_renderAdd_yields a) as [r1 H1].
  destruct (firestore_renderUpdate_yields a) as [r2 H2].
  repeat match goal with
         | |- exists r, forall o, fair o -> conforms (if ?c then _ else _) r =>
             destruct c
         end;
    try (match goal with
         | |- exists r, forall o, fair o -> conforms ?res r =>
             destruct (conforms_exists res) as [r Hr]; exists r; intros; exact Hr
         end).
  - exists r1. intros o Ho. apply (conforms_run params); [ reflexivity | now apply H1 ].
  - exists r2. intros o Ho. apply (conforms_run params); [ reflexivity | now apply H2 ].
Qed.

(** *** CouchDB *)

Lemma couchdb_toResult_yields (query : gmap string JValue) :
  yields params (carries params) (couchdb.toResult query) (Ok []).
Proof.
  intros st. eexists _, st, []. unfold couchdb.toResult, carries.
  repeat split; [ now rewrite app_nil_r | constructor ].
Qed.

Lemma couchdb_buildSelector_yields (f : FilterItem) :
  exists r, yields params any (couchdb.buildSelector f) r.
Proof.
  induction f as [ | field operator value | logic cs IH
                 | field [mn|] [mx|] minExclusive maxExclusive
                 | field pattern opts
                 | search lang caseSensitive diacriticSensitive
                 | field operator center radius maxDistance minDistance
                 | field operator value | field cs IH | field exists_ ]
    using FilterItem_nested_ind; cbn [couchdb.buildSelector];
    try (eexists; follow; fail).
  - destruct (couchdb.mapOperator operator =? ""); eexists; follow.
  - apply Forall_exists_Forall2 in IH as [rs Hrs].
    eexists. eapply (yields_bind _ any any); [ apply yields_mapM, Hrs | intros ? _ ].
    follow.
Qed.

Lemma couchdb_setSelector_yields (a : DocumentAST) :
  exists r, forall orElse query,
    yields params any (couchdb.setSelector a orElse query) r.
Proof.
  unfold couchdb.setSelector. destruct (isNil (FilterClause a)); cbn [negb].
  - exists (Ok []). intros [v|] query; apply yields_ret.
  - destruct (couchdb_buildSelector_yields (FilterClause a)) as [r Hr].
    eexists. intros orElse query.
    eapply (yields_bind _ any any); [ exact Hr | intros ? _ ]. follow.
Qed.

Lemma couchdb_renderInsert_yields (a : DocumentAST) :
  exists r, forall o, fair o ->
    yields params (carries params) (couchdb.renderInsert o a) r.
Proof.
  unfold couchdb.renderInsert. cbv zeta. destruct (Documents a) as [|doc docs].
  - eexists. intros o Ho.
    eapply (yields_bind _ any); [ apply yields_ret | intros ? _ ].
    apply couchdb_toResult_yields.
  - eexists. intros o Ho.
    eapply (yields_bind _ any); [ | intros ? _; apply couchdb_toResult_yields ].
    apply (yields_entries_then params any _ (map_to_list (Document_Fields doc)) _
             (fun e : Field * Param => [Param_Name (snd e)] ++ []) _ _ (Ok [])).
    + now apply yields_rangeMap.
    + intros acc [field value]. cbn [snd]. follow.
    + intros b. apply yields_ret.
Qed.

Lemma couchdb_renderUpdate_yields (a : DocumentAST) :
  exists r, forall o, fair o ->
    yields params (carries params) (couchdb.renderUpdate o a) r.
Proof.
  destruct (couchdb_setSelector_yields a) as [rs Hs].
  unfold couchdb.renderUpdate. eexists. intros o Ho.
  eapply (yields_bind _ any); [ apply Hs | intros ? _ ].
  eapply (yields_bind _ any); [ | intros ? _; apply couchdb_toResult_yields ].
  apply (yields_foldM params _
           (fun op =>
              if negb (Operator op =? Set_) then
                Err "CouchDB only supports $set updates"
              else
                Ok (flat_map (fun e : Field * Param => [Param_Name (snd e)] ++ [])
                      (map_to_list (Fields op))))).
  intros acc op _.
  destruct (negb (Operator op =? Set_)); [ apply yields_fail | ].
  apply yields_entries.
  - now apply yields_rangeMap.
  - intros data [field value]. cbn [snd]. follow.
Qed.

Lemma couchdb_Render_conforms (a : DocumentAST) :
  exists r, forall o, fair o -> conforms (couchdb.Render o a) r.
Proof.
  unfold couchdb.Render.
  destruct (Validate a) as [e|]; [ exists (Err ("invalid AST: " +:+ e)); now cbn | ].
  destruct (couchdb_renderInsert_yields a) as [r1 H1].
  destruct (couchdb_renderUpdate_yields a) as [r2 H2].
  repeat match goal with
         | |- exists r, forall o, fair o -> conforms (if ?c then _ else _) r =>
             destruct c
         end;
    try (match goal with
         | |- exists r, forall o, fair o -> conforms ?res r =>
             destruct (conforms_exists res) as [r Hr]; exists r; intros; exact Hr
         end).
  - exists r1. intros o Ho. apply (conforms_run params); [ reflexivity | now apply H1 ].
  - exists r2. intros o Ho. apply (conforms_run params); [ reflexivity | now apply H2 ].
Qed.

(** *** DynamoDB *)

Lemma yields_lift {A} (P : A -> Walk -> Prop) (m : M Walk A) (r : outcome) :
  yields params P m r ->
  yields scopeParams (fun a st => P a (dynamodb.walk st)) (dynamodb.lift m) r.
Proof.
  destruct r as [canon|e]; cbn; intros Hm st; unfold dynamodb.lift.
  - destruct (Hm (dynamodb.walk st)) as (a & w & ns & -> & Hps & Hp & Ha).
    eexists a, _, ns. repeat split; assumption.
  - now rewrite Hm.
Qed.

Lemma yields_lift_rangeMap `{Countable K} {V} (o : MapOrder) (m : gmap K V) :
  fair o ->
  yields scopeParams (fun l _ => Permutation l (map_to_list m))
    (dynamodb.lift (rangeMap o m)) (Ok []).
Proof. intros Ho. exact (yields_lift _ _ _ (yields_rangeMap o m Ho)). Qed.

Lemma yields_lift_emit (n : string) :
  yields scopeParams any (dynamodb.lift (emit n)) (Ok [n]).
Proof. exact (yields_lift _ _ _ (yields_emit n)). Qed.

Lemma yields_getName (field : string) :
  yields scopeParams any (dynamodb.getName field) (Ok []).
Proof.
  intros st. eexists _, _, []. unfold dynamodb.getName.
  repeat split; [ unfold scopeParams; cbn; now rewrite app_nil_r | constructor ].
Qed.

Lemma yields_getValue (param : string) :
  yields scopeParams any (dynamodb.getValue param) (Ok [param]).
Proof.
  intros st. eexists _, _, [param]. unfold dynamodb.getValue.
  repeat split; reflexivity.
Qed.

Lemma yields_nonEmpty (m : dynamodb.Scope -> gmap string string) :
  yields scopeParams any (dynamodb.nonEmpty m) (Ok []).
Proof.
  intros st. eexists _, st, []. unfold dynamodb.nonEmpty.
  repeat split; [ now rewrite app_nil_r | constructor ].
Qed.

Lemma dynamodb_toResult_yields (hasNames hasValues : bool)
    (query : gmap string JValue) :
  yields scopeParams (carries scopeParams)
    (dynamodb.toResult hasNames hasValues query) (Ok []).
Proof.
  intros st. eexists _, st, []. unfold dynamodb.toResult, carries.
  repeat split; [ now rewrite app_nil_r | constructor ].
Qed.

Lemma dynamodb_renderPutItem_yields (a : DocumentAST) :
  exists r, forall o, fair o ->
    yields scopeParams (carries scopeParams) (dynamodb.renderPutItem o a) r.
Proof.
  unfold dynamodb.renderPutItem. cbv zeta. destruct (Documents a) as [|doc docs].
  - eexists. intros o Ho.
    eapply (yields_bind _ any); [ apply yields_ret | intros ? _ ].
    apply dynamodb_toResult_yields.
  - eexists. intros o Ho.
    eapply (yields_bind _ any); [ | intros ? _; apply dynamodb_toResult_yields ].
    apply (yields_entries_then scopeParams any _
             (map_to_list (Document_Fields doc)) _
             (fun e : Field * Param => [Param_Name (snd e)] ++ []) _ _ (Ok [])).
    + now apply yields_lift_rangeMap.
    + intros acc [field value]. cbn [snd].
      eapply (yields_bind_ok _ any any);
        [ apply yields_lift_emit | intros ? _; apply yields_ret ].
    + intros b. apply yields_ret.
Qed.

Lemma dynamodb_renderUpdateItem_yields (a : DocumentAST) :
  exists r, forall o, fair o ->
    yields scopeParams (carries scopeParams) (dynamodb.renderUpdateItem o a) r.
Proof.
  unfold dynamodb.renderUpdateItem. cbv zeta. eexists. intros o Ho.
  eapply (yields_bind _ any);
    [ | intros [setExprs removeExprs] _;
        eapply (yields_bind _ any); [ apply yields_nonEmpty | intros ? _ ];
        eapply (yields_bind _ any); [ apply yields_nonEmpty | intros ? _ ];
        apply dynamodb_toResult_yields ].
  apply (yields_foldM scopeParams _
           (fun op =>
              if (Operator op =? Set_) || (Operator op =? Inc) then
                Ok (flat_map (fun e : Field * Param => [] ++ [Param_Name (snd e)] ++ [])
                      (map_to_list (Fields op)) ++ [])
              else if Operator op =? Unset then
                Ok (flat_map (fun e : Field * Param => [] ++ [])
                      (map_to_list (Fields op)) ++ [])
              else
                Err ("DynamoDB does not support update operator: " +:+ Operator op))).
  intros [setExprs removeExprs] op _.
  destruct ((Operator op =? Set_) || (Operator op =? Inc)).
  - apply (yields_entries_then scopeParams any _ _ _ _ _ _ (Ok [])).
    + now apply yields_lift_rangeMap.
    + intros acc [field value]. cbn [snd].
      eapply (yields_bind_ok _ any any); [ apply yields_getName | intros ? _ ].
      eapply (yields_bind_ok _ any any); [ apply yields_getValue | intros ? _ ].
      destruct (Operator op =? Inc); apply yields_ret.
    + intros b. apply yields_ret.
  - destruct (Operator op =? Unset); [ | apply yields_fail ].
    apply (yields_entries_then scopeParams any _ _ _ _ _ _ (Ok [])).
    + now apply yields_lift_rangeMap.
    + intros acc [field value].
      eapply (yields_bind_ok _ any any);
        [ apply yields_getName | intros ? _; apply yields_ret ].
    + intros b. apply yields_ret.
Qed.

Lemma dynamodb_Render_conforms (d : dynamodb.Renderer) (a : DocumentAST) :
  exists r, forall o, fair o -> conforms (dynamodb.Render d o a) r.
Proof.
  unfold dynamodb.Render.
  destruct (Validate a) as [e|]; [ exists (Err ("invalid AST: " +:+ e)); now cbn | ].
  destruct (dynamodb_renderPutItem_yields a) as [r1 H1].
  destruct (dynamodb_renderUpdateItem_yields a) as [r2 H2].
  repeat match goal with
         | |- exists r, forall o, fair o -> conforms (if ?c then _ else _) r =>
             destruct c
         end;
    try (match goal with
         | |- exists r, forall o, fair o -> conforms ?res r =>
             destruct (conforms_exists res) as [r Hr]; exists r; intros; exact Hr
         end).
  - exists r1. intros o Ho.
    apply (conforms_run scopeParams); [ reflexivity | now apply H1 ].
  - exists r2. intros o Ho.
    apply (conforms_run scopeParams); [ reflexivity | now apply H2 ].
Qed.

(** Every provided renderer returns, under every fair order, the same
    error or the same names. *)
Lemma Render_conforms (r : docql.Renderer) (a : DocumentAST) :
  provided r ->
  exists out, forall o, fair o -> conforms (docql.Render r o a) out.
Proof.
  intros [ | d | | ]; cbn [docql.Render mongodb.New dynamodb.renderer
                          firestore.New couchdb.New].
  - apply mongodb_Render_conforms.
  - apply dynamodb_Render_conforms.
  - apply firestore_Render_conforms.
  - apply couchdb_Render_conforms.
Qed.

(** ** Two render calls side by side *)

Section Alike.
Context {S : Type} (RS : S -> S -> Prop).

Lemma alike_ret {A} (RA : A -> A -> Prop) (a1 a2 : A) :
  RA a1 a2 -> alike RS RA (ret a1) (ret a2).
Proof. intros Ha st1 st2 Hst. cbn. now split. Qed.

Lemma alike_fail {A} (RA : A -> A -> Prop) (e : string) :
  alike RS RA (fail e) (fail e).
Proof. intros st1 st2 Hst. reflexivity. Qed.

Lemma alike_bind {A B} (RA : A -> A -> Prop) (RB : B -> B -> Prop)
    (m1 m2 : M S A) (k1 k2 : A -> M S B) :
  alike RS RA m1 m2 ->
  (forall a1 a2, RA a1 a2 -> alike RS RB (k1 a1) (k2 a2)) ->
  alike RS RB (bind m1 k1) (bind m2 k2).
Proof.
  intros Hm Hk st1 st2 Hst. unfold bind. specialize (Hm st1 st2 Hst).
  destruct (m1 st1) as [[a1 st1']|e1], (m2 st2) as [[a2 st2']|e2];
    try contradiction; [ | exact Hm ].
  destruct Hm as [Ha Hst']. now apply Hk.
Qed.

Lemma alike_weaken {A} (RA RA' : A -> A -> Prop) (m1 m2 : M S A) :
  (forall a1 a2, RA a1 a2 -> RA' a1 a2) ->
  alike RS RA m1 m2 -> alike RS RA' m1 m2.
Proof.
  intros Hw Hm st1 st2 Hst. specialize (Hm st1 st2 Hst).
  destruct (m1 st1) as [[a1 st1']|e1], (m2 st2) as [[a2 st2']|e2]; auto.
  destruct Hm. split; auto.
Qed.

Lemma alike_mapM {A B} (RB : B -> B -> Prop) (f1 f2 : A -> M S B) (l : list A) :
  (forall x, In x l -> alike RS RB (f1 x) (f2 x)) ->
  alike RS (Forall2 RB) (mapM f1 l) (mapM f2 l).
Proof.
  induction l as [|x l IH]; intros Hf; cbn [mapM].
  - apply alike_ret. constructor.
  - apply (alike_bind RB); [ apply Hf; now left | intros y1 y2 Hy ].
    apply (alike_bind (Forall2 RB));
      [ apply IH; intros; apply Hf; now right | intros ys1 ys2 Hys ].
    apply alike_ret. now constructor.
Qed.

Lemma alike_foldM2 {A B} (RE : A -> A -> Prop) (RB : B -> B -> Prop)
    (f1 f2 : B -> A -> M S B) (l1 l2 : list A) :
  Forall2 RE l1 l2 ->
  (forall b1 b2 x1 x2, RE x1 x2 -> RB b1 b2 -> alike RS RB (f1 b1 x1) (f2 b2 x2)) ->
  forall b1 b2, RB b1 b2 -> alike RS RB (foldM f1 l1 b1) (foldM f2 l2 b2).
Proof.
  intros Hl Hf. induction Hl as [|x1 x2 l1 l2 Hx _ IH]; intros b1 b2 Hb;
    cbn [foldM].
  - now apply alike_ret.
  - apply (alike_bind RB); [ now apply Hf | exact IH ].
Qed.

Lemma alike_foldM {A B} (RB : B -> B -> Prop) (f1 f2 : B -> A -> M S B)
    (l : list A) :
  (forall b1 b2 x, In x l -> RB b1 b2 -> alike RS RB (f1 b1 x) (f2 b2 x)) ->
  forall b1 b2, RB b1 b2 -> alike RS RB (foldM f1 l b1) (foldM f2 l b2).
Proof.
  induction l as [|x l IH]; intros Hf b1 b2 Hb; cbn [foldM].
  - now apply alike_ret.
  - apply (alike_bind RB); [ apply Hf; [ now left | exact Hb ] | ].
    intros. apply IH; [ | assumption ]. intros; apply Hf; [ now right | assumption ].
Qed.
End Alike.

Lemma sameIf_Forall2 {A} (J : Prop) (l1 l2 : list A) :
  Forall2 (sameIf J) l1 l2 -> sameIf J l1 l2.
Proof.
  intros H HJ. induction H as [|x1 x2 l1 l2 Hx _ IH]; [ reflexivity | ].
  now rewrite (Hx HJ), IH.
Qed.

Lemma sameIf_refl {A} (J : Prop) (a : A) : sameIf J a a.
Proof. intros _. reflexivity. Qed.

(** Lists with the same number of elements, all related. *)
Lemma Forall2_all_pairs {A} (R : A -> A -> Prop) (l1 l2 : list A) :
  length l1 = length l2 ->
  (forall x y, In x l1 -> In y l2 -> R x y) -> Forall2 R l1 l2.
Proof.
  revert l2. induction l1 as [|x l1 IH]; intros [|y l2] Hlen HR;
    try discriminate; constructor.
  - apply HR; now left.
  - apply IH; [ now injection Hlen | ]. intros; apply HR; now right.
Qed.

(** A loop that puts every element into its accumulator whatever the
    state, and leaves the state as it is but for the names it appends. *)
Section Closed.
Context {S E B : Type} (grow : S -> list string -> S).
Hypothesis grow_app : forall s l1 l2, grow (grow s l1) l2 = grow s (l1 ++ l2).
Hypothesis grow_nil : forall s, grow s [] = s.

Lemma foldM_closed (body : B -> E -> M S B) (ins : E -> B -> B)
    (names : E -> list string) (l : list E) :
  (forall acc e st, body acc e st = Ok (ins e acc, grow st (names e))) ->
  forall acc st,
    foldM body l acc st
    = Ok (fold_left (fun acc e => ins e acc) l acc, grow st (flat_map names l)).
Proof.
  intros Hb. induction l as [|x l IH]; intros acc st; cbn [foldM fold_left flat_map].
  - unfold ret. now rewrite grow_nil.
  - unfold bind. rewrite Hb, IH. now rewrite grow_app.
Qed.
End Closed.

Lemma fold_left_perm {E B} (ins : E -> B -> B) (l1 l2 : list E) :
  Permutation l1 l2 ->
  (forall x y b, In x l1 -> In y l1 -> ins x (ins y b) = ins y (ins x b)) ->
  forall b, fold_left (fun acc e => ins e acc) l1 b
            = fold_left (fun acc e => ins e acc) l2 b.
Proof.
  induction 1 as [|x l1 l2 Hp IH|x y l|l1 l2 l3 Hp1 IH1 Hp2 IH2]; intros Hc b.
  - reflexivity.
  - cbn. apply IH. intros; apply Hc; now right.
  - cbn. f_equal. apply Hc; [ right; now left | now left ].
  - rewrite IH1 by exact Hc. apply IH2.
    intros x y b' Hx Hy. apply Hc; eapply Permutation_in;
      try (apply Permutation_sym; exact Hp1); assumption.
Qed.

Lemma flat_map_perm_same {E} (g : E -> list string) (l1 l2 : list E) :
  Permutation l1 l2 ->
  (forall x y, In x l1 -> In y l1 -> g x = g y) ->
  flat_map g l1 = flat_map g l2.
Proof.
  induction 1 as [|x l1 l2 Hp IH|x y l|l1 l2 l3 Hp1 IH1 Hp2 IH2]; intros Hg.
  - reflexivity.
  - cbn. f_equal. apply IH. intros; apply Hg; now right.
  - cbn. rewrite (Hg y x); [ reflexivity | now left | right; now left ].
  - rewrite IH1 by exact Hg. apply IH2.
    intros x y Hx Hy. apply Hg; eapply Permutation_in;
      try (apply Permutation_sym; exact Hp1); assumption.
Qed.

(** Entries written into a JSON object: the object does not depend on
    their order once no key is written with two values. *)
Lemma insert_twice_commute (k1 k2 : string) (v1 v2 : JValue)
    (m : gmap string JValue) :
  (k1 = k2 -> v1 = v2) -> <[k1 := v1]> (<[k2 := v2]> m) = <[k2 := v2]> (<[k1 := v1]> m).
Proof.
  intros H. destruct (decide (k1 = k2)) as [->|Hne].
  - now rewrite (H eq_refl).
  - now apply insert_insert_ne.
Qed.

Lemma more_app (st : Walk) (l1 l2 : list string) :
  more (more st l1) l2 = more st (l1 ++ l2).
Proof. unfold more. cbn. now rewrite app_assoc. Qed.

Lemma more_nil (st : Walk) : more st [] = st.
Proof. destruct st. unfold more. cbn. now rewrite app_nil_r. Qed.

Lemma entries_same_key `{Countable K} {V} (m : gmap K V) (e1 e2 : K * V) :
  In e1 (map_to_list m) -> In e2 (map_to_list m) -> e1.1 = e2.1 -> e1 = e2.
Proof.
  destruct e1 as [k1 v1], e2 as [k2 v2]. cbn [fst].
  intros H1 H2 <-.
  apply list_elem_of_In, elem_of_map_to_list in H1.
  apply list_elem_of_In, elem_of_map_to_list in H2.
  congruence.
Qed.

Lemma onePerPath_entries (m : gmap Field Param) (e1 e2 : Field * Param) :
  onePerPath m -> In e1 (map_to_list m) -> In e2 (map_to_list m) ->
  Path e1.1 = Path e2.1 -> Param_Name e1.2 = Param_Name e2.2.
Proof.
  destruct e1 as [f1 p1], e2 as [f2 p2]. cbn [fst snd].
  intros Hm H1 H2. apply (Hm f1 f2 p1 p2).
  - now apply elem_of_map_to_list, list_elem_of_In.
  - now apply elem_of_map_to_list, list_elem_of_In.
Qed.

Lemma oneName_entries (m : gmap Field Param) (e1 e2 : Field * Param) :
  oneName m -> In e1 (map_to_list m) -> In e2 (map_to_list m) ->
  Param_Name e1.2 = Param_Name e2.2.
Proof.
  destruct e1 as [f1 p1], e2 as [f2 p2]. cbn [fst snd].
  intros Hm H1 H2. apply (Hm f1 f2 p1 p2).
  - now apply elem_of_map_to_list, list_elem_of_In.
  - now apply elem_of_map_to_list, list_elem_of_In.
Qed.

Section Twice.
Variables J P : Prop.

Lemma walksAlike_more (st1 st2 : Walk) (ns1 ns2 : list string) :
  walksAlike P st1 st2 -> (P -> ns1 = ns2) ->
  walksAlike P (more st1 ns1) (more st2 ns2).
Proof. intros Hst Hns p. cbn. now rewrite (Hst p), (Hns p). Qed.

Lemma alike_emit (n : string) : alike (walksAlike P) eq (emit n) (emit n).
Proof.
  intros st1 st2 Hst. cbn. split; [ reflexivity | ].
  intros p. cbn. now rewrite (Hst p).
Qed.

Lemma alike_rangeMap `{Countable K} {V} (o1 o2 : MapOrder) (m : gmap K V) :
  fair o1 -> fair o2 ->
  alike (walksAlike P) (entriesOf (map_to_list m)) (rangeMap o1 m) (rangeMap o2 m).
Proof.
  intros H1 H2 st1 st2 Hst. cbn. split; [ split; [ apply H1 | apply H2 ] | ].
  exact Hst.
Qed.

(** A walk that always ends with one value and appends one list of names. *)
Lemma alike_closed {A} (m : M Walk A) (v : A) (ns : list string) :
  (forall st, m st = Ok (v, more st ns)) -> alike (walksAlike P) eq m m.
Proof.
  intros Hm st1 st2 Hst. rewrite !Hm. split; [ reflexivity | ].
  now apply walksAlike_more.
Qed.

(** The loop over the entries of a map that are written into an object,
    for a state [S] that grows by the names appended. *)
Section Entries.
Context {S E : Type} (RS : S -> S -> Prop) (grow : S -> list string -> S).
Hypothesis grow_app : forall s l1 l2, grow (grow s l1) l2 = grow s (l1 ++ l2).
Hypothesis grow_nil : forall s, grow s [] = s.
Hypothesis RS_grow :
  forall st1 st2 ns1 ns2,
    RS st1 st2 -> (P -> ns1 = ns2) -> RS (grow st1 ns1) (grow st2 ns2).

Lemma alike_entries_in (body : gmap string JValue -> E -> M S (gmap string JValue))
    (key : E -> string) (val : E -> JValue) (names : E -> list string)
    (entries l1 l2 : list E) :
  entriesOf entries l1 l2 ->
  (forall acc e st, body acc e st = Ok (<[key e := val e]> acc, grow st (names e))) ->
  (J -> forall e1 e2, In e1 entries -> In e2 entries ->
        key e1 = key e2 -> val e1 = val e2) ->
  (P -> forall e1 e2, In e1 entries -> In e2 entries -> names e1 = names e2) ->
  forall acc1 acc2, sameIf J acc1 acc2 ->
  alike RS (sameIf J) (foldM body l1 acc1) (foldM body l2 acc2).
Proof.
  intros [H1 H2] Hb HJ HP acc1 acc2 Hacc st1 st2 Hst.
  rewrite !(foldM_closed grow grow_app grow_nil body
              (fun e acc => <[key e := val e]> acc) names _ Hb).
  split.
  - intros j. rewrite (Hacc j).
    transitivity (fold_left (fun acc e => <[key e := val e]> acc) entries acc2).
    + apply fold_left_perm; [ exact H1 | ]. intros x y b Hx Hy.
      apply insert_twice_commute.
      apply (HJ j); [ exact (Permutation_in _ H1 Hx) | exact (Permutation_in _ H1 Hy) ].
    + symmetry. apply fold_left_perm; [ exact H2 | ]. intros x y b Hx Hy.
      apply insert_twice_commute.
      apply (HJ j); [ exact (Permutation_in _ H2 Hx) | exact (Permutation_in _ H2 Hy) ].
  - apply RS_grow; [ exact Hst | intros p ].
    transitivity (flat_map names entries).
    + apply flat_map_perm_same; [ exact H1 | ]. intros x y Hx Hy.
      apply (HP p); [ exact (Permutation_in _ H1 Hx) | exact (Permutation_in _ H1 Hy) ].
    + symmetry. apply flat_map_perm_same; [ exact H2 | ]. intros x y Hx Hy.
      apply (HP p); [ exact (Permutation_in _ H2 Hx) | exact (Permutation_in _ H2 Hy) ].
Qed.
End Entries.

Lemma alike_entries {E} (body : gmap string JValue -> E -> M Walk (gmap string JValue))
    (key : E -> string) (val : E -> JValue) (names : E -> list string)
    (entries l1 l2 : list E) :
  entriesOf entries l1 l2 ->
  (forall acc e st, body acc e st = Ok (<[key e := val e]> acc, more st (names e))) ->
  (J -> forall e1 e2, In e1 entries -> In e2 entries ->
        key e1 = key e2 -> val e1 = val e2) ->
  (P -> forall e1 e2, In e1 entries -> In e2 entries -> names e1 = names e2) ->
  forall acc1 acc2, sameIf J acc1 acc2 ->
  alike (walksAlike P) (sameIf J) (foldM body l1 acc1) (foldM body l2 acc2).
Proof.
  apply (alike_entries_in (walksAlike P) more more_app more_nil walksAlike_more).
Qed.

(** A walk without a map loop, run twice. *)
Ltac twice :=
  repeat first
    [ apply alike_ret; reflexivity
    | apply alike_fail
    | apply alike_emit
    | eapply (alike_bind _ eq); [ | intros ? ? <- ] ].

Lemma alike_mapM_same {A B} (f : A -> M Walk B) (l : list A) :
  Forall (fun x => alike (walksAlike P) eq (f x) (f x)) l ->
  alike (walksAlike P) eq (mapM f l) (mapM f l).
Proof.
  intros Hl. apply (alike_weaken _ (Forall2 eq)).
  - intros l1 l2 H. induction H; congruence.
  - apply alike_mapM. apply List.Forall_forall. exact Hl.
Qed.

(** *** MongoDB *)

Lemma mongodb_renderFilter_alike (f : FilterItem) :
  alike (walksAlike P) eq (mongodb.renderFilter f) (mongodb.renderFilter f).
Proof.
  induction f as [ | field operator value | logic cs IH
                 | field [mn|] [mx|] minExclusive maxExclusive
                 | field pattern [opts|]
                 | search [lang|] caseSensitive diacriticSensitive
                 | field operator center [radius|] maxDistance minDistance
                 | field operator value | field cs IH | field exists_ ]
    using FilterItem_nested_ind; cbn [mongodb.renderFilter];
    try (twice; fail).
  - destruct (negb (Param_Name value =? "")); twice.
  - eapply (alike_bind _ eq); [ now apply alike_mapM_same | intros ? ? <- ]. twice.
  - eapply (alike_bind _ eq); [ now apply alike_mapM_same | intros ? ? <- ]. twice.
Qed.

Lemma mapM_closed {A B} (f : A -> M Walk B) (v : A -> B) (names : A -> list string)
    (l : list A) :
  Forall (fun x => forall st, f x st = Ok (v x, more st (names x))) l ->
  forall st, mapM f l st = Ok (map v l, more st (flat_map names l)).
Proof.
  induction 1 as [|x l Hx _ IH]; intros st; cbn [mapM map flat_map].
  - unfold ret. now rewrite more_nil.
  - unfold bind. rewrite Hx, IH. unfold ret. now rewrite more_app.
Qed.

Lemma mongodb_renderExpression_closed (e : Expression) (st : Walk) :
  mongodb.renderExpression e st = Ok (exprValue e, more st (exprNames e)).
Proof.
  revert st.
  induction e as [ | field | value | operator args IH | i t e Hi Ht He ]
    using Expression_nested_ind; intros st;
    cbn [mongodb.renderExpression exprValue exprNames].
  - unfold ret. now rewrite more_nil.
  - unfold ret. now rewrite more_nil.
  - reflexivity.
  - unfold bind. rewrite (mapM_closed _ exprValue exprNames args IH).
    reflexivity.
  - unfold bind. rewrite Hi, Ht, He. unfold ret. now rewrite !more_app.
Qed.

Lemma mongodb_renderExpression_alike (e : Expression) :
  alike (walksAlike P) eq (mongodb.renderExpression e) (mongodb.renderExpression e).
Proof.
  apply (alike_closed _ (exprValue e) (exprNames e)).
  apply mongodb_renderExpression_closed.
Qed.

Lemma mongodb_renderStageValue_alike (v : PaginationValue) :
  alike (walksAlike P) eq (mongodb.renderStageValue v) (mongodb.renderStageValue v).
Proof.
  unfold mongodb.renderStageValue.
  destruct (Static v), (Pagination_Param v); twice.
Qed.

Lemma mongodb_setFilter_alike (a : DocumentAST) (orElse : option JValue)
    (query : gmap string JValue) :
  alike (walksAlike P) eq (mongodb.setFilter a orElse query)
    (mongodb.setFilter a orElse query).
Proof.
  unfold mongodb.setFilter. destruct (negb (isNil (FilterClause a))).
  - eapply (alike_bind _ eq); [ apply mongodb_renderFilter_alike | intros ? ? <- ].
    twice.
  - destruct orElse; twice.
Qed.

Lemma mongodb_toResult_alike (q1 q2 : gmap string JValue) :
  sameIf J q1 q2 ->
  alike (walksAlike P) (resultsAlike J P) (mongodb.toResult q1) (mongodb.toResult q2).
Proof.
  intros Hq st1 st2 Hst. cbn. split; [ split | exact Hst ]; cbn.
  - intros j. now rewrite (Hq j).
  - exact Hst.
Qed.

Section Orders.
Variables o1 o2 : MapOrder.
Hypothesis o1_fair : fair o1.
Hypothesis o2_fair : fair o2.

Lemma mongodb_renderDocument_alike (doc : Document) :
  (J -> onePerPath (Document_Fields doc)) ->
  (P -> oneName (Document_Fields doc)) ->
  alike (walksAlike P) (sameIf J) (mongodb.renderDocument o1 doc)
    (mongodb.renderDocument o2 doc).
Proof.
  intros HJ HP. unfold mongodb.renderDocument.
  apply (alike_bind _ (entriesOf (map_to_list (Document_Fields doc))));
    [ now apply alike_rangeMap | intros l1 l2 Hl ].
  apply (alike_bind _ (sameIf J)).
  - apply (alike_entries _ (fun e => Path e.1)
             (fun e => JStr (placeholder (Param_Name e.2)))
             (fun e => [Param_Name e.2]) _ _ _ Hl).
    + intros acc [field value] st. reflexivity.
    + intros j e1 e2 H1 H2 Hk.
      now rewrite (onePerPath_entries _ e1 e2 (HJ j) H1 H2 Hk).
    + intros p e1 e2 H1 H2.
      now rewrite (oneName_entries _ e1 e2 (HP p) H1 H2).
    + apply sameIf_refl.
  - intros r1 r2 Hr. apply alike_ret. intros j. now rewrite (Hr j).
Qed.

Lemma mongodb_renderUpdateOps_alike (ops : list UpdateOperation) :
  (J -> Forall (fun u => onePerPath (Fields u)) ops) ->
  (P -> Forall (fun u => oneName (Fields u)) ops) ->
  alike (walksAlike P) (sameIf J) (mongodb.renderUpdateOps o1 ops)
    (mongodb.renderUpdateOps o2 ops).
Proof.
  intros HJ HP. unfold mongodb.renderUpdateOps.
  apply (alike_bind _ (sameIf J));
    [ | intros r1 r2 Hr; apply alike_ret; intros j; now rewrite (Hr j) ].
  apply alike_foldM; [ | apply sameIf_refl ].
  intros b1 b2 op Hin Hb.
  apply (alike_bind _ (entriesOf (map_to_list (Fields op))));
    [ now apply alike_rangeMap | intros l1 l2 Hl ].
  apply (alike_bind _ (sameIf J)).
  - apply (alike_entries _ (fun e => Path e.1)
             (fun e => if negb (Param_Name e.2 =? "")
                       then JStr (placeholder (Param_Name e.2)) else JStr "")
             (fun e => if negb (Param_Name e.2 =? "")
                       then [Param_Name e.2] else []) _ _ _ Hl).
    + intros acc [field value] st. cbn [fst snd].
      destruct (negb (Param_Name value =? "")); [ reflexivity | ].
      unfold ret. now rewrite more_nil.
    + intros j e1 e2 H1 H2 Hk.
      pose proof (proj1 (List.Forall_forall _ _) (HJ j) op Hin) as Hop.
      now rewrite (onePerPath_entries _ e1 e2 Hop H1 H2 Hk).
    + intros p e1 e2 H1 H2.
      pose proof (proj1 (List.Forall_forall _ _) (HP p) op Hin) as Hop.
      now rewrite (oneName_entries _ e1 e2 Hop H1 H2).
    + apply sameIf_refl.
  - intros f1 f2 Hf. apply alike_ret. intros j. now rewrite (Hf j), (Hb j).
Qed.

Lemma mongodb_renderPipelineStage_alike (stage : PipelineStage) :
  (P -> oneNameStage stage) ->
  alike (walksAlike P) (sameIf J) (mongodb.renderPipelineStage o1 stage)
    (mongodb.renderPipelineStage o2 stage).
Proof.
  intros HP.
  destruct stage as [ | f | p c | id accs | sorts | limit | skip | path idx keep
                    | from lf ff as_ pl lt | fields | root | fieldName | facets
                    | gb bs df out ];
    cbn [mongodb.renderPipelineStage oneNameStage] in *;
    try (apply (alike_weaken _ eq); [ intros ? ? -> ; apply sameIf_refl | ];
         twice; fail).
  - apply (alike_weaken _ eq); [ intros ? ? -> ; apply sameIf_refl | ].
    eapply (alike_bind _ eq); [ apply mongodb_renderFilter_alike | intros ? ? <- ].
    twice.
  - eapply (alike_bind _ eq);
      [ apply mongodb_renderExpression_alike | intros v ? <- ].
    apply (alike_bind _ (entriesOf (map_to_list accs)));
      [ now apply alike_rangeMap | intros l1 l2 Hl ].
    apply (alike_bind _ (sameIf J)).
    + apply (alike_entries _ (fun e : string * Accumulator => e.1)
               (fun e => JObj {[ Acc_Operator e.2 := exprValue (Expr e.2) ]})
               (fun e => exprNames (Expr e.2)) _ _ _ Hl).
      * intros acc [n x] st. cbn [fst snd]. unfold bind.
        now rewrite mongodb_renderExpression_closed.
      * intros j e1 e2 H1 H2 Hk. now rewrite (entries_same_key _ e1 e2 H1 H2 Hk).
      * intros p [n1 x1] [n2 x2] H1 H2. cbn [snd].
        apply (HP p n1 n2 x1 x2);
          now apply elem_of_map_to_list, list_elem_of_In.
      * apply sameIf_refl.
    + intros g1 g2 Hg. apply alike_ret. intros j. now rewrite (Hg j).
  - apply (alike_weaken _ eq); [ intros ? ? -> ; apply sameIf_refl | ].
    eapply (alike_bind _ eq); [ apply mongodb_renderStageValue_alike | intros ? ? <- ].
    twice.
  - apply (alike_weaken _ eq); [ intros ? ? -> ; apply sameIf_refl | ].
    eapply (alike_bind _ eq); [ apply mongodb_renderStageValue_alike | intros ? ? <- ].
    twice.
  - apply (alike_bind _ (entriesOf (map_to_list fields)));
      [ now apply alike_rangeMap | intros l1 l2 Hl ].
    apply (alike_bind _ (sameIf J)).
    + apply (alike_entries _ (fun e : string * Expression => e.1)
               (fun e => exprValue e.2) (fun e => exprNames e.2) _ _ _ Hl).
      * intros acc [n x] st. cbn [fst snd]. unfold bind.
        now rewrite mongodb_renderExpression_closed.
      * intros j e1 e2 H1 H2 Hk. now rewrite (entries_same_key _ e1 e2 H1 H2 Hk).
      * intros p [n1 x1] [n2 x2] H1 H2. cbn [snd].
        apply (HP p n1 n2 x1 x2);
          now apply elem_of_map_to_list, list_elem_of_In.
      * apply sameIf_refl.
    + intros g1 g2 Hg. apply alike_ret. intros j. now rewrite (Hg j).
Qed.

Lemma rendersAlike_refl (r : result QueryResult) : rendersAlike J P r r.
Proof. destruct r; cbn; [ split; reflexivity | reflexivity ]. Qed.

Lemma walk_results_alike (m1 m2 : M Walk QueryResult) :
  alike (walksAlike P) (resultsAlike J P) m1 m2 ->
  rendersAlike J P
    (match m1 start with Ok (q, _) => Ok q | Err e => Err e end)
    (match m2 start with Ok (q, _) => Ok q | Err e => Err e end).
Proof.
  intros H. specialize (H start start (fun _ => eq_refl)).
  destruct (m1 start) as [[q1 s1]|e1], (m2 start) as [[q2 s2]|e2]; cbn;
    try contradiction; [ exact (proj1 H) | exact H ].
Qed.

(** The render functions of one operation, told apart by the name of the
    operation. *)
Ltac by_operation :=
  repeat match goal with
         | |- rendersAlike _ _ (if ?c then _ else _) (if ?c then _ else _) =>
             destruct c
         end;
  try apply rendersAlike_refl.

Lemma mongodb_Render_alike (a : DocumentAST) :
  (J -> pathsAgree a) -> (P -> namesAgree a) ->
  rendersAlike J P (mongodb.Render o1 a) (mongodb.Render o2 a).
Proof.
  intros HJ HP. unfold mongodb.Render.
  destruct (Validate a); [ reflexivity | ]. cbv zeta.
  by_operation; unfold mongodb.run; apply walk_results_alike.
  - unfold mongodb.renderInsert.
    apply (alike_bind _ (sameIf J)); [ | intros; now apply mongodb_toResult_alike ].
    destruct (Documents a) as [|doc docs] eqn:Hdocs;
      [ apply alike_ret, sameIf_refl | ].
    apply (alike_bind _ (sameIf J)).
    + apply mongodb_renderDocument_alike.
      * intros j. destruct (HJ j) as [H _]. rewrite Hdocs in H.
        now apply Forall_cons_iff in H as [H _].
      * intros p. destruct (HP p) as [H _]. rewrite Hdocs in H.
        now apply Forall_cons_iff in H as [H _].
    + intros d1 d2 Hd. apply alike_ret. intros j. now rewrite (Hd j).
  - unfold mongodb.renderInsertMany.
    apply (alike_bind _ (sameIf J));
      [ | intros d1 d2 Hd; apply mongodb_toResult_alike; intros j;
          now rewrite (Hd j) ].
    apply (alike_weaken _ (Forall2 (sameIf J))); [ apply sameIf_Forall2 | ].
    apply alike_mapM. intros doc Hin. apply mongodb_renderDocument_alike.
    + intros j. destruct (HJ j) as [H _].
      exact (proj1 (List.Forall_forall _ _) H doc Hin).
    + intros p. destruct (HP p) as [H _].
      exact (proj1 (List.Forall_forall _ _) H doc Hin).
  - unfold mongodb.renderUpdate.
    eapply (alike_bind _ eq); [ apply mongodb_setFilter_alike | intros q ? <- ].
    apply (alike_bind _ (sameIf J)).
    + apply mongodb_renderUpdateOps_alike.
      * intros j. exact (proj2 (HJ j)).
      * intros p. exact (proj1 (proj2 (HP p))).
    + intros u1 u2 Hu. apply mongodb_toResult_alike. intros j. now rewrite (Hu j).
  - unfold mongodb.renderUpdateMany, mongodb.renderUpdate.
    eapply (alike_bind _ eq); [ apply mongodb_setFilter_alike | intros q ? <- ].
    apply (alike_bind _ (sameIf J)).
    + apply mongodb_renderUpdateOps_alike.
      * intros j. exact (proj2 (HJ j)).
      * intros p. exact (proj1 (proj2 (HP p))).
    + intros u1 u2 Hu. apply mongodb_toResult_alike. intros j. now rewrite (Hu j).
  - unfold mongodb.renderAggregate.
    apply (alike_bind _ (sameIf J));
      [ | intros d1 d2 Hd; apply mongodb_toResult_alike; intros j;
          now rewrite (Hd j) ].
    apply (alike_weaken _ (Forall2 (sameIf J))); [ apply sameIf_Forall2 | ].
    apply alike_mapM. intros stage Hin. apply mongodb_renderPipelineStage_alike.
    intros p. destruct (HP p) as (_ & _ & H).
    exact (proj1 (List.Forall_forall _ _) H stage Hin).
Qed.

(** *** Firestore *)

Lemma firestore_toResult_alike (q1 q2 : gmap string JValue) :
  sameIf J q1 q2 ->
  alike (walksAlike P) (resultsAlike J P) (firestore.toResult q1)
    (firestore.toResult q2).
Proof.
  intros Hq st1 st2 Hst. cbn. split; [ split | exact Hst ]; cbn.
  - intros j. now rewrite (Hq j).
  - exact Hst.
Qed.

Lemma firestore_Render_alike (a : DocumentAST) :
  (J -> pathsAgree a) -> (P -> namesAgree a) ->
  rendersAlike J P (firestore.Render o1 a) (firestore.Render o2 a).
Proof.
  intros HJ HP. unfold firestore.Render.
  destruct (Validate a); [ reflexivity | ]. cbv zeta.
  by_operation; unfold firestore.run; apply walk_results_alike.
  - unfold firestore.renderAdd.
    apply (alike_bind _ (sameIf J)); [ | intros; now apply firestore_toResult_alike ].
    destruct (Documents a) as [|doc docs] eqn:Hdocs;
      [ apply alike_ret, sameIf_refl | ].
    apply (alike_bind _ (entriesOf (map_to_list (Document_Fields doc))));
      [ now apply alike_rangeMap | intros l1 l2 Hl ].
    apply (alike_bind _ (sameIf J)).
    + apply (alike_entries _ (fun e => Path e.1)
               (fun e => JStr (placeholder (Param_Name e.2)))
               (fun e => [Param_Name e.2]) _ _ _ Hl).
      * intros acc [field value] st. reflexivity.
      * intros j e1 e2 H1 H2 Hk. destruct (HJ j) as [H _]. rewrite Hdocs in H.
        apply Forall_cons_iff in H as [H _].
        now rewrite (onePerPath_entries _ e1 e2 H H1 H2 Hk).
      * intros p e1 e2 H1 H2. destruct (HP p) as [H _]. rewrite Hdocs in H.
        apply Forall_cons_iff in H as [H _].
        now rewrite (oneName_entries _ e1 e2 H H1 H2).
      * apply sameIf_refl.
    + intros d1 d2 Hd. apply alike_ret. intros j. now rewrite (Hd j).
  - unfold firestore.renderUpdate.
    apply (alike_bind _ (sameIf J));
      [ | intros d1 d2 Hd; apply firestore_toResult_alike; intros j;
          now rewrite (Hd j) ].
    apply alike_foldM; [ | apply sameIf_refl ].
    intros b1 b2 op Hin Hb.
    destruct (negb (Operator op =? Set_) && negb (Operator op =? Unset));
      [ apply alike_fail | ].
    apply (alike_bind _ (entriesOf (map_to_list (Fields op))));
      [ now apply alike_rangeMap | intros l1 l2 Hl ].
    apply (alike_entries _ (fun e => Path e.1)
             (fun e => if Operator op =? Unset then JStr "FieldValue.delete()"
                       else JStr (placeholder (Param_Name e.2)))
             (fun e => if Operator op =? Unset then [] else [Param_Name e.2])
             _ _ _ Hl).
    + intros acc [field value] st. cbn [fst snd].
      destruct (Operator op =? Unset); [ | reflexivity ].
      unfold ret. now rewrite more_nil.
    + intros j e1 e2 H1 H2 Hk.
      pose proof (proj1 (List.Forall_forall _ _) (proj2 (HJ j)) op Hin) as Hop.
      now rewrite (onePerPath_entries _ e1 e2 Hop H1 H2 Hk).
    + intros p e1 e2 H1 H2.
      pose proof (proj1 (List.Forall_forall _ _) (proj1 (proj2 (HP p))) op Hin)
        as Hop.
      now rewrite (oneName_entries _ e1 e2 Hop H1 H2).
    + exact Hb.
Qed.

(** *** CouchDB *)

Lemma couchdb_toResult_alike (q1 q2 : gmap string JValue) :
  sameIf J q1 q2 ->
  alike (walksAlike P) (resultsAlike J P) (couchdb.toResult q1)
    (couchdb.toResult q2).
Proof.
  intros Hq st1 st2 Hst. cbn. split; [ split | exact Hst ]; cbn.
  - intros j. now rewrite (Hq j).
  - exact Hst.
Qed.

Lemma couchdb_buildSelector_alike (f : FilterItem) :
  alike (walksAlike P) eq (couchdb.buildSelector f) (couchdb.buildSelector f).
Proof.
  induction f as [ | field operator value | logic cs IH
                 | field [mn|] [mx|] minExclusive maxExclusive
                 | field pattern opts
                 | search lang caseSensitive diacriticSensitive
                 | field operator center radius maxDistance minDistance
                 | field operator value | field cs IH | field exists_ ]
    using FilterItem_nested_ind; cbn [couchdb.buildSelector];
    try (twice; fail).
  - eapply (alike_bind _ eq); [ apply alike_emit | intros ? ? <- ]. cbv zeta.
    destruct (couchdb.mapOperator operator =? ""); twice.
  - eapply (alike_bind _ eq); [ now apply alike_mapM_same | intros ? ? <- ]. twice.
Qed.

Lemma couchdb_setSelector_alike (a : DocumentAST) (orElse : option JValue)
    (query : gmap string JValue) :
  alike (walksAlike P) eq (couchdb.setSelector a orElse query)
    (couchdb.setSelector a orElse query).
Proof.
  unfold couchdb.setSelector. destruct (negb (isNil (FilterClause a))).
  - eapply (alike_bind _ eq); [ apply couchdb_buildSelector_alike | intros ? ? <- ].
    twice.
  - destruct orElse; twice.
Qed.

Lemma couchdb_Render_alike (a : DocumentAST) :
  (J -> pathsAgree a) -> (P -> namesAgree a) ->
  rendersAlike J P (couchdb.Render o1 a) (couchdb.Render o2 a).
Proof.
  intros HJ HP. unfold couchdb.Render.
  destruct (Validate a); [ reflexivity | ]. cbv zeta.
  by_operation; unfold couchdb.run; apply walk_results_alike.
  - unfold couchdb.renderInsert. cbv zeta.
    apply (alike_bind _ (sameIf J)); [ | intros; now apply couchdb_toResult_alike ].
    destruct (Documents a) as [|doc docs] eqn:Hdocs;
      [ apply alike_ret, sameIf_refl | ].
    apply (alike_bind _ (entriesOf (map_to_list (Document_Fields doc))));
      [ now apply alike_rangeMap | intros l1 l2 Hl ].
    apply (alike_bind _ (sameIf J)).
    + apply (alike_entries _ (fun e => Path e.1)
               (fun e => JStr (placeholder (Param_Name e.2)))
               (fun e => [Param_Name e.2]) _ _ _ Hl).
      * intros acc [field value] st. reflexivity.
      * intros j e1 e2 H1 H2 Hk. destruct (HJ j) as [H _]. rewrite Hdocs in H.
        apply Forall_cons_iff in H as [H _].
        now rewrite (onePerPath_entries _ e1 e2 H H1 H2 Hk).
      * intros p e1 e2 H1 H2. destruct (HP p) as [H _]. rewrite Hdocs in H.
        apply Forall_cons_iff in H as [H _].
        now rewrite (oneName_entries _ e1 e2 H H1 H2).
      * apply sameIf_refl.
    + intros d1 d2 Hd. apply alike_ret. intros j. now rewrite (Hd j).
  - unfold couchdb.renderUpdate.
    eapply (alike_bind _ eq); [ apply couchdb_setSelector_alike | intros q ? <- ].
    apply (alike_bind _ (sameIf J));
      [ | intros d1 d2 Hd; apply couchdb_toResult_alike; intros j;
          now rewrite (Hd j) ].
    apply alike_foldM; [ | apply sameIf_refl ].
    intros b1 b2 op Hin Hb.
    destruct (negb (Operator op =? Set_)); [ apply alike_fail | ].
    apply (alike_bind _ (entriesOf (map_to_list (Fields op))));
      [ now apply alike_rangeMap | intros l1 l2 Hl ].
    apply (alike_entries _ (fun e => Path e.1)
             (fun e => JStr (placeholder (Param_Name e.2)))
             (fun e => [Param_Name e.2]) _ _ _ Hl).
    + intros acc [field value] st. reflexivity.
    + intros j e1 e2 H1 H2 Hk.
      pose proof (proj1 (List.Forall_forall _ _) (proj2 (HJ j)) op Hin) as Hop.
      now rewrite (onePerPath_entries _ e1 e2 Hop H1 H2 Hk).
    + intros p e1 e2 H1 H2.
      pose proof (proj1 (List.Forall_forall _ _) (proj1 (proj2 (HP p))) op Hin)
        as Hop.
      now rewrite (oneName_entries _ e1 e2 Hop H1 H2).
    + exact Hb.
Qed.

(** *** DynamoDB *)

Lemma moreScope_app (st : dynamodb.Scope) (l1 l2 : list string) :
  moreScope (moreScope st l1) l2 = moreScope st (l1 ++ l2).
Proof. unfold moreScope. cbn. now rewrite more_app. Qed.

Lemma moreScope_nil (st : dynamodb.Scope) : moreScope st [] = st.
Proof. destruct st. unfold moreScope. cbn. now rewrite more_nil. Qed.

Lemma scopesAlike_more (st1 st2 : dynamodb.Scope) (ns1 ns2 : list string) :
  scopesAlike J P st1 st2 -> (P -> ns1 = ns2) ->
  scopesAlike J P (moreScope st1 ns1) (moreScope st2 ns2).
Proof.
  intros [HJ HP] Hns. split; [ exact HJ | ].
  intros p. unfold scopeParams in *. cbn. now rewrite (HP p), (Hns p).
Qed.

Lemma alike_lift_rangeMap `{Countable K} {V} (m : gmap K V) :
  alike (scopesAlike J P) (entriesOf (map_to_list m))
    (dynamodb.lift (rangeMap o1 m)) (dynamodb.lift (rangeMap o2 m)).
Proof.
  intros st1 st2 Hst. cbn.
  split; [ split; [ apply o1_fair | apply o2_fair ] | exact Hst ].
Qed.

Lemma alike_getName (f1 f2 : string) :
  sameIf J f1 f2 ->
  alike (scopesAlike J P) (sameIf J) (dynamodb.getName f1) (dynamodb.getName f2).
Proof.
  intros Hf st1 st2 [HJ HP]. cbn. split; [ | split ].
  - intros j. destruct (HJ j) as (_ & _ & -> & _). reflexivity.
  - intros j. cbn. destruct (HJ j) as (-> & -> & -> & ->). now rewrite (Hf j).
  - exact HP.
Qed.

Lemma alike_getValue (n1 n2 : string) :
  sameIf J n1 n2 -> (P -> n1 = n2) ->
  alike (scopesAlike J P) (sameIf J) (dynamodb.getValue n1) (dynamodb.getValue n2).
Proof.
  intros Hn Hp st1 st2 [HJ HP]. cbn. split; [ | split ].
  - intros j. destruct (HJ j) as (_ & _ & _ & ->). reflexivity.
  - intros j. cbn. destruct (HJ j) as (-> & -> & -> & ->). now rewrite (Hn j).
  - intros p. unfold scopeParams in *. cbn. now rewrite (HP p), (Hp p).
Qed.

Lemma alike_nonEmpty_names :
  alike (scopesAlike J P) (sameIf J) (dynamodb.nonEmpty dynamodb.attrNames)
    (dynamodb.nonEmpty dynamodb.attrNames).
Proof.
  intros st1 st2 [HJ HP]. cbn. split; [ | now split ].
  intros j. destruct (HJ j) as (-> & _). reflexivity.
Qed.

Lemma alike_nonEmpty_values :
  alike (scopesAlike J P) (sameIf J) (dynamodb.nonEmpty dynamodb.attrValues)
    (dynamodb.nonEmpty dynamodb.attrValues).
Proof.
  intros st1 st2 [HJ HP]. cbn. split; [ | now split ].
  intros j. destruct (HJ j) as (_ & -> & _). reflexivity.
Qed.

Lemma dynamodb_toResult_alike (h1 h2 v1 v2 : bool) (q1 q2 : gmap string JValue) :
  sameIf J h1 h2 -> sameIf J v1 v2 -> sameIf J q1 q2 ->
  alike (scopesAlike J P) (resultsAlike J P) (dynamodb.toResult h1 v1 q1)
    (dynamodb.toResult h2 v2 q2).
Proof.
  intros Hh Hv Hq st1 st2 [HJ HP]. cbn. split; [ split | now split ]; cbn.
  - intros j. destruct (HJ j) as (-> & -> & _).
    now rewrite (Hh j), (Hv j), (Hq j).
  - exact HP.
Qed.

Lemma scope_results_alike (m1 m2 : M dynamodb.Scope QueryResult) :
  alike (scopesAlike J P) (resultsAlike J P) m1 m2 ->
  rendersAlike J P (dynamodb.run m1) (dynamodb.run m2).
Proof.
  intros H. unfold dynamodb.run.
  assert (H0 : scopesAlike J P dynamodb.fresh dynamodb.fresh)
    by (split; intros _; repeat split).
  specialize (H _ _ H0).
  destruct (m1 dynamodb.fresh) as [[q1 s1]|e1], (m2 dynamodb.fresh) as [[q2 s2]|e2];
    cbn; try contradiction; [ exact (proj1 H) | exact H ].
Qed.

Lemma single_entries `{Countable K} {V} (m : gmap K V) (e1 e2 : K * V) :
  single m -> In e1 (map_to_list m) -> In e2 (map_to_list m) -> e1 = e2.
Proof.
  unfold single. rewrite <- length_map_to_list.
  destruct (map_to_list m) as [|x [|y l]]; cbn; intros Hl H1 H2.
  - contradiction.
  - destruct H1 as [<-|[]], H2 as [<-|[]]. reflexivity.
  - lia.
Qed.

(** The entries of a field map in two orders, side by side. *)
Lemma entries_paired (m : gmap Field Param) (l1 l2 : list (Field * Param)) :
  entriesOf (map_to_list m) l1 l2 ->
  (J -> single m) -> (P -> oneName m) ->
  Forall2 (fun e1 e2 => sameIf J e1 e2 /\ (P -> Param_Name e1.2 = Param_Name e2.2))
    l1 l2.
Proof.
  intros [H1 H2] HJ HP. apply Forall2_all_pairs.
  - now rewrite (Permutation_length H1), (Permutation_length H2).
  - intros x y Hx Hy.
    apply (Permutation_in _ H1) in Hx. apply (Permutation_in _ H2) in Hy. split.
    + intros j. exact (single_entries m x y (HJ j) Hx Hy).
    + intros p. exact (oneName_entries m x y (HP p) Hx Hy).
Qed.

Lemma dynamodb_Render_alike (d : dynamodb.Renderer) (a : DocumentAST) :
  (J -> Forall (fun doc => onePerPath (Document_Fields doc)) (Documents a) /\
        Forall (fun u => single (Fields u)) (UpdateOps a)) ->
  (P -> namesAgree a) ->
  rendersAlike J P (dynamodb.Render d o1 a) (dynamodb.Render d o2 a).
Proof.
  intros HJ HP. unfold dynamodb.Render.
  destruct (Validate a); [ reflexivity | ]. cbv zeta.
  by_operation; apply scope_results_alike.
  - unfold dynamodb.renderPutItem. cbv zeta.
    apply (alike_bind _ (sameIf J));
      [ | intros q1 q2 Hq; apply dynamodb_toResult_alike;
          [ apply sameIf_refl | apply sameIf_refl | exact Hq ] ].
    destruct (Documents a) as [|doc docs] eqn:Hdocs;
      [ apply alike_ret, sameIf_refl | ].
    apply (alike_bind _ (entriesOf (map_to_list (Document_Fields doc))));
      [ apply alike_lift_rangeMap | intros l1 l2 Hl ].
    apply (alike_bind _ (sameIf J)).
    + apply (alike_entries_in (scopesAlike J P) moreScope moreScope_app
               moreScope_nil scopesAlike_more _ (fun e => Path e.1)
               (fun e => JStr (placeholder (Param_Name e.2)))
               (fun e => [Param_Name e.2]) _ _ _ Hl).
      * intros acc [field value] st. reflexivity.
      * intros j e1 e2 H1 H2 Hk. destruct (HJ j) as [H _].
        apply Forall_cons_iff in H as [H _].
        now rewrite (onePerPath_entries _ e1 e2 H H1 H2 Hk).
      * intros p e1 e2 H1 H2. destruct (HP p) as [H _]. rewrite Hdocs in H.
        apply Forall_cons_iff in H as [H _].
        now rewrite (oneName_entries _ e1 e2 H H1 H2).
      * apply sameIf_refl.
    + intros d1 d2 Hd. apply alike_ret. intros j. now rewrite (Hd j).
  - unfold dynamodb.renderUpdateItem. cbv zeta.
    apply (alike_bind _ (sameIf J)).
    + apply alike_foldM; [ | apply sameIf_refl ].
      intros [s1 r1] [s2 r2] op Hin Hb.
      assert (Hsingle : J -> single (Fields op)).
      { intros j. exact (proj1 (List.Forall_forall _ _) (proj2 (HJ j)) op Hin). }
      assert (Hone : P -> oneName (Fields op)).
      { intros p.
        exact (proj1 (List.Forall_forall _ _) (proj1 (proj2 (HP p))) op Hin). }
      destruct ((Operator op =? Set_) || (Operator op =? Inc)).
      * apply (alike_bind _ (entriesOf (map_to_list (Fields op))));
          [ apply alike_lift_rangeMap | intros l1 l2 Hl ].
        apply (alike_bind _ (sameIf J)).
        -- apply (alike_foldM2 _ _ _ _ _ _ _ (entries_paired _ _ _ Hl Hsingle Hone)).
           ++ intros b1 b2 [f1 p1] [f2 p2] [He Hn] Hbs. cbn [snd] in Hn.
              apply (alike_bind _ (sameIf J)).
              ** apply alike_getName. intros j. now injection (He j) as -> _.
              ** intros k1 k2 Hk. apply (alike_bind _ (sameIf J)).
                 --- apply alike_getValue; [ | exact Hn ].
                     intros j. now injection (He j) as _ ->.
                 --- intros w1 w2 Hw.
                     destruct (Operator op =? Inc); apply alike_ret; intros j;
                       now rewrite (Hbs j), (Hk j), (Hw j).
           ++ intros j. now injection (Hb j).
        -- intros t1 t2 Ht. apply alike_ret. intros j.
           rewrite (Ht j). now injection (Hb j) as _ ->.
      * destruct (Operator op =? Unset); [ | apply alike_fail ].
        apply (alike_bind _ (entriesOf (map_to_list (Fields op))));
          [ apply alike_lift_rangeMap | intros l1 l2 Hl ].
        apply (alike_bind _ (sameIf J)).
        -- apply (alike_foldM2 _ _ _ _ _ _ _ (entries_paired _ _ _ Hl Hsingle Hone)).
           ++ intros b1 b2 [f1 p1] [f2 p2] [He Hn] Hbs.
              apply (alike_bind _ (sameIf J)).
              ** apply alike_getName. intros j. now injection (He j) as -> _.
              ** intros k1 k2 Hk. apply alike_ret. intros j.
                 now rewrite (Hbs j), (Hk j).
           ++ intros j. now injection (Hb j).
        -- intros t1 t2 Ht. apply alike_ret. intros j.
           rewrite (Ht j). now injection (Hb j) as -> _.
    + intros [s1 r1] [s2 r2] Hb.
      apply (alike_bind _ (sameIf J)); [ apply alike_nonEmpty_names | ].
      intros h1 h2 Hh.
      apply (alike_bind _ (sameIf J)); [ apply alike_nonEmpty_values | ].
      intros v1 v2 Hv.
      apply dynamodb_toResult_alike; [ exact Hh | exact Hv | ].
      intros j. now injection (Hb j) as -> ->.
Qed.
End Orders.
End Twice.

Lemma rendersAlike_json (r1 r2 : result QueryResult) :
  rendersAlike True False r1 r2 -> sameJSON r1 r2.
Proof.
  destruct r1 as [q1|e1], r2 as [q2|e2]; cbn; auto. intros [H _]. now apply H.
Qed.

Lemma rendersAlike_params (r1 r2 : result QueryResult) :
  rendersAlike False True r1 r2 -> sameParams r1 r2.
Proof.
  destruct r1 as [q1|e1], r2 as [q2|e2]; cbn; auto. intros [_ H]. now apply H.
Qed.

(** C2, amended: for every AST, every provided renderer and any two fair
    orders, the two render calls fail with the same error or succeed with
    the same parameter names, each as often in one result as in the other,
    possibly in another order.  They return the same JSON text when no
    field map of a document or of an update operation binds one path to two
    parameter names (for DynamoDB, which numbers the placeholders of an
    update expression in visiting order: when no document does and the
    field map of every update operation has at most one entry).  They
    return the parameter names in the same order when every map that is
    ranged over carries one parameter name.  And when no map that is ranged
    over holds two entries (the field maps of the documents and update
    operations, the accumulators of a group stage, the fields of an
    add-fields stage) they return the same result: the same JSON text and
    the same parameter names in the same order. *)
Theorem render_twice (r : docql.Renderer) (o1 o2 : MapOrder) (a : DocumentAST) :
  provided r -> fair o1 -> fair o2 ->
  sameUpToOrder (docql.Render r o1 a) (docql.Render r o2 a) /\
  (orderFreeJSON r a -> sameJSON (docql.Render r o1 a) (docql.Render r o2 a)) /\
  (namesAgree a -> sameParams (docql.Render r o1 a) (docql.Render r o2 a)) /\
  (singleEntryMaps a -> docql.Render r o1 a = docql.Render r o2 a).
Proof.
  intros Hr H1 H2. split; [ | split; [ | split ] ].
  - destruct (Render_conforms r a Hr) as [out Hout].
    exact (conforms_same _ _ out (Hout o1 H1) (Hout o2 H2)).
  - intros Ha. apply rendersAlike_json.
    destruct Ha as [a Ha|a Ha|a Ha|d a Hdocs Hops];
      cbn [docql.Render mongodb.New dynamodb.renderer firestore.New couchdb.New].
    + apply mongodb_Render_alike; [ exact H1 | exact H2 | now intros _ | intros [] ].
    + apply firestore_Render_alike; [ exact H1 | exact H2 | now intros _ | intros [] ].
    + apply couchdb_Render_alike; [ exact H1 | exact H2 | now intros _ | intros [] ].
    + apply dynamodb_Render_alike; [ exact H1 | exact H2 | now intros _ | intros [] ].
  - intros Ha. apply rendersAlike_params.
    destruct Hr; cbn [docql.Render mongodb.New dynamodb.renderer firestore.New
                      couchdb.New].
    + apply mongodb_Render_alike; [ exact H1 | exact H2 | intros [] | now intros _ ].
    + apply dynamodb_Render_alike; [ exact H1 | exact H2 | intros [] | now intros _ ].
    + apply firestore_Render_alike; [ exact H1 | exact H2 | intros [] | now intros _ ].
    + apply couchdb_Render_alike; [ exact H1 | exact H2 | intros [] | now intros _ ].
  - intros Ha.
    destruct Hr; cbn [docql.Render mongodb.New dynamodb.renderer firestore.New
                      couchdb.New].
    + now rewrite (mongodb_Render_single o1 H1 a Ha),
        (mongodb_Render_single o2 H2 a Ha).
    + now rewrite (dynamodb_Render_single o1 H1 r a Ha),
        (dynamodb_Render_single o2 H2 r a Ha).
    + now rewrite (firestore_Render_single o1 H1 a Ha),
        (firestore_Render_single o2 H2 a Ha).
    + now rewrite (couchdb_Render_single o1 H1 a Ha),
        (couchdb_Render_single o2 H2 a Ha).
Qed.

Lemma singleEntryMaps_insertOne : singleEntryMaps (docql.ast insertOne).
Proof.
  repeat split; repeat constructor.
Qed.

Lemma onePerPath_intro (m : gmap Field Param) :
  (forall e1 e2, In e1 (map_to_list m) -> In e2 (map_to_list m) ->
     Path e1.1 = Path e2.1 -> Param_Name e1.2 = Param_Name e2.2) ->
  onePerPath m.
Proof.
  intros H f1 f2 p1 p2 H1 H2. apply (H (f1, p1) (f2, p2));
    now apply list_elem_of_In, elem_of_map_to_list.
Qed.

Lemma oneName_intro (m : gmap Field Param) :
  (forall e1 e2, In e1 (map_to_list m) -> In e2 (map_to_list m) ->
     Param_Name e1.2 = Param_Name e2.2) ->
  oneName m.
Proof.
  intros H f1 f2 p1 p2 H1 H2. apply (H (f1, p1) (f2, p2));
    now apply list_elem_of_In, elem_of_map_to_list.
Qed.

Lemma orderFreeJSON_insertTwo : orderFreeJSON mongodb.New (docql.ast insertTwo).
Proof.
  constructor. split; [ | constructor ].
  constructor; [ | constructor ]. apply onePerPath_intro.
  vm_compute. intros e1 e2 [<-|[<-|[]]] [<-|[<-|[]]] H;
    first [ reflexivity | discriminate H ].
Qed.

Lemma namesAgree_updateTwoAlike : namesAgree (docql.ast updateTwoAlike).
Proof.
  split; [ constructor | split; [ | constructor ] ].
  constructor; [ | constructor ]. apply oneName_intro.
  vm_compute. intros e1 e2 [<-|[<-|[]]] [<-|[<-|[]]]; reflexivity.
Qed.

Lemma render_twice_witness :
  provided mongodb.New /\ fair stored /\ fair reversed /\
  sameUpToOrder (docql.Render mongodb.New stored (docql.ast insertTwo))
    (docql.Render mongodb.New reversed (docql.ast insertTwo)) /\
  orderFreeJSON mongodb.New (docql.ast insertTwo) /\
  sameJSON (docql.Render mongodb.New stored (docql.ast insertTwo))
    (docql.Render mongodb.New reversed (docql.ast insertTwo)) /\
  namesAgree (docql.ast updateTwoAlike) /\
  sameParams (docql.Render mongodb.New stored (docql.ast updateTwoAlike))
    (docql.Render mongodb.New reversed (docql.ast updateTwoAlike)) /\
  singleEntryMaps (docql.ast insertOne) /\
  docql.Render mongodb.New stored (docql.ast insertOne)
  = docql.Render mongodb.New reversed (docql.ast insertOne).
Proof.
  destruct (render_twice mongodb.New stored reversed (docql.ast insertTwo)
              provided_mongodb stored_fair reversed_fair) as (Hsame & Hjson & _ & _).
  destruct (render_twice mongodb.New stored reversed (docql.ast updateTwoAlike)
              provided_mongodb stored_fair reversed_fair) as (_ & _ & Hnames & _).
  destruct (render_twice mongodb.New stored reversed (docql.ast insertOne)
              provided_mongodb stored_fair reversed_fair) as (_ & _ & _ & Hsingle).
  split; [ exact provided_mongodb | ].
  split; [ exact stored_fair | split; [ exact reversed_fair | ] ].
  split; [ exact Hsame | ].
  split; [ exact orderFreeJSON_insertTwo | ].
  split; [ exact (Hjson orderFreeJSON_insertTwo) | ].
  split; [ exact namesAgree_updateTwoAlike | ].
  split; [ exact (Hnames namesAgree_updateTwoAlike) | ].
  split; [ exact singleEntryMaps_insertOne | ].
  exact (Hsingle singleEntryMaps_insertOne).
Defined.

(** ** Identifiers and field paths *)

(** The bytes a field path may hold: letters, digits, underscores, dollar
    signs and dots. *)
Lemma toLowerByte_valid (c : ascii) :
  docql.validRest c || Ascii.eqb c docql.dollar || Ascii.eqb c docql.dot = true ->
  docql.validRest (docql.toLowerByte c) || Ascii.eqb (docql.toLowerByte c) docql.dollar
  || Ascii.eqb (docql.toLowerByte c) docql.dot = true.
Proof.
  destruct c as [[] [] [] [] [] [] [] []]; vm_compute; congruence.
Qed.

Lemma bytes_ToLower (s : string) :
  bytes (docql.ToLower s) = map docql.toLowerByte (bytes s).
Proof.
  unfold bytes. induction s as [|c s IH]; cbn; [ reflexivity | now rewrite IH ].
Qed.

Lemma prefix_bytes (p s : string) (c : ascii) :
  String.prefix p s = true -> In c (bytes p) -> In c (bytes s).
Proof.
  unfold bytes. revert s. induction p as [|a p IH]; intros s; [ cbn; tauto | ].
  destruct s as [|b s]; cbn; [ discriminate | ].
  destruct (ascii_dec a b) as [-> | _]; [ | discriminate ].
  intros Hp [-> | Hin]; [ now left | right; now apply IH ].
Qed.

(** Every byte of a fragment that occurs in [s] is a byte of [s]. *)
Lemma Contains_bytes (s p : string) (c : ascii) :
  docql.Contains s p = true -> In c (bytes p) -> In c (bytes s).
Proof.
  induction s as [|a s IH]; cbn [docql.Contains]; intros H Hin.
  - apply orb_true_iff in H as [H | H]; [ | discriminate ].
    now apply (prefix_bytes p "").
  - apply orb_true_iff in H as [H | H].
    + now apply (prefix_bytes p (String a s)).
    + right. now apply IH.
Qed.

(** A string of path bytes holds no space and no fragment of the
    denylist: each fragment has a byte that is no path byte. *)
Lemma path_bytes_clean (s : string) :
  Forall (fun c => docql.validRest c || Ascii.eqb c docql.dollar
                   || Ascii.eqb c docql.dot = true) (bytes s) ->
  docql.Contains s " " = false /\
  existsb (docql.Contains (docql.ToLower s)) docql.suspiciousPatterns = false.
Proof.
  intros Hs. split.
  - destruct (docql.Contains s " ") eqn:Hc; [ | reflexivity ].
    pose proof (Contains_bytes s " " " "%char Hc (or_introl eq_refl)) as Hin.
    pose proof (proj1 (List.Forall_forall _ _) Hs _ Hin) as Hb. discriminate Hb.
  - destruct (existsb _ _) eqn:He; [ | reflexivity ].
    apply existsb_exists in He as (p & Hp & Hc).
    assert (Hbad : exists c, In c (bytes p) /\
              docql.validRest c || Ascii.eqb c docql.dollar
              || Ascii.eqb c docql.dot = false).
    { assert (Hall : forallb
                (fun p => existsb
                   (fun c => negb (docql.validRest c || Ascii.eqb c docql.dollar
                                   || Ascii.eqb c docql.dot)) (bytes p))
                docql.suspiciousPatterns = true) by (vm_compute; reflexivity).
      pose proof (proj1 (forallb_forall _ _) Hall p Hp) as Hex.
      apply existsb_exists in Hex as (c & Hin & Hc').
      exists c. split; [ exact Hin | now apply negb_true_iff ]. }
    destruct Hbad as (c & Hin & Hc').
    pose proof (Contains_bytes _ _ c Hc Hin) as Hlow.
    rewrite bytes_ToLower in Hlow. apply in_map_iff in Hlow as (c0 & <- & Hin0).
    pose proof (proj1 (List.Forall_forall _ _) Hs _ Hin0) as Hb.
    apply toLowerByte_valid in Hb. congruence.
Qed.
Lemma allRest_Forall (s : string) :
  docql.allRest s = true <-> Forall (fun c => docql.validRest c = true) (bytes s).
Proof.
  unfold bytes. induction s as [|c s IH]; cbn.
  - split; [ constructor | reflexivity ].
  - rewrite andb_true_iff, IH. split.
    + intros [Hc Hs]. now constructor.
    + intros H. inversion H; subst. now split.
Qed.

Lemma identifier_shape_iff (s : string) :
  docql.isValidIdentifier s = true <->
  exists (c : ascii) (rest : string),
    s = String c rest /\ docql.validFirst c = true /\
    Forall (fun c => docql.validRest c = true) (bytes rest).
Proof.
  split.
  - destruct s as [|c rest]; [ discriminate | ]. unfold docql.isValidIdentifier.
    destruct (docql.Contains (String c rest) " "); [ discriminate | ].
    destruct (docql.validFirst c && docql.allRest rest) eqn:Hv; [ | discriminate ].
    intros _. apply andb_true_iff in Hv as [Hc Hrest].
    exists c, rest. split; [ reflexivity | split; [ exact Hc | ] ].
    now apply allRest_Forall.
  - intros (c & rest & -> & Hc & Hrest). unfold docql.isValidIdentifier.
    assert (Hall : Forall (fun c => docql.validRest c || Ascii.eqb c docql.dollar
                                   || Ascii.eqb c docql.dot = true)
                     (bytes (String c rest))).
    { unfold bytes in *. cbn. constructor.
      - now rewrite (validRest_of_first c Hc).
      - eapply List.Forall_impl; [ | exact Hrest ]. cbn. intros a Ha. now rewrite Ha. }
    destruct (path_bytes_clean _ Hall) as [-> ->].
    apply allRest_Forall in Hrest. now rewrite Hc, Hrest.
Qed.

(** X1: [isValidIdentifier] accepts exactly the non-empty names that start
    with a letter or an underscore and go on with letters, digits and
    underscores.  The test for a space and the denylist refuse no name that
    passes the test on the bytes. *)
Theorem identifier_shape (s : string) :
  docql.isValidIdentifier s = true <->
  exists (c : ascii) (rest : string),
    s = String c rest /\ docql.validFirst c = true /\
    Forall (fun c => docql.validRest c = true) (bytes rest).
Proof. exact (identifier_shape_iff s). Qed.

Lemma Split_cons (s : string) (sep : ascii) :
  exists part parts, docql.Split s sep = part :: parts.
Proof.
  induction s as [|c s (p & ps & IH)]; cbn; [ now eauto | ].
  destruct (Ascii.eqb c sep); [ now eauto | ]. rewrite IH. now eauto.
Qed.

(** Splitting at the separator that joins two strings. *)
Lemma Split_join (a b : string) (sep : ascii) :
  docql.Split (a +:+ String sep b) sep = docql.Split a sep ++ docql.Split b sep.
Proof.
  induction a as [|c a IH].
  - change ("" +:+ String sep b) with (String sep b). cbn.
    now rewrite Ascii.eqb_refl.
  - change (String c a +:+ String sep b) with (String c (a +:+ String sep b)).
    cbn. destruct (Ascii.eqb c sep); [ now rewrite IH | ].
    rewrite IH. destruct (Split_cons a sep) as (p & ps & ->). reflexivity.
Qed.

(** A string without the separator is one part. *)
Lemma Split_one (s : string) (sep : ascii) :
  ~ In sep (bytes s) -> docql.Split s sep = [s].
Proof.
  unfold bytes. induction s as [|c s IH]; cbn; [ reflexivity | ].
  intros H. destruct (Ascii.eqb c sep) eqn:Hc.
  - apply Ascii.eqb_eq in Hc. tauto.
  - rewrite IH; [ reflexivity | tauto ].
Qed.

Lemma validPart_bytes (p : string) :
  docql.validPart p = true ->
  Forall (fun c => docql.validRest c || Ascii.eqb c docql.dollar = true) (bytes p).
Proof.
  destruct p as [|c rest]; [ discriminate | ]. cbn [docql.validPart].
  intros H. apply andb_true_iff in H as [Hc Hrest]. unfold bytes. cbn.
  constructor.
  - unfold docql.validPathFirst in Hc. unfold docql.validRest.
    destruct (docql.isLetter c), (docql.isDigit c), (Ascii.eqb c docql.underscore),
      (Ascii.eqb c docql.dollar); cbn in *; congruence.
  - apply allRest_Forall in Hrest.
    eapply List.Forall_impl; [ | exact Hrest ]. cbn. intros a Ha. now rewrite Ha.
Qed.

(** The bytes of a path whose parts pass hold no byte outside the path
    bytes; the first part may still be unfinished. *)
Lemma parts_bytes (s : string) :
  match docql.Split s docql.dot with
  | part :: parts =>
      Forall (fun c => docql.validRest c || Ascii.eqb c docql.dollar = true)
        (bytes part) /\
      forallb docql.validPart parts = true
  | [] => False
  end ->
  Forall (fun c => docql.validRest c || Ascii.eqb c docql.dollar
                   || Ascii.eqb c docql.dot = true) (bytes s).
Proof.
  unfold bytes. induction s as [|c s IH]; cbn; [ constructor | ].
  destruct (Split_cons s docql.dot) as (p & ps & Hsplit). rewrite Hsplit in *.
  destruct (Ascii.eqb c docql.dot) eqn:Hc.
  - intros [_ Hparts]. constructor; [ now rewrite Hc, orb_true_r | ].
    apply IH. cbn in Hparts. apply andb_true_iff in Hparts as [Hp Hps].
    split; [ now apply validPart_bytes | exact Hps ].
  - cbn. intros [H Hps]. inversion H as [|? ? Hhead Htail]; subst.
    constructor; [ now rewrite Hhead | ]. apply IH. now split.
Qed.

(** The tests of [isValidFieldPath] for the empty string, for a space and
    for the denylist refuse no path whose parts all pass. *)
Lemma isValidFieldPath_parts (s : string) :
  docql.isValidFieldPath s = forallb docql.validPart (docql.Split s docql.dot).
Proof.
  unfold docql.isValidFieldPath.
  destruct (forallb docql.validPart (docql.Split s docql.dot)) eqn:Hparts.
  - assert (Hs : s <> "") by (intros ->; discriminate).
    apply String.eqb_neq in Hs. rewrite Hs.
    assert (Hall : Forall (fun c => docql.validRest c || Ascii.eqb c docql.dollar
                                     || Ascii.eqb c docql.dot = true) (bytes s)).
    { apply parts_bytes.
      destruct (Split_cons s docql.dot) as (p & ps & Hsplit). rewrite Hsplit in *.
      cbn in Hparts. apply andb_true_iff in Hparts as [Hp Hps].
      split; [ now apply validPart_bytes | exact Hps ]. }
    destruct (path_bytes_clean s Hall) as [-> ->]. reflexivity.
  - destruct (s =? ""); [ reflexivity | ].
    destruct (docql.Contains s " "); reflexivity.
Qed.

Lemma isValidFieldPath_join (a b : string) :
  docql.isValidFieldPath (a +:+ "." +:+ b)
  = docql.isValidFieldPath a && docql.isValidFieldPath b.
Proof.
  rewrite !isValidFieldPath_parts.
  change ("." +:+ b) with (String docql.dot b).
  now rewrite Split_join, forallb_app.
Qed.

(** X2: a dot joins two field paths into a valid path exactly when both are
    valid; the empty path is not valid, so a path that starts or ends with
    a dot, or has two dots in a row, is refused. *)
Theorem field_path_join (a b : string) :
  docql.isValidFieldPath (a +:+ "." +:+ b)
  = docql.isValidFieldPath a && docql.isValidFieldPath b /\
  docql.isValidFieldPath "" = false.
Proof. split; [ apply isValidFieldPath_join | reflexivity ]. Qed.

(** X3: the valid identifiers are the valid field paths that hold no dot
    and no dollar sign. *)
Theorem identifier_is_plain_path (s : string) :
  docql.isValidIdentifier s = true <->
  docql.isValidFieldPath s = true /\
  ~ In docql.dot (bytes s) /\ ~ In docql.dollar (bytes s).
Proof.
  rewrite identifier_shape_iff, isValidFieldPath_parts. split.
  - intros (c & rest & -> & Hc & Hrest).
    assert (Hall : Forall (fun c => docql.validRest c = true) (bytes (String c rest))).
    { unfold bytes in *. cbn. constructor; [ now apply validRest_of_first | exact Hrest ]. }
    assert (Hno : forall x, docql.validRest x = false -> ~ In x (bytes (String c rest))).
    { intros x Hx Hin. pose proof (proj1 (List.Forall_forall _ _) Hall x Hin).
      congruence. }
    split; [ | split; apply Hno; reflexivity ].
    rewrite Split_one by (apply Hno; reflexivity).
    cbn. apply allRest_Forall in Hrest. rewrite Hrest.
    unfold docql.validPathFirst, docql.validFirst in *.
    destruct (docql.isLetter c), (Ascii.eqb c docql.underscore); cbn in *; congruence.
  - intros (Hparts & Hdot & Hdollar). rewrite Split_one in Hparts by exact Hdot.
    destruct s as [|c rest]; [ discriminate | ]. cbn in Hparts.
    rewrite andb_true_r in Hparts. apply andb_true_iff in Hparts as [Hc Hrest].
    exists c, rest. split; [ reflexivity | split; [ | now apply allRest_Forall ] ].
    unfold docql.validPathFirst in Hc. unfold docql.validFirst.
    destruct (Ascii.eqb c docql.dollar) eqn:Hd.
    + apply Ascii.eqb_eq in Hd. subst c. exfalso. apply Hdollar. now left.
    + now rewrite orb_false_r in Hc.
Qed.

(** ** The schema instance *)


(** The loop of [NewFromDDML] over a list of entries, last entry first. *)
Lemma NewFromDDML_fold (TypeObject TypeArray : ddml.FieldType)
    (sch : ddml.Schema) (l : list (string * ddml.Collection)) :
  fold_left
    (fun d '(name, coll) =>
       docql.mkDOCQL (docql.schema d) (<[name := coll]> (docql.collections d))
         (<[name := docql.indexFields TypeObject TypeArray ""
                      (ddml.Collection_Fields coll) ∅]> (docql.fields d))
         (docql.enums d))
    (rev l) (docql.mkDOCQL sch ∅ ∅ (ddml.Enums sch))
  = docql.mkDOCQL sch (list_to_map l)
      (list_to_map
         (prod_map id
            (fun coll => docql.indexFields TypeObject TypeArray ""
                           (ddml.Collection_Fields coll) ∅) <$> l))
      (ddml.Enums sch).
Proof.
  induction l as [|[name coll] l IH]; [ reflexivity | ].
  cbn [rev]. rewrite fold_left_app, IH. reflexivity.
Qed.

(** The instance that [NewFromDDML] makes of a schema: the collections of
    the schema, and for each of them the index of its fields. *)
Lemma NewFromDDML_instance (TypeObject TypeArray : ddml.FieldType)
    (o : MapOrder) (sch : ddml.Schema) :
  fair o ->
  docql.NewFromDDML TypeObject TypeArray o (Some sch)
  = Ok (docql.mkDOCQL sch (ddml.Collections sch)
          ((fun coll => docql.indexFields TypeObject TypeArray ""
                          (ddml.Collection_Fields coll) ∅)
             <$> ddml.Collections sch)
          (ddml.Enums sch)).
Proof.
  intros Ho. unfold docql.NewFromDDML. f_equal.
  set (l := range_order o 0 (map_to_list (ddml.Collections sch))).
  assert (Hl : Permutation (map_to_list (ddml.Collections sch)) (rev l)).
  { etransitivity; [ symmetry; apply (Ho _ 0%nat) | apply Permutation_rev ]. }
  rewrite <- (rev_involutive l).
  rewrite (NewFromDDML_fold TypeObject TypeArray sch (rev l)).
  rewrite list_to_map_fmap, <- (list_to_map_flip _ _ Hl). reflexivity.
Qed.

(** X5: the instance that [NewFromDDML] returns does not depend on the
    order in which the collections of the schema are visited: it holds the
    collections of the schema and, for each, the index of its fields.
    [TryC] on it accepts exactly the valid identifiers that name a
    collection of the schema.  A nil schema is refused. *)
Theorem NewFromDDML_order_free (TypeObject TypeArray : ddml.FieldType)
    (o : MapOrder) (sch : ddml.Schema) :
  fair o ->
  exists d : docql.DOCQL,
    docql.NewFromDDML TypeObject TypeArray o (Some sch) = Ok d /\
    d = docql.mkDOCQL sch (ddml.Collections sch)
          ((fun coll => docql.indexFields TypeObject TypeArray ""
                          (ddml.Collection_Fields coll) ∅)
             <$> ddml.Collections sch)
          (ddml.Enums sch) /\
    (forall name : string,
       docql.TryC d name
       = if docql.isValidIdentifier name then
           match ddml.Collections sch !! name with
           | Some _ => Ok (mkCollection name)
           | None => Err ("collection '" +:+ name +:+ "' not found in schema")
           end
         else Err ("invalid collection name: " +:+ name)) /\
    docql.NewFromDDML TypeObject TypeArray o None = Err "schema cannot be nil".
Proof.
  intros Ho. eexists. split; [ now apply NewFromDDML_instance | ].
  split; [ reflexivity | split; [ | reflexivity ] ].
  intros name. unfold docql.TryC. cbn [docql.collections].
  destruct (docql.isValidIdentifier name); reflexivity.
Qed.

(** Induction on a field, with the property for its sub-fields and for the
    fields of its element type. *)
Lemma ddml_Field_nested_ind (P : ddml.Field -> Prop) :
  (forall name type required fields arrayOf,
     Forall P fields ->
     (forall a, arrayOf = Some a -> Forall P (ddml.Fields a)) ->
     P (ddml.mkField name type required fields arrayOf)) ->
  forall f, P f.
Proof.
  intros Hfield. fix IH 1. intros [name type required fields arrayOf].
  apply Hfield.
  - induction fields as [|g fields IHfields]; constructor;
      [ apply IH | exact IHfields ].
  - destruct arrayOf as [[n t r efs arr]|]; [ | discriminate ].
    intros a [= <-]. cbn.
    induction efs as [|g efs IHefs]; constructor; [ apply IH | exact IHefs ].
Qed.

Section Index.
Variables TypeObject TypeArray : ddml.FieldType.

Lemma fold_index_keeps (prefix : string) (fs : list ddml.Field)
    (index : gmap string ddml.Field) (k : string) :
  Forall (fun f => forall prefix index,
            is_Some (index !! k) ->
            is_Some (docql.indexField TypeObject TypeArray prefix f index !! k)) fs ->
  is_Some (index !! k) ->
  is_Some (fold_left (fun index g => docql.indexField TypeObject TypeArray prefix g index)
             fs index !! k).
Proof.
  intros Hfs. revert index. induction Hfs as [|f fs Hf _ IH]; intros index Hk;
    [ exact Hk | ].
  cbn. apply IH. now apply Hf.
Qed.

(** [indexField] adds paths to the index and drops none. *)
Lemma indexField_keeps (k : string) (f : ddml.Field) :
  forall prefix index,
    is_Some (index !! k) ->
    is_Some (docql.indexField TypeObject TypeArray prefix f index !! k).
Proof.
  induction f as [name type required fields arrayOf Hfields Harray]
    using ddml_Field_nested_ind.
  intros prefix index Hk. cbn [docql.indexField].
  set (path := if negb (prefix =? "") then prefix +:+ "." +:+ name else name).
  assert (H1 : is_Some (<[path := ddml.mkField name type required fields arrayOf]>
                          index !! k))
    by (apply lookup_insert_is_Some'; now right).
  set (index1 := <[path := _]> index) in *.
  assert (H2 : is_Some
                 ((if (type =? TypeObject) && (len fields >? 0) then
                     fold_left (fun index g =>
                                  docql.indexField TypeObject TypeArray path g index)
                       fields index1
                   else index1) !! k)).
  { destruct ((type =? TypeObject) && (len fields >? 0)); [ | exact H1 ].
    now apply fold_index_keeps. }
  set (index2 := if (type =? TypeObject) && (len fields >? 0) then _ else _) in *.
  destruct (type =? TypeArray); [ | exact H2 ].
  destruct arrayOf as [[n t r efs arr]|]; [ | exact H2 ].
  destruct (t =? TypeObject); [ | exact H2 ].
  apply fold_index_keeps; [ | exact H2 ]. exact (Harray _ eq_refl).
Qed.

(** [indexField] stores the field under its path. *)
Lemma indexField_self (prefix : string) (f : ddml.Field)
    (index : gmap string ddml.Field) :
  is_Some (docql.indexField TypeObject TypeArray prefix f index !! pathOf prefix f).
Proof.
  destruct f as [name type required fields arrayOf]. cbn [docql.indexField].
  unfold pathOf. cbn [ddml.Name].
  set (path := if negb (prefix =? "") then prefix +:+ "." +:+ name else name).
  assert (H1 : is_Some (<[path := ddml.mkField name type required fields arrayOf]>
                          index !! path))
    by (apply lookup_insert_is_Some'; now left).
  set (index1 := <[path := _]> index) in *.
  assert (H2 : is_Some
                 ((if (type =? TypeObject) && (len fields >? 0) then
                     fold_left (fun index g =>
                                  docql.indexField TypeObject TypeArray path g index)
                       fields index1
                   else index1) !! path)).
  { destruct ((type =? TypeObject) && (len fields >? 0)); [ | exact H1 ].
    apply fold_index_keeps; [ | exact H1 ].
    apply List.Forall_forall. intros g _. apply indexField_keeps. }
  set (index2 := if (type =? TypeObject) && (len fields >? 0) then _ else _) in *.
  destruct (type =? TypeArray); [ | exact H2 ].
  destruct arrayOf as [[n t r efs arr]|]; [ | exact H2 ].
  destruct (t =? TypeObject); [ | exact H2 ].
  apply fold_index_keeps; [ | exact H2 ].
  apply List.Forall_forall. intros g _. apply indexField_keeps.
Qed.

(** The loop over a list of fields stores each of them. *)
Lemma fold_index_member (prefix : string) (fs : list ddml.Field) (g : ddml.Field)
    (index : gmap string ddml.Field) :
  In g fs ->
  is_Some (fold_left (fun index g => docql.indexField TypeObject TypeArray prefix g index)
             fs index !! pathOf prefix g).
Proof.
  revert index. induction fs as [|f fs IH]; intros index; [ intros [] | ].
  intros [-> | Hin]; cbn.
  - apply fold_index_keeps; [ | apply indexField_self ].
    apply List.Forall_forall. intros h _. apply indexField_keeps.
  - now apply IH.
Qed.

(** The sub-fields of an object field are stored under its path. *)
Lemma indexField_child (prefix : string) (f g : ddml.Field)
    (index : gmap string ddml.Field) :
  ddml.Type_ f = TypeObject -> In g (ddml.Fields f) ->
  is_Some (docql.indexField TypeObject TypeArray prefix f index
             !! pathOf (pathOf prefix f) g).
Proof.
  destruct f as [name type required fields arrayOf]. cbn [ddml.Type_ ddml.Fields].
  intros -> Hin. cbn [docql.indexField]. unfold pathOf at 2. cbn [ddml.Name].
  set (path := if negb (prefix =? "") then prefix +:+ "." +:+ name else name).
  set (index1 := <[path := _]> index).
  assert (Hlen : (len fields >? 0) = true).
  { destruct fields; [ destruct Hin | ]. apply Z.gtb_lt. unfold len.
    cbn [length]. lia. }
  rewrite String.eqb_refl, Hlen. cbn [andb].
  pose proof (fold_index_member path fields g index1 Hin) as H2.
  set (index2 := fold_left _ fields index1) in *.
  destruct (TypeObject =? TypeArray); [ | exact H2 ].
  destruct arrayOf as [[n t r efs arr]|]; [ | exact H2 ].
  destruct (t =? TypeObject); [ | exact H2 ].
  apply fold_index_keeps; [ | exact H2 ].
  apply List.Forall_forall. intros h _. apply indexField_keeps.
Qed.

(** The loop over a list of fields stores the sub-fields of its object
    fields. *)
Lemma fold_index_child (prefix : string) (fs : list ddml.Field) (f g : ddml.Field)
    (index : gmap string ddml.Field) :
  In f fs -> ddml.Type_ f = TypeObject -> In g (ddml.Fields f) ->
  is_Some (fold_left (fun index g => docql.indexField TypeObject TypeArray prefix g index)
             fs index !! pathOf (pathOf prefix f) g).
Proof.
  revert index. induction fs as [|h fs IH]; intros index; [ intros [] | ].
  intros [-> | Hin] Htype Hg; cbn.
  - apply fold_index_keeps; [ | now apply indexField_child ].
    apply List.Forall_forall. intros h _. apply indexField_keeps.
  - now apply IH.
Qed.

End Index.

(** X6: on the instance made of a schema, for an object field [f] of a
    collection with a name and a sub-field [g], [TryF] resolves the name of
    [f] exactly when it is a valid field path, and the dotted path of [g]
    exactly when both names are valid field paths. *)
Theorem schema_fields_resolve (TypeObject TypeArray : ddml.FieldType)
    (o : MapOrder) (sch : ddml.Schema) (d : docql.DOCQL) (c : string)
    (coll : ddml.Collection) (f g : ddml.Field) :
  fair o ->
  docql.NewFromDDML TypeObject TypeArray o (Some sch) = Ok d ->
  ddml.Collections sch !! c = Some coll ->
  In f (ddml.Collection_Fields coll) ->
  ddml.Type_ f = TypeObject -> In g (ddml.Fields f) -> ddml.Name f <> "" ->
  docql.TryF d c (ddml.Name f)
  = (if docql.isValidFieldPath (ddml.Name f) then Ok (mkField (ddml.Name f) c)
     else Err ("invalid field path: " +:+ ddml.Name f)) /\
  is_ok (docql.TryF d c (ddml.Name f +:+ "." +:+ ddml.Name g))
  = docql.isValidFieldPath (ddml.Name f) && docql.isValidFieldPath (ddml.Name g).
Proof.
  intros Ho Hd Hc Hf Htype Hg Hname.
  rewrite (NewFromDDML_instance TypeObject TypeArray o sch Ho) in Hd.
  injection Hd as <-. unfold docql.TryF. cbn [docql.fields].
  rewrite lookup_fmap, Hc. cbn [fmap option_fmap option_map].
  unfold docql.indexFields.
  pose proof (fold_index_member TypeObject TypeArray "" _ f ∅ Hf) as [x Hx].
  pose proof (fold_index_child TypeObject TypeArray "" _ f g ∅ Hf Htype Hg)
    as [y Hy].
  unfold pathOf in Hx, Hy. cbn [String.eqb negb] in Hx, Hy.
  apply String.eqb_neq in Hname. rewrite Hname in Hy. cbn [negb] in Hy.
  split.
  - destruct (docql.isValidFieldPath (ddml.Name f)); cbn [negb]; [ | reflexivity ].
    now rewrite Hx.
  - rewrite <- isValidFieldPath_join.
    destruct (docql.isValidFieldPath (ddml.Name f +:+ "." +:+ ddml.Name g));
      cbn [negb]; [ | reflexivity ].
    now rewrite Hy.
Qed.


Lemma NewFromDDML_order_free_witness :
  exists d : docql.DOCQL,
    docql.NewFromDDML objectType arrayType reversed (Some usersSchema) = Ok d /\
    d = usersInstance /\
    docql.TryC d "users" = Ok (mkCollection "users") /\
    docql.TryC d "orders" = Err "collection 'orders' not found in schema".
Proof.
  destruct (NewFromDDML_order_free objectType arrayType reversed usersSchema
              reversed_fair) as (d & Hd & Heq & HC & _).
  exists d. split; [ exact Hd | split; [ exact Heq | ] ].
  rewrite !HC. split; reflexivity.
Defined.

Lemma schema_fields_resolve_witness :
  docql.TryF usersInstance "users" "address" = Ok (mkField "address" "users") /\
  is_ok (docql.TryF usersInstance "users" "address.city") = true.
Proof.
  apply (schema_fields_resolve objectType arrayType stored usersSchema
           usersInstance "users" usersCollection addressField cityField
           stored_fair).
  - vm_compute. reflexivity.
  - reflexivity.
  - right. left. reflexivity.
  - reflexivity.
  - left. reflexivity.
  - discriminate.
Defined.

(** ** The depth of a filter *)

Lemma height_nonneg (f : FilterItem) : 0 <= height f.
Proof.
  destruct f as [ | | logic cs | | | | | | field cs | ]; cbn [height]; try lia.
  - induction cs as [|c cs IH]; cbn [fold_right]; lia.
  - induction cs as [|c cs IH]; cbn [fold_right]; lia.
Qed.

(** The loop of [validateFilterDepth] over the conditions of a group. *)
Lemma validateFilterDepth_each (cs : list FilterItem) (depth : Z) :
  Forall (fun c => forall depth : Z,
            validateFilterDepth c depth = None
            <-> depth + height c <= MaxFilterDepth) cs ->
  depth <= MaxFilterDepth ->
  (fix each (cs : list FilterItem) : error :=
     match cs with
     | [] => None
     | c :: cs' =>
         match validateFilterDepth c (depth + 1) with
         | Some err => Some err
         | None => each cs'
         end
     end) cs = None
  <-> depth + fold_right (fun c h => Z.max (1 + height c) h) 0 cs <= MaxFilterDepth.
Proof.
  intros IH Hle. induction IH as [|c cs Hc _ IHcs]; cbn [fold_right].
  - split; [ lia | reflexivity ].
  - pose proof (Hc (depth + 1)) as Hc1. pose proof (height_nonneg c).
    destruct (validateFilterDepth c (depth + 1)) eqn:Hv.
    + split; [ discriminate | intros Hmax; exfalso ].
      assert (Hfit : depth + 1 + height c <= MaxFilterDepth) by lia.
      apply Hc1 in Hfit. discriminate.
    + rewrite IHcs. pose proof (proj1 Hc1 eq_refl). lia.
Qed.

(** The depth test passes from [depth] on exactly when the nesting of the
    filter fits below the limit. *)
Lemma validateFilterDepth_height (f : FilterItem) :
  forall depth : Z,
    validateFilterDepth f depth = None <-> depth + height f <= MaxFilterDepth.
Proof.
  induction f as [ | | logic cs IH | | | | | | field cs IH | ]
    using FilterItem_nested_ind; intros depth;
    match goal with |- context [height ?f] => pose proof (height_nonneg f) end;
    cbn [validateFilterDepth height] in *;
    destruct (Z.gtb_spec depth MaxFilterDepth) as [Hd | Hd];
    try (split; [ discriminate | lia ]);
    try (split; [ lia | reflexivity ]).
  - now apply validateFilterDepth_each.
  - now apply validateFilterDepth_each.
Qed.

(** X7: [validateFilterDepth] accepts a filter from [depth] on exactly when
    [depth] plus the number of groups and element matches nested in one
    another around its innermost item stays within [MaxFilterDepth]. *)
Theorem filter_depth_is_nesting (f : FilterItem) (depth : Z) :
  validateFilterDepth f depth = None <-> depth + height f <= MaxFilterDepth.
Proof. apply validateFilterDepth_height. Qed.

(** ** Chains of builder calls *)

(** A call on a builder that holds an error returns it as it is. *)
Lemma call_after_error (b : docql.Builder) (e : string) (c : Call) :
  docql.err b = Some e -> call b c = b.
Proof.
  intros He.
  destruct c; cbn [call];
    unfold docql.Where, docql.SortAsc, docql.SortDesc, docql.Inc_, docql.Mul_,
      docql.Push_, docql.Pull_, docql.AddToSet_, docql.Match, docql.Project,
      docql.Group, docql.Lookup, docql.Unwind, docql.Stage;
    unfold docql.Filter, docql.Select, docql.Exclude, docql.Sort, docql.Skip,
      docql.SkipParam, docql.Limit, docql.LimitParam, docql.Document_,
      docql.Documents_, docql.Set_, docql.Unset_, docql.updateWith,
      docql.Upsert_, docql.Stage_;
    now rewrite He.
Qed.

Lemma chain_after_error (b : docql.Builder) (e : string) (cs : list Call) :
  docql.err b = Some e -> chain b cs = b.
Proof.
  intros He. unfold chain. induction cs as [|c cs IH]; [ reflexivity | ].
  cbn [fold_left]. now rewrite (call_after_error b e c He).
Qed.

(** X8: once a builder holds an error, every later call returns it
    unchanged, and [Build] and [Render] return that first error without
    validating or rendering anything. *)
Theorem first_error_is_final (b : docql.Builder) (e : string) (cs : list Call)
    (o : MapOrder) (r : docql.Renderer) :
  docql.err b = Some e ->
  chain b cs = b /\
  docql.Build (chain b cs) = Err e /\
  docql.BuilderRender o (chain b cs) r = Err e.
Proof.
  intros He. rewrite (chain_after_error b e cs He).
  unfold docql.BuilderRender, docql.Build. now rewrite He.
Qed.

Lemma first_error_is_final_witness :
  docql.Build
    (chain (docql.Select (docql.Insert users) [fEmail])
       [CallDocument oneField; CallFilter statusIs])
  = Err "Select() can only be used with read operations".
Proof.
  apply (first_error_is_final (docql.Select (docql.Insert users) [fEmail])
           "Select() can only be used with read operations"
           [CallDocument oneField; CallFilter statusIs] stored mongodb.New).
  reflexivity.
Defined.

Lemma addOrMergeUpdate_keeps (b : docql.Builder) (op : UpdateOperator)
    (field : Field) (value : Param) :
  docql.err (docql.addOrMergeUpdate b op field value) = docql.err b /\
  Operation_ (docql.ast (docql.addOrMergeUpdate b op field value))
  = Operation_ (docql.ast b) /\
  Target (docql.ast (docql.addOrMergeUpdate b op field value))
  = Target (docql.ast b).
Proof.
  unfold docql.addOrMergeUpdate.
  destruct (docql.mergeUpdate _ _ _ _); repeat split; reflexivity.
Qed.

Lemma unset_loop_keeps (fields : list Field) (b : docql.Builder) :
  docql.err (fold_left (fun b' f => docql.addOrMergeUpdate b' Unset f (mkParam ""))
               fields b) = docql.err b /\
  Operation_ (docql.ast
                (fold_left (fun b' f => docql.addOrMergeUpdate b' Unset f (mkParam ""))
                   fields b)) = Operation_ (docql.ast b) /\
  Target (docql.ast
            (fold_left (fun b' f => docql.addOrMergeUpdate b' Unset f (mkParam ""))
               fields b)) = Target (docql.ast b).
Proof.
  revert b. induction fields as [|f fields IH]; intros b; [ now repeat split | ].
  cbn [fold_left]. destruct (IH (docql.addOrMergeUpdate b Unset f (mkParam "")))
    as (-> & -> & ->).
  apply addOrMergeUpdate_keeps.
Qed.

(** No call changes the operation or the target of the builder. *)
Lemma call_keeps_operation (b : docql.Builder) (c : Call) :
  Operation_ (docql.ast (call b c)) = Operation_ (docql.ast b) /\
  Target (docql.ast (call b c)) = Target (docql.ast b).
Proof.
  destruct c; cbn [call];
    unfold docql.Where, docql.SortAsc, docql.SortDesc, docql.Inc_, docql.Mul_,
      docql.Push_, docql.Pull_, docql.AddToSet_, docql.Match, docql.Project,
      docql.Group, docql.Lookup, docql.Unwind, docql.Stage;
    unfold docql.Filter, docql.Select, docql.Exclude, docql.Sort, docql.Skip,
      docql.SkipParam, docql.Limit, docql.LimitParam, docql.Document_,
      docql.Documents_, docql.Set_, docql.Unset_, docql.updateWith,
      docql.Upsert_, docql.Stage_;
    destruct (docql.err b); try (split; reflexivity);
    repeat match goal with
           | |- context [if ?x then _ else _] => destruct x
           end;
    try (split; reflexivity);
    try (destruct (addOrMergeUpdate_keeps b Set_ field value) as (_ & ? & ?);
         now split);
    try (destruct (unset_loop_keeps fields b) as (_ & ? & ?); now split);
    match goal with
    | |- context [docql.addOrMergeUpdate b ?op ?f ?v] =>
        destruct (addOrMergeUpdate_keeps b op f v) as (_ & ? & ?); now split
    end.
Qed.

(** X9: no chain of builder calls changes the operation or the target that
    the constructor has set. *)
Theorem chain_keeps_operation (b : docql.Builder) (cs : list Call) :
  Operation_ (docql.ast (chain b cs)) = Operation_ (docql.ast b) /\
  Target (docql.ast (chain b cs)) = Target (docql.ast b).
Proof.
  unfold chain. revert b. induction cs as [|c cs IH]; intros b; [ now split | ].
  cbn [fold_left]. destruct (IH (call b c)) as [-> ->].
  apply call_keeps_operation.
Qed.

Lemma addOrMergeUpdate_err (b : docql.Builder) (op : UpdateOperator)
    (field : Field) (value : Param) :
  docql.err (docql.addOrMergeUpdate b op field value) = docql.err b.
Proof. apply addOrMergeUpdate_keeps. Qed.

(** One call on a builder without error records an error exactly when its
    guard does not let it through. *)
Lemma call_guard (b : docql.Builder) (c : Call) :
  docql.err b = None ->
  (docql.err (call b c) = None <-> accepts (Operation_ (docql.ast b)) c = true).
Proof.
  intros He.
  destruct c; cbn [call accepts existsb];
    unfold docql.Where, docql.SortAsc, docql.SortDesc, docql.Inc_, docql.Mul_,
      docql.Push_, docql.Pull_, docql.AddToSet_, docql.Match, docql.Project,
      docql.Group, docql.Lookup, docql.Unwind, docql.Stage;
    unfold docql.Filter, docql.Select, docql.Exclude, docql.Sort, docql.Skip,
      docql.SkipParam, docql.Limit, docql.LimitParam, docql.Document_,
      docql.Documents_, docql.Set_, docql.Unset_, docql.updateWith,
      docql.Upsert_, docql.Stage_, docql.isReadOperation, docql.isUpdateOperation;
    rewrite He; rewrite ?orb_false_r;
    try match goal with
        | |- context [(?n >? MaxLimit)%Z] =>
            replace (n <=? MaxLimit)%Z with (negb (n >? MaxLimit)%Z)
              by (rewrite Z.gtb_ltb, Z.leb_antisym; reflexivity)
        end;
    repeat match goal with
           | |- context [String.eqb ?x ?y] => destruct (String.eqb x y)
           | |- context [(?x >? ?y)%Z] => destruct (x >? y)%Z
           | |- context [isNil ?x] => destruct (isNil x)
           end;
    cbn [negb andb orb docql.err];
    rewrite ?addOrMergeUpdate_err, ?(proj1 (unset_loop_keeps _ _)), ?He;
    cbn [docql.err];
    first [ split; [ reflexivity | reflexivity ]
          | split; [ intros _; reflexivity | intros _; exact He ]
          | split; discriminate ].
Qed.

Lemma chain_guard (b : docql.Builder) (cs : list Call) :
  docql.err b = None ->
  (docql.err (chain b cs) = None
   <-> Forall (fun c => accepts (Operation_ (docql.ast b)) c = true) cs).
Proof.
  unfold chain. revert b. induction cs as [|c cs IH]; intros b He.
  - split; [ constructor | intros _; exact He ].
  - cbn [fold_left]. pose proof (call_guard b c He) as Hc.
    destruct (docql.err (call b c)) as [e|] eqn:Hcall.
    + fold (chain (call b c) cs). rewrite (chain_after_error _ e cs Hcall), Hcall.
      split; [ discriminate | ]. intros H. inversion H; subst.
      apply Hc. assumption.
    + rewrite (IH (call b c) Hcall).
      rewrite (proj1 (call_keeps_operation b c)).
      split.
      * intros H. constructor; [ now apply Hc | exact H ].
      * intros H. now inversion H.
Qed.

(** X10: a chain of calls on a builder without error records no error exactly
    when the guard of every call lets it through for the operation of the
    builder: the result-shaping calls on read operations, [Limit] with a
    number within [MaxLimit], [Document] on the two inserts, [Documents] on
    [InsertMany], the update calls on the two updates, the stage calls on
    [Aggregate], and [Filter] and [Where] on every operation. *)
Theorem chain_accepted (b : docql.Builder) (cs : list Call) :
  docql.err b = None ->
  (docql.err (chain b cs) = None
   <-> Forall (fun c => accepts (Operation_ (docql.ast b)) c = true) cs).
Proof. apply chain_guard. Qed.

Lemma chain_accepted_witness :
  docql.err (chain (docql.Count users) [CallFilter statusIs; CallLimit 5]) = None /\
  docql.err (chain (docql.Delete users) [CallFilter statusIs; CallLimit 5]) <> None.
Proof.
  split.
  - apply (chain_accepted (docql.Count users) [CallFilter statusIs; CallLimit 5]
             eq_refl).
    repeat constructor.
  - intros H.
    apply (chain_accepted (docql.Delete users) [CallFilter statusIs; CallLimit 5]
             eq_refl) in H.
    inversion H as [|? ? _ Hrest]; subst. inversion Hrest as [|? ? Hlimit _]; subst.
    discriminate Hlimit.
Defined.

(** ** Update operations *)

(** [mergeUpdate] keeps the operators of the list, in order. *)
Lemma mergeUpdate_operators (ops ops' : list UpdateOperation) (op : UpdateOperator)
    (field : Field) (value : Param) :
  docql.mergeUpdate ops op field value = Some ops' ->
  map Operator ops' = map Operator ops.
Proof.
  revert ops'. induction ops as [|u ops IH]; intros ops'; cbn; [ discriminate | ].
  destruct (Operator u =? op).
  - intros [= <-]. reflexivity.
  - destruct (docql.mergeUpdate ops op field value) as [rest|]; [ | discriminate ].
    intros [= <-]. cbn. now rewrite (IH rest eq_refl).
Qed.

(** [mergeUpdate] finds nothing only where no operation has the operator. *)
Lemma mergeUpdate_none (ops : list UpdateOperation) (op : UpdateOperator)
    (field : Field) (value : Param) :
  docql.mergeUpdate ops op field value = None -> ~ In op (map Operator ops).
Proof.
  induction ops as [|u ops IH]; cbn; [ tauto | ].
  destruct (Operator u =? op) eqn:Hu; [ discriminate | ].
  destruct (docql.mergeUpdate ops op field value); [ discriminate | ].
  intros _ [H | H]; [ | now apply IH ].
  apply String.eqb_neq in Hu. contradiction.
Qed.

Lemma addOrMergeUpdate_NoDup (b : docql.Builder) (op : UpdateOperator)
    (field : Field) (value : Param) :
  NoDup (map Operator (UpdateOps (docql.ast b))) ->
  NoDup (map Operator
           (UpdateOps (docql.ast (docql.addOrMergeUpdate b op field value)))).
Proof.
  intros Hb. unfold docql.addOrMergeUpdate.
  destruct (docql.mergeUpdate _ _ _ _) as [ops|] eqn:Hm; cbn.
  - now rewrite (mergeUpdate_operators _ _ _ _ _ Hm).
  - rewrite map_app. cbn. apply NoDup_app. split; [ exact Hb | split ].
    + intros x Hx Hin. apply list_elem_of_In in Hx.
      apply list_elem_of_In in Hin. destruct Hin as [<- | []].
      now apply (mergeUpdate_none _ _ _ _ Hm).
    + apply NoDup_singleton.
Qed.

Lemma unset_loop_NoDup (fields : list Field) (b : docql.Builder) :
  NoDup (map Operator (UpdateOps (docql.ast b))) ->
  NoDup (map Operator
           (UpdateOps
              (docql.ast
                 (fold_left
                    (fun b' f => docql.addOrMergeUpdate b' Unset f (mkParam ""))
                    fields b)))).
Proof.
  revert b. induction fields as [|f fields IH]; intros b Hb; [ exact Hb | ].
  cbn [fold_left]. apply IH. now apply addOrMergeUpdate_NoDup.
Qed.

Lemma call_NoDup (b : docql.Builder) (c : Call) :
  NoDup (map Operator (UpdateOps (docql.ast b))) ->
  NoDup (map Operator (UpdateOps (docql.ast (call b c)))).
Proof.
  intros Hb.
  destruct c; cbn [call];
    unfold docql.Where, docql.SortAsc, docql.SortDesc, docql.Inc_, docql.Mul_,
      docql.Push_, docql.Pull_, docql.AddToSet_, docql.Match, docql.Project,
      docql.Group, docql.Lookup, docql.Unwind, docql.Stage;
    unfold docql.Filter, docql.Select, docql.Exclude, docql.Sort, docql.Skip,
      docql.SkipParam, docql.Limit, docql.LimitParam, docql.Document_,
      docql.Documents_, docql.Set_, docql.Unset_, docql.updateWith,
      docql.Upsert_, docql.Stage_;
    destruct (docql.err b); try exact Hb;
    repeat match goal with
           | |- context [if ?x then _ else _] => destruct x
           end;
    try exact Hb;
    first [ now apply addOrMergeUpdate_NoDup | now apply unset_loop_NoDup ].
Qed.

(** X11: the update operations of a builder never hold two operations with
    the same operator: every chain of calls keeps the operators distinct,
    from each constructor on. *)
Theorem one_operation_per_operator (b : docql.Builder) (cs : list Call) :
  NoDup (map Operator (UpdateOps (docql.ast b))) ->
  NoDup (map Operator (UpdateOps (docql.ast (chain b cs)))).
Proof.
  unfold chain. revert b. induction cs as [|c cs IH]; intros b Hb; [ exact Hb | ].
  cbn [fold_left]. apply IH. now apply call_NoDup.
Qed.

Lemma one_operation_per_operator_witness :
  NoDup (map Operator
           (UpdateOps
              (docql.ast
                 (chain (docql.Update users)
                    [CallSet fAge (mkParam "age"); CallInc fAge (mkParam "by");
                     CallSet fName (mkParam "name"); CallUnset [fEmail; fStatus]])))).
Proof.
  apply (one_operation_per_operator (docql.Update users)). cbn. constructor.
Defined.

(** ** Chains of [Filter] calls and the depth limit *)

(** After a first clause, every further [Filter] call with an item that
    nests nothing puts the clause one level deeper. *)
Lemma Filter_chain_clause (fs : list FilterItem) :
  forall (a : DocumentAST),
    isNil (FilterClause a) = false ->
    Forall (fun f => isNil f = false /\ height f = 0) fs ->
    exists G : FilterItem,
      fold_left docql.Filter fs (docql.mkBuilder a None)
      = docql.mkBuilder (docql.setFilterClause a G) None /\
      isNil G = false /\
      height G = height (FilterClause a) + len fs.
Proof.
  induction fs as [|f fs IH]; intros a Ha Hfs.
  - exists (FilterClause a). split; [ now destruct a | split; [ exact Ha | ] ].
    unfold len. cbn. lia.
  - inversion Hfs as [|? ? [_ Hf] Hrest]; subst.
    cbn [fold_left]. unfold docql.Filter at 2. cbn [docql.err docql.ast].
    rewrite Ha.
    destruct (IH (docql.setFilterClause a (FilterGroup AND [FilterClause a; f])))
      as (G & HG & Hnil & Hheight); [ reflexivity | exact Hrest | ].
    exists G. split; [ | split; [ exact Hnil | ] ].
    + rewrite HG. reflexivity.
    + rewrite Hheight. cbn [docql.setFilterClause FilterClause height fold_right].
      rewrite Hf. pose proof (height_nonneg (FilterClause a)).
      unfold len. cbn [length]. lia.
Qed.

(** X12: [Filter] calls nest (see C6), so the depth limit of [Find] bounds
    their number: with items that nest nothing, [Find(c)] followed by [k]
    calls of [Filter] builds exactly when [k] is at most [MaxFilterDepth]
    plus one.  [Count] has no depth test and builds after any number of
    calls. *)
Theorem filter_chain_depth (c : Collection) (fs : list FilterItem) :
  Name c <> "" ->
  Forall (fun f => isNil f = false /\ height f = 0) fs ->
  is_ok (docql.Build (fold_left docql.Filter fs (docql.Find c)))
  = (len fs <=? MaxFilterDepth + 1)%Z /\
  is_ok (docql.Build (fold_left docql.Filter fs (docql.Count c))) = true.
Proof.
  intros Hc Hfs. apply String.eqb_neq in Hc.
  destruct fs as [|f fs].
  - cbn [fold_left]. unfold docql.Build, docql.Find, docql.Count, Validate.
    cbn. rewrite Hc. cbn. split; reflexivity.
  - inversion Hfs as [|? ? [Hnil Hf] Hrest]; subst. cbn [fold_left].
    split.
    + unfold docql.Find, docql.Filter at 2. cbn [docql.err docql.ast].
      cbn [docql.newAST FilterClause isNil].
      destruct (Filter_chain_clause fs
                  (docql.setFilterClause (docql.newAST OpFind c) f) Hnil Hrest)
        as (G & -> & HG & Hheight).
      unfold docql.Build. cbn [docql.err docql.ast].
      unfold Validate. cbn [docql.setFilterClause docql.newAST Target Operation_].
      rewrite Hc. cbn [String.eqb Ascii.eqb Bool.eqb OpFind orb].
      unfold validateFind.
      cbn [docql.setFilterClause docql.newAST Limit Projection_ SortClauses
           FilterClause].
      change (len (@nil SortClause) >? MaxSortFields) with false. cbv iota.
      rewrite HG. cbn [negb].
      cbn [docql.setFilterClause FilterClause] in Hheight. rewrite Hf in Hheight.
      pose proof (validateFilterDepth_height G 0) as Hv.
      unfold len in *. cbn [length]. rewrite Nat2Z.inj_succ.
      destruct (validateFilterDepth G 0) as [e|].
      * cbn. symmetry. apply Z.leb_gt.
        destruct (Z.le_gt_cases (0 + height G) MaxFilterDepth) as [Hle | Hgt];
          [ apply Hv in Hle; discriminate | lia ].
      * cbn. symmetry. apply Z.leb_le. pose proof (proj1 Hv eq_refl). lia.
    + unfold docql.Count, docql.Filter at 2. cbn [docql.err docql.ast].
      cbn [docql.newAST FilterClause isNil].
      destruct (Filter_chain_clause fs
                  (docql.setFilterClause (docql.newAST OpCount c) f) Hnil Hrest)
        as (G & -> & HG & Hheight).
      unfold docql.Build. cbn [docql.err docql.ast].
      unfold Validate. cbn [docql.setFilterClause docql.newAST Target Operation_].
      rewrite Hc. reflexivity.
Qed.

Lemma filter_chain_depth_witness :
  is_ok (docql.Build (fold_left docql.Filter (repeat statusIs 12) (docql.Find users)))
  = false /\
  is_ok (docql.Build (fold_left docql.Filter (repeat statusIs 12) (docql.Count users)))
  = true.
Proof.
  apply (filter_chain_depth users (repeat statusIs 12)).
  - discriminate.
  - repeat constructor.
Defined.

(** ** Documents of an insert *)

Lemma Document_chain (docs : list Document) :
  forall a : DocumentAST,
    (Operation_ a =? OpInsert) || (Operation_ a =? OpInsertMany) = true ->
    fold_left docql.Document_ docs (docql.mkBuilder a None)
    = docql.mkBuilder (docql.setDocuments a (Documents a ++ docs)) None.
Proof.
  induction docs as [|doc docs IH]; intros a Hop.
  - cbn. rewrite app_nil_r. now destruct a.
  - cbn [fold_left]. unfold docql.Document_ at 2. cbn [docql.err docql.ast].
    apply orb_true_iff in Hop as Hop'.
    assert (Hguard : negb (Operation_ a =? OpInsert)
                     && negb (Operation_ a =? OpInsertMany) = false).
    { destruct Hop' as [-> | ->]; [ reflexivity | apply andb_false_r ]. }
    rewrite Hguard, IH by exact Hop.
    cbn [docql.setDocuments Documents]. now rewrite <- app_assoc.
Qed.

(** X13: the number of documents is tested by [Build], not by [Document] or
    [Documents]: [Insert(c)] builds after exactly one [Document] call, and
    [InsertMany(c)] builds with one to [MaxBatchSize] documents, given one
    by one or as a list. *)
Theorem insert_document_count (c : Collection) (docs : list Document) :
  Name c <> "" ->
  is_ok (docql.Build (fold_left docql.Document_ docs (docql.Insert c)))
  = (len docs =? 1)%Z /\
  is_ok (docql.Build (fold_left docql.Document_ docs (docql.InsertMany c)))
  = (1 <=? len docs)%Z && (len docs <=? MaxBatchSize)%Z /\
  docql.Build (docql.Documents_ (docql.InsertMany c) docs)
  = docql.Build (fold_left docql.Document_ docs (docql.InsertMany c)).
Proof.
  intros Hc. apply String.eqb_neq in Hc.
  assert (H3 : docql.Documents_ (docql.InsertMany c) docs
               = fold_left docql.Document_ docs (docql.InsertMany c)).
  { unfold docql.InsertMany. now rewrite Document_chain by reflexivity. }
  rewrite H3. clear H3.
  unfold docql.Insert, docql.InsertMany.
  rewrite !Document_chain by reflexivity.
  unfold docql.Build, Validate.
  cbn [docql.err docql.ast docql.setDocuments docql.newAST Target Operation_
       Documents app].
  rewrite Hc.
  change (OpInsert =? OpFind) with false. change (OpInsert =? OpFindOne) with false.
  change (OpInsert =? OpInsert) with true.
  change (OpInsertMany =? OpFind) with false.
  change (OpInsertMany =? OpFindOne) with false.
  change (OpInsertMany =? OpInsert) with false.
  change (OpInsertMany =? OpInsertMany) with true.
  cbn [orb negb]. unfold validateInsert, validateInsertMany.
  cbn [Documents docql.setDocuments docql.newAST app].
  repeat split.
  - destruct (len docs =? 1)%Z; reflexivity.
  - destruct (Z.eqb_spec (len docs) 0) as [H0 | H0].
    + rewrite H0. reflexivity.
    + unfold len in *. destruct (Z.gtb_spec (Z.of_nat (length docs)) MaxBatchSize).
      * cbn. symmetry. apply andb_false_iff. right. apply Z.leb_gt. lia.
      * cbn. symmetry. apply andb_true_iff. split; apply Z.leb_le; lia.
Qed.

Lemma insert_document_count_witness :
  is_ok (docql.Build
           (fold_left docql.Document_ [oneField; twoFields] (docql.Insert users)))
  = false /\
  is_ok (docql.Build
           (fold_left docql.Document_ [oneField; twoFields] (docql.InsertMany users)))
  = true.
Proof.
  destruct (insert_document_count users [oneField; twoFields]) as (H1 & H2 & _);
    [ discriminate | ].
  split; [ exact H1 | exact H2 ].
Defined.

(** ** What a renderer does not read *)

Lemma sameButShape_refl (a : DocumentAST) : sameButShape a a.
Proof. repeat split. Qed.

Lemma sameButShape_trans (a b c : DocumentAST) :
  sameButShape a b -> sameButShape b c -> sameButShape a c.
Proof.
  intros (H1 & H2 & H3 & H4 & H5 & H6 & H7 & H8)
         (K1 & K2 & K3 & K4 & K5 & K6 & K7 & K8).
  repeat split; congruence.
Qed.

(** A result-shaping call leaves the rest of the AST alone. *)
Lemma call_shapes_only (b : docql.Builder) (c : Call) :
  shapesResult c = true -> sameButShape (docql.ast (call b c)) (docql.ast b).
Proof.
  destruct c; try discriminate; intros _; cbn [call];
    unfold docql.SortAsc, docql.SortDesc;
    unfold docql.Select, docql.Exclude, docql.Sort, docql.Skip,
      docql.SkipParam, docql.Limit, docql.LimitParam;
    destruct (docql.err b); try apply sameButShape_refl;
    repeat match goal with
           | |- context [if ?x then _ else _] => destruct x
           end;
    repeat split.
Qed.

Lemma chain_shapes_only (cs : list Call) :
  forall b : docql.Builder,
    Forall (fun c => shapesResult c = true) cs ->
    sameButShape (docql.ast (chain b cs)) (docql.ast b).
Proof.
  unfold chain. induction cs as [|c cs IH]; intros b Hcs;
    [ apply sameButShape_refl | ].
  inversion Hcs; subst. cbn [fold_left].
  eapply sameButShape_trans; [ now apply IH | now apply call_shapes_only ].
Qed.

(** Validation and the MongoDB renderer read no projection, sort order,
    skip or limit of a count, a distinct or an aggregate. *)
Lemma mongodb_shape_free (o : MapOrder) (a a' : DocumentAST) :
  sameButShape a a' ->
  In (Operation_ a') [OpCount; OpDistinct; OpAggregate] ->
  Validate a = Validate a' /\ mongodb.Render o a = mongodb.Render o a'.
Proof.
  destruct a as [op c f p s sk l ds us up pl df],
           a' as [op' c' f' p' s' sk' l' ds' us' up' pl' df'].
  intros (H1 & H2 & H3 & H4 & H5 & H6 & H7 & H8) Hop. cbn in *. subst.
  destruct Hop as [<- | [<- | [<- | []]]]; split; reflexivity.
Qed.

(** X14: on a [Count], [Distinct] or [Aggregate] builder without error, the
    MongoDB renderer drops what a chain of accepted calls sets that set a
    projection, a sort order, a skip or a limit: the result is that of the
    builder without these calls. *)
Theorem mongodb_drops_shaping (b : docql.Builder) (cs : list Call) (o : MapOrder) :
  docql.err b = None ->
  In (Operation_ (docql.ast b)) [OpCount; OpDistinct; OpAggregate] ->
  Forall (fun c => shapesResult c = true) cs ->
  Forall (fun c => accepts (Operation_ (docql.ast b)) c = true) cs ->
  docql.BuilderRender o (chain b cs) mongodb.New
  = docql.BuilderRender o b mongodb.New.
Proof.
  intros He Hop Hshape Hacc.
  pose proof (proj2 (chain_guard b cs He) Hacc) as Herr.
  pose proof (chain_shapes_only cs b Hshape) as Hsame.
  destruct (mongodb_shape_free o _ _ Hsame Hop) as [Hv Hr].
  unfold docql.BuilderRender, docql.Build. rewrite Herr, He, Hv.
  destruct (Validate (docql.ast b)); [ reflexivity | ].
  exact Hr.
Qed.

Lemma mongodb_drops_shaping_witness :
  docql.BuilderRender stored
    (chain (docql.Filter (docql.Count users) statusIs)
       [CallLimit 5; CallSkip 10; CallSortDesc fAge; CallSelect [fName]])
    mongodb.New
  = docql.BuilderRender stored (docql.Filter (docql.Count users) statusIs)
      mongodb.New.
Proof.
  apply (mongodb_drops_shaping (docql.Filter (docql.Count users) statusIs)).
  - reflexivity.
  - left. reflexivity.
  - repeat constructor.
  - repeat constructor.
Defined.

(** Validation and the Firestore and DynamoDB renderers read no filter of
    an update or a delete. *)
Lemma write_filter_free (a : DocumentAST) (f : FilterItem) (o : MapOrder)
    (d : dynamodb.Renderer) :
  In (Operation_ a) [OpUpdate; OpDelete] ->
  Validate (docql.setFilterClause a f) = Validate a /\
  firestore.Render o (docql.setFilterClause a f) = firestore.Render o a /\
  dynamodb.Render d o (docql.setFilterClause a f) = dynamodb.Render d o a.
Proof.
  destruct a as [op c g p s sk l ds us up pl df]. cbn [Operation_].
  intros [<- | [<- | []]]; repeat split; reflexivity.
Qed.

(** X15: the Firestore and DynamoDB renderers drop the filter of an update
    and of a delete: after [Filter] on an [Update] or [Delete] builder, the
    rendered result is that of the builder without the call. *)
Theorem filter_dropped_on_write (b : docql.Builder) (f : FilterItem) (o : MapOrder)
    (d : dynamodb.Renderer) :
  In (Operation_ (docql.ast b)) [OpUpdate; OpDelete] ->
  docql.BuilderRender o (docql.Filter b f) firestore.New
  = docql.BuilderRender o b firestore.New /\
  docql.BuilderRender o (docql.Filter b f) (dynamodb.renderer d)
  = docql.BuilderRender o b (dynamodb.renderer d).
Proof.
  intros Hop. unfold docql.Filter. destruct (docql.err b) eqn:He;
    [ split; reflexivity | ].
  assert (H : forall g,
            docql.BuilderRender o
              (docql.mkBuilder (docql.setFilterClause (docql.ast b) g) None)
              firestore.New
            = docql.BuilderRender o b firestore.New /\
            docql.BuilderRender o
              (docql.mkBuilder (docql.setFilterClause (docql.ast b) g) None)
              (dynamodb.renderer d)
            = docql.BuilderRender o b (dynamodb.renderer d)).
  { intros g. destruct (write_filter_free (docql.ast b) g o d Hop)
      as (Hv & Hf & Hd).
    unfold docql.BuilderRender, docql.Build. cbn [docql.err docql.ast].
    rewrite He, Hv. destruct (Validate (docql.ast b)); [ split; reflexivity | ].
    split; [ exact Hf | exact Hd ]. }
  destruct (isNil (FilterClause (docql.ast b))); apply H.
Qed.

Lemma filter_dropped_on_write_witness :
  docql.BuilderRender stored (docql.Filter (docql.Delete users) statusIs)
    firestore.New
  = docql.BuilderRender stored (docql.Delete users) firestore.New /\
  docql.BuilderRender stored (docql.Filter (docql.Delete users) statusIs)
    (dynamodb.renderer dynamodb.New)
  = docql.BuilderRender stored (docql.Delete users) (dynamodb.renderer dynamodb.New).
Proof.
  apply (filter_dropped_on_write (docql.Delete users) statusIs stored dynamodb.New).
  right. left. reflexivity.
Defined.

(** X16: the DynamoDB renderer drops the sort order and the skip of a query:
    an AST renders as it does with any other sort clauses and skip that
    pass validation. *)
Theorem dynamodb_drops_sort_and_skip (d : dynamodb.Renderer) (o : MapOrder)
    (a : DocumentAST) (sorts : list SortClause) (skip : option PaginationValue) :
  len (SortClauses a) <= MaxSortFields -> len sorts <= MaxSortFields ->
  dynamodb.Render d o (docql.setSkip (docql.setSortClauses a sorts) skip)
  = dynamodb.Render d o a.
Proof.
  destruct a as [op c g p s sk l ds us up pl df]. cbn [SortClauses].
  intros Hs Hsorts.
  unfold dynamodb.Render, Validate.
  cbn [docql.setSkip docql.setSortClauses Operation_ Target].
  destruct (Name c =? ""); [ reflexivity | ].
  destruct ((op =? OpFind) || (op =? OpFindOne)) eqn:Hfind.
  - unfold validateFind.
    cbn [docql.setSkip docql.setSortClauses Limit Projection_ SortClauses
         FilterClause].
    assert (H1 : (len s >? MaxSortFields) = false)
      by (rewrite Z.gtb_ltb; apply Z.ltb_ge; lia).
    assert (H2 : (len sorts >? MaxSortFields) = false)
      by (rewrite Z.gtb_ltb; apply Z.ltb_ge; lia).
    rewrite H1, H2. reflexivity.
  - reflexivity.
Qed.

Lemma dynamodb_drops_sort_and_skip_witness :
  dynamodb.Render dynamodb.New stored
    (docql.ast (docql.Skip (docql.SortDesc (docql.Find users) fAge) 20))
  = dynamodb.Render dynamodb.New stored (docql.ast (docql.Find users)).
Proof.
  apply (dynamodb_drops_sort_and_skip dynamodb.New stored
           (docql.ast (docql.Find users)) [mkSortClause fAge Descending]
           (Some (mkPaginationValue (Some 20) None))).
  - unfold len, MaxSortFields. cbn. lia.
  - unfold len, MaxSortFields. cbn. lia.
Defined.

(** ** What a renderer says it supports *)

(** X17: an operation for which a renderer's [SupportsOperation] answers
    false is refused by its [Render], whatever the AST holds. *)
Theorem unsupported_operation_refused (r : docql.Renderer) (o : MapOrder)
    (a : DocumentAST) :
  provided r ->
  docql.SupportsOperation r (Operation_ a) = false ->
  is_err (docql.Render r o a) = true.
Proof.
  intros [ | d | | ]; cbn [docql.SupportsOperation docql.Render mongodb.New
                           firestore.New couchdb.New dynamodb.renderer].
  - discriminate.
  - intros H. unfold dynamodb.Render. rewrite H.
    destruct (Validate a); reflexivity.
  - intros H. unfold firestore.Render. rewrite H.
    destruct (Validate a); reflexivity.
  - intros H. unfold couchdb.Render. rewrite H.
    destruct (Validate a); reflexivity.
Qed.

Lemma unsupported_operation_refused_witness :
  is_err (docql.Render firestore.New stored
            (docql.ast (docql.Filter (docql.DeleteMany users) statusIs))) = true.
Proof.
  apply (unsupported_operation_refused firestore.New stored).
  - exact provided_firestore.
  - reflexivity.
Defined.

(** The render of [Find(c).Filter(f)] is the walk of the filter: the same
    error, or the names the walk has collected. *)
Lemma findWhere_valid (c : Collection) (f : FilterItem) :
  Name c <> "" -> isNil f = false -> validateFilterDepth f 0 = None ->
  Validate (findWhere c f) = None.
Proof.
  intros Hc Hf Hv. apply String.eqb_neq in Hc. unfold Validate, findWhere.
  cbn [docql.Filter docql.Find docql.err docql.ast docql.newAST FilterClause isNil
       docql.setFilterClause Target Operation_].
  rewrite Hc. change (OpFind =? OpFind) with true. cbn [orb].
  unfold validateFind.
  cbn [docql.setFilterClause docql.newAST Limit Projection_ SortClauses FilterClause].
  change (len (@nil SortClause) >? MaxSortFields) with false. cbv iota.
  now rewrite Hf.
Qed.

Lemma firestore_findWhere (o : MapOrder) (c : Collection) (f : FilterItem) :
  Name c <> "" -> isNil f = false -> validateFilterDepth f 0 = None ->
  namesOf (firestore.Render o (findWhere c f))
  = walked params (firestore.buildWheres f start).
Proof.
  intros Hc Hf Hv. unfold firestore.Render.
  rewrite (findWhere_valid c f Hc Hf Hv). unfold findWhere.
  cbn [docql.Filter docql.Find docql.err docql.ast docql.newAST FilterClause isNil
       docql.setFilterClause Target Operation_].
  change (firestore.SupportsOperation OpFind) with true.
  change (OpFind =? OpFind) with true. cbn [negb orb].
  unfold firestore.run, firestore.renderQuery, bind.
  cbn [docql.setFilterClause docql.newAST Limit Projection_ SortClauses FilterClause
       Skip].
  rewrite Hf. cbn [negb].
  destruct (firestore.buildWheres f start) as [[wheres st]|e]; reflexivity.
Qed.

Lemma couchdb_findWhere (o : MapOrder) (c : Collection) (f : FilterItem) :
  Name c <> "" -> isNil f = false -> validateFilterDepth f 0 = None ->
  namesOf (couchdb.Render o (findWhere c f))
  = walked params (couchdb.buildSelector f start).
Proof.
  intros Hc Hf Hv. unfold couchdb.Render.
  rewrite (findWhere_valid c f Hc Hf Hv). unfold findWhere.
  cbn [docql.Filter docql.Find docql.err docql.ast docql.newAST FilterClause isNil
       docql.setFilterClause Target Operation_].
  change (couchdb.SupportsOperation OpFind) with true.
  change (OpFind =? OpFind) with true. cbn [negb orb].
  unfold couchdb.run, couchdb.renderFind, couchdb.setSelector, bind.
  cbn [docql.setFilterClause docql.newAST Limit Projection_ SortClauses FilterClause
       Skip].
  rewrite Hf. cbn [negb].
  destruct (couchdb.buildSelector f start) as [[selector st]|e]; reflexivity.
Qed.

Lemma mongodb_findWhere (o : MapOrder) (c : Collection) (f : FilterItem) :
  Name c <> "" -> isNil f = false -> validateFilterDepth f 0 = None ->
  namesOf (mongodb.Render o (findWhere c f))
  = walked params (mongodb.renderFilter f start).
Proof.
  intros Hc Hf Hv. unfold mongodb.Render.
  rewrite (findWhere_valid c f Hc Hf Hv). unfold findWhere.
  cbn [docql.Filter docql.Find docql.err docql.ast docql.newAST FilterClause isNil
       docql.setFilterClause Target Operation_].
  change (OpFind =? OpFind) with true. cbn [negb orb].
  unfold mongodb.run, mongodb.renderFind, mongodb.setFilter, bind.
  cbn [docql.setFilterClause docql.newAST Limit Projection_ SortClauses FilterClause
       Skip].
  rewrite Hf. cbn [negb].
  destruct (mongodb.renderFilter f start) as [[filter st]|e]; reflexivity.
Qed.

Lemma dynamodb_findWhere (d : dynamodb.Renderer) (o : MapOrder) (c : Collection)
    (f : FilterItem) :
  Name c <> "" -> isNil f = false -> validateFilterDepth f 0 = None ->
  namesOf (dynamodb.Render d o (findWhere c f))
  = walked scopeParams (dynamodb.buildFilterExpression f dynamodb.fresh).
Proof.
  intros Hc Hf Hv. unfold dynamodb.Render.
  rewrite (findWhere_valid c f Hc Hf Hv). unfold findWhere.
  cbn [docql.Filter docql.Find docql.err docql.ast docql.newAST FilterClause isNil
       docql.setFilterClause Target Operation_].
  change (dynamodb.SupportsOperation OpFind) with true.
  change (OpFind =? OpFind) with true. cbn [negb orb].
  unfold dynamodb.run, dynamodb.renderQuery, bind.
  cbn [docql.setFilterClause docql.newAST Limit Projection_ SortClauses FilterClause
       Skip].
  rewrite Hf. cbn [negb].
  destruct (dynamodb.buildFilterExpression f dynamodb.fresh) as [[expr st]|e];
    reflexivity.
Qed.

Lemma is_ok_namesOf (r : result QueryResult) : is_ok (namesOf r) = is_ok r.
Proof. now destruct r. Qed.

(** X18: for a [Find] with one condition, [SupportsFilter] tells whether
    [Render] accepts the operator of the condition: exactly so for the
    Firestore, CouchDB and MongoDB renderers.  The DynamoDB renderer knows
    [$exists] as an [ExistsFilter] only: it refuses a condition with that
    operator although its [SupportsFilter] answers true. *)
Theorem supported_filter_renders (c : Collection) (field : Field)
    (op : FilterOperator) (value : Param) (o : MapOrder) (d : dynamodb.Renderer) :
  Name c <> "" ->
  is_ok (firestore.Render o (findWhere c (FilterCondition field op value)))
  = firestore.SupportsFilter op /\
  is_ok (couchdb.Render o (findWhere c (FilterCondition field op value)))
  = couchdb.SupportsFilter op /\
  is_ok (mongodb.Render o (findWhere c (FilterCondition field op value)))
  = mongodb.SupportsFilter op /\
  is_ok (dynamodb.Render d o (findWhere c (FilterCondition field op value)))
  = dynamodb.SupportsFilter op && negb (op =? Exists).
Proof.
  intros Hc.
  rewrite <- (is_ok_namesOf (firestore.Render _ _)),
          <- (is_ok_namesOf (couchdb.Render _ _)),
          <- (is_ok_namesOf (mongodb.Render _ _)),
          <- (is_ok_namesOf (dynamodb.Render _ _ _)).
  rewrite firestore_findWhere, couchdb_findWhere, mongodb_findWhere,
    dynamodb_findWhere by (first [ exact Hc | reflexivity ]).
  repeat split.
  - cbn [firestore.buildWheres]. unfold firestore.mapOperator, firestore.SupportsFilter.
    repeat match goal with
           | |- context [op =? ?x] => destruct (op =? x); cbn [orb]; try reflexivity
           end.
  - cbn [couchdb.buildSelector]. unfold bind, emit, couchdb.mapOperator,
      couchdb.SupportsFilter.
    repeat match goal with
           | |- context [op =? ?x] => destruct (op =? x); cbn [orb]; try reflexivity
           end.
  - cbn [mongodb.renderFilter]. unfold bind.
    destruct (negb (Param_Name value =? "")); reflexivity.
  - cbn [dynamodb.buildFilterExpression].
    unfold bind, dynamodb.getName, dynamodb.getValue, dynamodb.mapOperator,
      dynamodb.SupportsFilter.
    destruct (op =? Exists) eqn:Hexists.
    + apply String.eqb_eq in Hexists. subst op. reflexivity.
    + repeat match goal with
             | |- context [op =? ?x] =>
                 destruct (op =? x); cbn [orb andb negb]; try reflexivity
             end.
Qed.

Lemma supported_filter_renders_witness :
  dynamodb.SupportsFilter Exists = true /\
  is_ok (dynamodb.Render dynamodb.New stored
           (findWhere users (FilterCondition fStatus Exists (mkParam "set"))))
  = false /\
  is_ok (couchdb.Render stored
           (findWhere users (FilterCondition fStatus Exists (mkParam "set"))))
  = true.
Proof.
  destruct (supported_filter_renders users fStatus Exists (mkParam "set") stored
              dynamodb.New) as (_ & Hcouch & _ & Hdynamo); [ discriminate | ].
  split; [ reflexivity | split; [ exact Hdynamo | exact Hcouch ] ].
Defined.

(** A loop that fails exactly at the elements that [ok] rules out. *)
Lemma foldM_guarded {S A B : Type} (body : B -> A -> M S B) (ok : A -> bool)
    (l : list A) :
  (forall acc x st, In x l -> is_ok (body acc x st) = ok x) ->
  forall acc st, is_ok (foldM body l acc st) = forallb ok l.
Proof.
  induction l as [|x l IH]; intros Hbody acc st; [ reflexivity | ].
  cbn [foldM forallb]. unfold bind.
  pose proof (Hbody acc x st (or_introl eq_refl)) as Hx.
  destruct (body acc x st) as [[acc' st']|e]; cbn in Hx; rewrite <- Hx.
  - cbn [andb]. apply IH. intros; apply Hbody; now right.
  - reflexivity.
Qed.

Lemma foldM_total {S A B : Type} (body : B -> A -> M S B) (l : list A) :
  (forall acc x st, is_ok (body acc x st) = true) ->
  forall acc st, is_ok (foldM body l acc st) = true.
Proof.
  intros Hbody acc st.
  rewrite (foldM_guarded body (fun _ => true) l) by (intros; apply Hbody).
  induction l; [ reflexivity | assumption ].
Qed.

Lemma is_ok_bind {S A B : Type} (m : M S A) (k : A -> M S B) (st : S) :
  (forall a st', is_ok (k a st') = true) ->
  is_ok (bind m k st) = is_ok (m st).
Proof.
  intros Hk. unfold bind. destruct (m st) as [[a st']|e]; [ apply Hk | reflexivity ].
Qed.

Lemma update_valid (c : Collection) (ops : list UpdateOperation) :
  Name c <> "" -> ops <> [] ->
  Validate (docql.setUpdateOps (docql.newAST OpUpdate c) ops) = None.
Proof.
  intros Hc Hops. apply String.eqb_neq in Hc. unfold Validate.
  cbn [docql.setUpdateOps docql.newAST Target Operation_]. rewrite Hc.
  change (OpUpdate =? OpFind) with false. change (OpUpdate =? OpFindOne) with false.
  change (OpUpdate =? OpInsert) with false.
  change (OpUpdate =? OpInsertMany) with false.
  change (OpUpdate =? OpUpdate) with true. cbn [orb].
  unfold validateUpdate. cbn [UpdateOps].
  destruct ops; [ contradiction | reflexivity ].
Qed.

Lemma mongodb_renderUpdateOps_total (o : MapOrder) (ops : list UpdateOperation)
    (st : Walk) :
  is_ok (mongodb.renderUpdateOps o ops st) = true.
Proof.
  unfold mongodb.renderUpdateOps. rewrite is_ok_bind by reflexivity.
  apply foldM_total. intros acc op st0.
  unfold bind at 1. unfold rangeMap at 1. rewrite is_ok_bind by reflexivity.
  apply foldM_total. intros fields [field value] st1.
  destruct (negb (Param_Name value =? "")); reflexivity.
Qed.

Lemma firestore_update_loop (o : MapOrder) (ops : list UpdateOperation)
    (acc : gmap string JValue) (st : Walk) :
  is_ok
    (foldM (fun (data : gmap string JValue) op =>
              if negb (Operator op =? Set_) && negb (Operator op =? Unset) then
                fail ("firestore does not support update operator: " +:+ Operator op)
              else
                entries <- rangeMap o (Fields op) ;;
                foldM (fun (data : gmap string JValue) '(field, value) =>
                         if Operator op =? Unset then
                           ret (<[Path field := JStr "FieldValue.delete()"]> data)
                         else
                           emit (Param_Name value) ;;;
                           ret (<[Path field :=
                                    JStr (placeholder (Param_Name value))]> data))
                      entries data)
       ops acc st)
  = forallb (fun u => firestore.SupportsUpdate (Operator u)) ops.
Proof.
  apply foldM_guarded. intros data op st0 _. unfold firestore.SupportsUpdate.
  destruct (Operator op =? Set_), (Operator op =? Unset); cbn [negb andb orb];
    try reflexivity;
    unfold bind at 1; unfold rangeMap at 1;
    apply foldM_total; intros d [field value] st1; reflexivity.
Qed.

Lemma couchdb_update_loop (o : MapOrder) (ops : list UpdateOperation)
    (acc : gmap string JValue) (st : Walk) :
  is_ok
    (foldM (fun (updates : gmap string JValue) op =>
              if negb (Operator op =? Set_) then
                fail "CouchDB only supports $set updates"
              else
                entries <- rangeMap o (Fields op) ;;
                foldM (fun (updates : gmap string JValue) '(field, value) =>
                         emit (Param_Name value) ;;;
                         ret (<[Path field :=
                                  JStr (placeholder (Param_Name value))]> updates))
                      entries updates)
       ops acc st)
  = forallb (fun u => couchdb.SupportsUpdate (Operator u)) ops.
Proof.
  apply foldM_guarded. intros data op st0 _. unfold couchdb.SupportsUpdate.
  destruct (Operator op =? Set_); cbn [negb]; [ | reflexivity ].
  unfold bind at 1; unfold rangeMap at 1.
  apply foldM_total; intros d [field value] st1; reflexivity.
Qed.

Lemma dynamodb_update_loop (o : MapOrder) (ops : list UpdateOperation)
    (acc : list string * list string) (st : dynamodb.Scope) :
  is_ok
    (foldM (fun '(setExprs, removeExprs) op =>
              if (Operator op =? Set_) || (Operator op =? Inc) then
                entries <- dynamodb.lift (rangeMap o (Fields op)) ;;
                setExprs <-
                  foldM (fun (setExprs : list string) '(field, value) =>
                           nameKey <- dynamodb.getName (Path field) ;;
                           valueKey <- dynamodb.getValue (Param_Name value) ;;
                           if Operator op =? Inc then
                             ret (setExprs ++ [nameKey +:+ " = " +:+ nameKey +:+ " + "
                                               +:+ valueKey])%list
                           else
                             ret (setExprs ++ [nameKey +:+ " = " +:+ valueKey])%list)
                        entries setExprs ;;
                ret (setExprs, removeExprs)
              else if Operator op =? Unset then
                entries <- dynamodb.lift (rangeMap o (Fields op)) ;;
                removeExprs <-
                  foldM (fun (removeExprs : list string) '(field, _) =>
                           nameKey <- dynamodb.getName (Path field) ;;
                           ret (removeExprs ++ [nameKey])%list)
                        entries removeExprs ;;
                ret (setExprs, removeExprs)
              else
                fail ("DynamoDB does not support update operator: " +:+ Operator op))
       ops acc st)
  = forallb (fun u => dynamodb.SupportsUpdate (Operator u)) ops.
Proof.
  apply foldM_guarded. intros [setExprs removeExprs] op st0 _.
  unfold dynamodb.SupportsUpdate.
  destruct (Operator op =? Set_) eqn:Hset; cbn [orb].
  - unfold bind at 1, dynamodb.lift at 1, rangeMap at 1.
    rewrite is_ok_bind by reflexivity.
    apply foldM_total. intros d [field value] st1.
    unfold bind, dynamodb.getName, dynamodb.getValue.
    destruct (Operator op =? Inc); reflexivity.
  - destruct (Operator op =? Inc) eqn:Hinc.
    + rewrite orb_true_r.
      unfold bind at 1, dynamodb.lift at 1, rangeMap at 1.
      rewrite is_ok_bind by reflexivity.
      apply foldM_total. intros d [field value] st1.
      unfold bind, dynamodb.getName, dynamodb.getValue. reflexivity.
    + rewrite orb_false_r. destruct (Operator op =? Unset); [ | reflexivity ].
      unfold bind at 1, dynamodb.lift at 1, rangeMap at 1.
      rewrite is_ok_bind by reflexivity.
      apply foldM_total. intros d [field value] st1. reflexivity.
Qed.

(** X19: for an [Update] without a filter, [SupportsUpdate] tells whether
    [Render] accepts the update operations: every provided renderer renders
    the AST exactly when it supports the operator of each operation. *)
Theorem supported_update_renders (r : docql.Renderer) (o : MapOrder)
    (c : Collection) (ops : list UpdateOperation) :
  provided r -> Name c <> "" -> ops <> [] ->
  is_ok (docql.Render r o (docql.setUpdateOps (docql.newAST OpUpdate c) ops))
  = forallb (fun u => docql.SupportsUpdate r (Operator u)) ops.
Proof.
  intros Hr Hc Hops. pose proof (update_valid c ops Hc Hops) as Hv.
  destruct Hr as [ | d | | ];
    cbn [docql.Render docql.SupportsUpdate mongodb.New dynamodb.renderer
         firestore.New couchdb.New].
  - unfold mongodb.Render. rewrite Hv.
    cbn [docql.setUpdateOps docql.newAST Operation_].
    change (OpUpdate =? OpFind) with false. change (OpUpdate =? OpFindOne) with false.
    change (OpUpdate =? OpInsert) with false.
    change (OpUpdate =? OpInsertMany) with false.
    change (OpUpdate =? OpUpdate) with true. cbn [orb].
    unfold mongodb.SupportsUpdate.
    replace (forallb (fun _ : UpdateOperation => true) ops) with true
      by (clear; induction ops; [ reflexivity | assumption ]).
    unfold mongodb.run, mongodb.renderUpdate, mongodb.setFilter.
    cbn [docql.setUpdateOps docql.newAST FilterClause isNil negb UpdateOps Upsert].
    unfold bind at 1. cbn [ret]. unfold bind at 1.
    pose proof (mongodb_renderUpdateOps_total o ops start) as Htotal.
    destruct (mongodb.renderUpdateOps o ops start) as [[update st]|e];
      [ reflexivity | discriminate Htotal ].
  - unfold dynamodb.Render. rewrite Hv.
    cbn [docql.setUpdateOps docql.newAST Operation_].
    change (dynamodb.SupportsOperation OpUpdate) with true.
    change (OpUpdate =? OpFind) with false. change (OpUpdate =? OpFindOne) with false.
    change (OpUpdate =? OpInsert) with false.
    change (OpUpdate =? OpUpdate) with true. cbn [orb negb].
    rewrite <- (dynamodb_update_loop o ops ([], []) dynamodb.fresh).
    unfold dynamodb.run, dynamodb.renderUpdateItem.
    cbn [docql.setUpdateOps docql.newAST UpdateOps Target].
    unfold bind at 1.
    match goal with
    | |- context [foldM ?body ops ?acc ?st] =>
        destruct (foldM body ops acc st) as [[[setExprs removeExprs] st']|e]
    end; reflexivity.
  - unfold firestore.Render. rewrite Hv.
    cbn [docql.setUpdateOps docql.newAST Operation_].
    change (firestore.SupportsOperation OpUpdate) with true.
    change (OpUpdate =? OpFind) with false. change (OpUpdate =? OpFindOne) with false.
    change (OpUpdate =? OpInsert) with false.
    change (OpUpdate =? OpUpdate) with true. cbn [orb negb].
    rewrite <- (firestore_update_loop o ops ∅ start).
    unfold firestore.run, firestore.renderUpdate.
    cbn [docql.setUpdateOps docql.newAST UpdateOps].
    unfold bind at 1.
    match goal with
    | |- context [foldM ?body ops ?acc ?st] =>
        destruct (foldM body ops acc st) as [[data st']|e]
    end; reflexivity.
  - unfold couchdb.Render. rewrite Hv.
    cbn [docql.setUpdateOps docql.newAST Operation_].
    change (couchdb.SupportsOperation OpUpdate) with true.
    change (OpUpdate =? OpFind) with false. change (OpUpdate =? OpFindOne) with false.
    change (OpUpdate =? OpInsert) with false.
    change (OpUpdate =? OpUpdate) with true. cbn [orb negb].
    rewrite <- (couchdb_update_loop o ops ∅ start).
    unfold couchdb.run, couchdb.renderUpdate, couchdb.setSelector.
    cbn [docql.setUpdateOps docql.newAST UpdateOps FilterClause isNil negb].
    unfold bind at 1. cbn [ret]. unfold bind at 1.
    match goal with
    | |- context [foldM ?body ops ?acc ?st] =>
        destruct (foldM body ops acc st) as [[data st']|e]
    end; reflexivity.
Qed.

Lemma supported_update_renders_witness :
  is_ok (docql.Render couchdb.New stored
           (docql.ast (docql.Inc_ (docql.Update users) fAge (mkParam "by"))))
  = false.
Proof.
  apply (supported_update_renders couchdb.New stored users
           [mkUpdateOperation Inc {[ fAge := mkParam "by" ]}]).
  - exact provided_couchdb.
  - discriminate.
  - discriminate.
Defined.

(** ** The parameter names of a filter *)













(** ** Filters the MongoDB renderer accepts *)

Lemma mapM_is_ok {S A B : Type} (f : A -> M S B) (ok : A -> bool) (l : list A) :
  Forall (fun x => forall st, is_ok (f x st) = ok x) l ->
  forall st, is_ok (mapM f l st) = forallb ok l.
Proof.
  induction 1 as [|x l Hx _ IH]; intros st; [ reflexivity | ].
  cbn [mapM forallb]. unfold bind. specialize (Hx st).
  destruct (f x st) as [[y st1]|e]; cbn in Hx; rewrite <- Hx; [ | reflexivity ].
  specialize (IH st1). destruct (mapM f l st1) as [[ys st2]|e]; exact IH.
Qed.

Lemma forallb_negb_existsb {A : Type} (p : A -> bool) (l : list A) :
  forallb (fun x => negb (p x)) l = negb (existsb p l).
Proof.
  induction l as [|x l IH]; [ reflexivity | ]. cbn. rewrite IH.
  now destruct (p x).
Qed.

(** The MongoDB renderer walks every kind of filter item: it fails on a
    nil item only. *)
Lemma mongodb_renderFilter_is_ok (f : FilterItem) :
  forall st, is_ok (mongodb.renderFilter f st) = negb (hasNil f).
Proof.
  induction f as [ | field operator value | logic cs IH
                 | field [mn|] [mx|] minExclusive maxExclusive
                 | field pattern [opts|]
                 | search [lang|] caseSensitive diacriticSensitive
                 | field operator center [radius|] maxDistance minDistance
                 | field operator value | field cs IH | field exists_ ]
    using FilterItem_nested_ind; intros st;
    cbn [mongodb.renderFilter hasNil]; try reflexivity.
  - destruct (negb (Param_Name value =? "")); reflexivity.
  - rewrite is_ok_bind by reflexivity.
    rewrite <- forallb_negb_existsb. now apply mapM_is_ok.
  - rewrite is_ok_bind by reflexivity.
    rewrite <- forallb_negb_existsb. now apply mapM_is_ok.
Qed.

(** X21: the MongoDB renderer renders a [Find] with any filter that passes
    the depth test, of whatever kinds of items, unless the filter holds a
    nil item inside a group or an element match. *)
Theorem mongodb_renders_every_filter (o : MapOrder) (c : Collection)
    (f : FilterItem) :
  Name c <> "" -> isNil f = false -> height f <= MaxFilterDepth ->
  is_ok (mongodb.Render o (findWhere c f)) = negb (hasNil f).
Proof.
  intros Hc Hf Hh.
  assert (Hv : validateFilterDepth f 0 = None)
    by (apply validateFilterDepth_height; lia).
  rewrite <- is_ok_namesOf, (mongodb_findWhere o c f Hc Hf Hv).
  rewrite <- (mongodb_renderFilter_is_ok f start).
  now destruct (mongodb.renderFilter f start) as [[v st]|e].
Qed.

Lemma mongodb_renders_every_filter_witness :
  is_ok (mongodb.Render stored (findWhere users (FilterGroup AND [statusIs; NilFilter])))
  = false.
Proof.
  apply (mongodb_renders_every_filter stored users
           (FilterGroup AND [statusIs; NilFilter])).
  - discriminate.
  - reflexivity.
  - unfold MaxFilterDepth. cbn. lia.
Defined.

(** ** Nested conjunctions in the Firestore renderer *)

Lemma mapM_app {S A B : Type} (f : A -> M S B) (l1 l2 : list A) (st : S) :
  mapM f (l1 ++ l2) st
  = match mapM f l1 st with
    | Ok (ys1, st1) =>
        match mapM f l2 st1 with
        | Ok (ys2, st2) => Ok (ys1 ++ ys2, st2)
        | Err e => Err e
        end
    | Err e => Err e
    end.
Proof.
  revert st. induction l1 as [|x l1 IH]; intros st; cbn [mapM app].
  - unfold ret. destruct (mapM f l2 st) as [[ys st']|e]; reflexivity.
  - unfold bind. destruct (f x st) as [[y st1]|e]; [ | reflexivity ].
    rewrite IH. unfold ret.
    destruct (mapM f l1 st1) as [[ys1 st2]|e]; [ | reflexivity ].
    destruct (mapM f l2 st2) as [[ys2 st3]|e]; reflexivity.
Qed.

(** The walk of a conjunction inside a conjunction is the walk of the one
    conjunction of all their conditions. *)
Lemma firestore_nested_and (xs ys : list FilterItem) (st : Walk) :
  firestore.buildWheres (FilterGroup AND (FilterGroup AND xs :: ys)) st
  = firestore.buildWheres (FilterGroup AND (xs ++ ys)) st.
Proof.
  cbn [firestore.buildWheres]. change (negb (AND =? AND)) with false. cbv iota.
  unfold bind. rewrite mapM_app. cbn [mapM]. unfold bind, ret.
  cbn [firestore.buildWheres]. change (negb (AND =? AND)) with false. cbv iota.
  unfold bind, ret.
  destruct (mapM firestore.buildWheres xs st) as [[wx st1]|e]; [ | reflexivity ].
  destruct (mapM firestore.buildWheres ys st1) as [[wy st2]|e]; [ | reflexivity ].
  cbn [concat]. now rewrite concat_app.
Qed.

Lemma firestore_findWhere_result (o : MapOrder) (c : Collection) (f : FilterItem) :
  Name c <> "" -> isNil f = false -> validateFilterDepth f 0 = None ->
  firestore.Render o (findWhere c f)
  = match firestore.buildWheres f start with
    | Ok (wheres, st) =>
        Ok (mkQueryResult
              (Marshal
                 (JObj (<["where" := firestore.slice wheres]>
                          (<["operation" := JStr OpFind]>
                             (<["collection" := JStr (Name c)]> ∅)))))
              (params st))
    | Err e => Err e
    end.
Proof.
  intros Hc Hf Hv. unfold firestore.Render.
  rewrite (findWhere_valid c f Hc Hf Hv). unfold findWhere.
  cbn [docql.Filter docql.Find docql.err docql.ast docql.newAST FilterClause isNil
       docql.setFilterClause Target Operation_].
  change (firestore.SupportsOperation OpFind) with true.
  change (OpFind =? OpFind) with true. cbn [negb orb].
  unfold firestore.run, firestore.renderQuery, bind.
  cbn [docql.setFilterClause docql.newAST Limit Projection_ SortClauses FilterClause
       Skip].
  rewrite Hf. cbn [negb].
  destruct (firestore.buildWheres f start) as [[wheres st]|e]; reflexivity.
Qed.

Lemma height_app (xs ys : list FilterItem) :
  fold_right (fun c h => Z.max (1 + height c) h) 0 (xs ++ ys)
  = Z.max (fold_right (fun c h => Z.max (1 + height c) h) 0 xs)
          (fold_right (fun c h => Z.max (1 + height c) h) 0 ys).
Proof.
  induction xs as [|x xs IH]; cbn [app fold_right].
  - assert (0 <= fold_right (fun c h => Z.max (1 + height c) h) 0 ys)
      by (induction ys; cbn [fold_right]; lia).
    lia.
  - rewrite IH. lia.
Qed.

(** X22: the Firestore renderer flattens a conjunction that is the first
    item of a conjunction: for a named collection and a filter within the
    depth limit, the [Find] renders as it does with the one conjunction of
    all the conditions.  Chained [Filter] calls, which nest (C6), thus render like
    one [And] of their items. *)
Theorem firestore_flattens_and (o : MapOrder) (c : Collection)
    (xs ys : list FilterItem) :
  Name c <> "" ->
  validateFilterDepth (FilterGroup AND (FilterGroup AND xs :: ys)) 0 = None ->
  firestore.Render o (findWhere c (FilterGroup AND (FilterGroup AND xs :: ys)))
  = firestore.Render o (findWhere c (FilterGroup AND (xs ++ ys))).
Proof.
  intros Hc Hv.
  assert (Hv' : validateFilterDepth (FilterGroup AND (xs ++ ys)) 0 = None).
  { apply validateFilterDepth_height. apply validateFilterDepth_height in Hv.
    cbn [height fold_right] in *. rewrite height_app. lia. }
  rewrite !firestore_findWhere_result by (first [ exact Hc | assumption | reflexivity ]).
  now rewrite firestore_nested_and.
Qed.

Lemma firestore_flattens_and_witness :
  firestore.Render stored
    (docql.ast
       (docql.Filter (docql.Filter (docql.Filter (docql.Find users) statusIs) ageOver)
          emailIs))
  = firestore.Render stored
      (findWhere users (FilterGroup AND [statusIs; ageOver; emailIs])).
Proof.
  apply (firestore_flattens_and stored users [statusIs; ageOver] [emailIs]).
  - discriminate.
  - reflexivity.
Defined.

(** ** Pipeline stages in the MongoDB renderer *)

Lemma mongodb_renderExpression_total (e : Expression) :
  forall st, is_ok (mongodb.renderExpression e st) = true.
Proof.
  induction e as [ | field | value | operator args IH | i t e Hi Ht He ]
    using Expression_nested_ind; intros st; cbn [mongodb.renderExpression];
    try reflexivity.
  - rewrite is_ok_bind by reflexivity.
    rewrite (mapM_is_ok mongodb.renderExpression (fun _ => true) args IH st).
    clear. induction args; [ reflexivity | assumption ].
  - unfold bind. specialize (Hi st).
    destruct (mongodb.renderExpression i st) as [[vi st1]|?]; [ | discriminate ].
    specialize (Ht st1).
    destruct (mongodb.renderExpression t st1) as [[vt st2]|?]; [ | discriminate ].
    specialize (He st2).
    destruct (mongodb.renderExpression e st2) as [[ve st3]|?]; [ | discriminate ].
    reflexivity.
Qed.

(** A walk that ends by returning an object with the one key [name]. *)
Lemma keyed_bind {A : Type} (name : option string) (m : M Walk A)
    (k : A -> M Walk JValue) (st : Walk) :
  (forall a st',
     match k a st' with
     | Ok (v, _) =>
         exists (n : string) (body : JValue), name = Some n /\ v = JObj {[ n := body ]}
     | Err _ => True
     end) ->
  match bind m k st with
  | Ok (v, _) =>
      exists (n : string) (body : JValue), name = Some n /\ v = JObj {[ n := body ]}
  | Err _ => True
  end.
Proof.
  intros Hk. unfold bind. destruct (m st) as [[a st']|e]; [ apply Hk | exact I ].
Qed.

(** X23: the MongoDB renderer renders a stage as an object with one key, the
    [StageName] of the stage.  It renders ten kinds of stages, a [$match]
    as far as it renders the filter; a [ReplaceRootStage], a [FacetStage] and
    a [BucketStage] it refuses, although [SupportsPipelineStage] answers
    true for every stage name. *)
Theorem mongodb_stage_key (o : MapOrder) (stage : PipelineStage) (st : Walk) :
  match mongodb.renderPipelineStage o stage st with
  | Ok (v, _) =>
      exists (name : string) (body : JValue),
        StageName stage = Some name /\ v = JObj {[ name := body ]}
  | Err _ => True
  end /\
  is_ok (mongodb.renderPipelineStage o stage st)
  = match stage with
    | NilStage | ReplaceRootStage _ | FacetStage _ | BucketStage _ _ _ _ => false
    | MatchStage filter => negb (hasNil filter)
    | _ => true
    end /\
  (forall name : string, mongodb.SupportsPipelineStage name = true).
Proof.
  split; [ | split; [ | reflexivity ] ].
  - destruct stage; cbn [mongodb.renderPipelineStage StageName];
      try exact I;
      repeat (apply keyed_bind; intros ? ?);
      eexists _, _; (split; reflexivity).
  - destruct stage; cbn [mongodb.renderPipelineStage]; try reflexivity.
    + rewrite is_ok_bind by reflexivity. apply mongodb_renderFilter_is_ok.
    + rewrite is_ok_bind; [ apply mongodb_renderExpression_total | ].
      intros vid st1. unfold bind at 1. unfold rangeMap at 1.
      rewrite is_ok_bind by reflexivity.
      apply foldM_total. intros g [name acc0] s0.
      rewrite is_ok_bind by reflexivity. apply mongodb_renderExpression_total.
    + destruct limit as [[n|] [p|]]; reflexivity.
    + destruct skip as [[n|] [p|]]; reflexivity.
    + unfold bind at 1. unfold rangeMap at 1.
      rewrite is_ok_bind by reflexivity.
      apply foldM_total. intros g [name e0] s0.
      rewrite is_ok_bind by reflexivity. apply mongodb_renderExpression_total.
Qed.

(** ** The sort order in the MongoDB renderer *)

Lemma mongodb_renderSort_map (sorts : list SortClause) :
  mongodb.renderSort sorts
  = JObj (list_to_map
            (rev (map (fun s => (Path (Sort_Field s), JInt (Order s))) sorts))).
Proof.
  unfold mongodb.renderSort. f_equal.
  induction sorts as [|s sorts IH] using rev_ind; [ reflexivity | ].
  rewrite fold_left_app, map_app, rev_app_distr. cbn. now rewrite IH.
Qed.

(** The sort document is a map from paths to directions: it is the same
    for every arrangement of sort clauses on distinct paths. *)
Lemma mongodb_renderSort_perm (sorts sorts' : list SortClause) :
  Permutation sorts sorts' ->
  NoDup (map (fun s => Path (Sort_Field s)) sorts) ->
  mongodb.renderSort sorts = mongodb.renderSort sorts'.
Proof.
  intros Hp Hn. rewrite !mongodb_renderSort_map. f_equal.
  apply list_to_map_proper.
  - change (NoDup (map fst
                     (rev (map (fun s => (Path (Sort_Field s), JInt (Order s)))
                             sorts)))).
    rewrite map_rev, map_map. cbn [fst].
    apply NoDup_ListNoDup, List.NoDup_rev, NoDup_ListNoDup. exact Hn.
  - rewrite <- !Permutation_rev. now apply Permutation_map.
Qed.

(** X24: the MongoDB renderer writes the sort clauses into a map from paths
    to directions, so their order, which tells the priority of the sort
    keys, is lost: with clauses on distinct paths, every arrangement of the
    clauses renders to the same result. *)
Theorem mongodb_sort_order_lost (o : MapOrder) (a : DocumentAST)
    (sorts sorts' : list SortClause) :
  Permutation sorts sorts' ->
  NoDup (map (fun s => Path (Sort_Field s)) sorts) ->
  mongodb.Render o (docql.setSortClauses a sorts)
  = mongodb.Render o (docql.setSortClauses a sorts').
Proof.
  intros Hp Hn. pose proof (mongodb_renderSort_perm sorts sorts' Hp Hn) as Hsort.
  assert (Hlen : len sorts = len sorts')
    by (unfold len; now rewrite (Permutation_length Hp)).
  destruct a as [op c g p s sk l ds us up pl df].
  unfold mongodb.Render, Validate.
  cbn [docql.setSortClauses Operation_ Target].
  destruct (Name c =? ""); [ reflexivity | ].
  destruct ((op =? OpFind) || (op =? OpFindOne)) eqn:Hfind.
  - unfold validateFind, mongodb.run, mongodb.renderFind, mongodb.setFilter,
      mongodb.header.
    cbn [docql.setSortClauses Limit Projection_ SortClauses FilterClause Skip
         Operation_ Target].
    rewrite Hlen, Hsort. reflexivity.
  - reflexivity.
Qed.

Lemma mongodb_sort_order_lost_witness :
  mongodb.Render stored
    (docql.ast (docql.SortDesc (docql.SortAsc (docql.Find users) fName) fAge))
  = mongodb.Render stored
      (docql.ast (docql.SortAsc (docql.SortDesc (docql.Find users) fAge) fName)).
Proof.
  apply (mongodb_sort_order_lost stored (docql.ast (docql.Find users))
           [mkSortClause fName Ascending; mkSortClause fAge Descending]
           [mkSortClause fAge Descending; mkSortClause fName Ascending]).
  - apply perm_swap.
  - apply (bool_decide_unpack _). vm_compute. exact I.
Defined.

(** ** Placeholders of the DynamoDB renderer *)









